(** * ship24-api: the shipment-tracking server (server.js)

    A shallow embedding of the request handlers of [server.js] and the
    properties of the shipment ledger, the quote store and the credential
    store that its specification states.

    Modelling choices.
    - A request body is a JSON object ([req.body || {}] is the empty
      object when there is none) and a stored document is one too.  A
      JavaScript object is an association list in key order; a field
      whose value is [undefined] is a missing key (JSON serialisation
      drops it anyway).  A number is an integer: the handlers only test
      numbers for being zero.  Strings are sequences of characters of the
      ASCII range.
    - A datastore (nedb) is the list of its documents in the order of
      their insertion.  The datastore reaches them through its unique
      index on [_id], a search tree ordered by [compareThings]: a document
      is held under its [_id] or, when that is an array, under each of its
      elements.  A query by [_id] finds the document held under that key;
      any other query tries the documents in the order of the keys.
    - The values the handlers draw from the clock and from the random
      generators ([new Date().toISOString()], [nanoid()], [Date.now()],
      the datastore's fresh [_id]) are arguments of the handlers.
    - An async handler whose promise rejects (an exception thrown by the
      datastore or by JavaScript itself) sends no reply: [Rejected].
    - Token signing and verification, password hashing and the part of
      [$set] that descends into nested values are kept abstract (record
      [Lib]); the properties hold for every instance. *)

From Stdlib Require Import String Ascii List Bool Arith ZArith Lia.
From Stdlib Require Import Permutation.
Import ListNotations.
Local Open Scope string_scope.
Local Open Scope list_scope.

(** ** JSON values *)

#[warnings="-register-all"]
Inductive Json : Type :=
| JNull
| JBool (b : bool)
| JNum (n : Z)
| JStr (s : string)
| JArr (l : list Json)
| JObj (o : list (string * Json)).

(** A JavaScript object: its own enumerable keys, in order. *)
Definition Obj := list (string * Json).

(** [o[k]]; [None] is [undefined]. *)
Fixpoint lookup (k : string) (o : Obj) : option Json :=
  match o with
  | [] => None
  | (k', v) :: o' => if String.eqb k k' then Some v else lookup k o'
  end.

(** [o[k] = v]: an existing key keeps its place, a new key goes last. *)
Fixpoint obj_set (k : string) (v : Json) (o : Obj) : Obj :=
  match o with
  | [] => [(k, v)]
  | (k', v') :: o' =>
      if String.eqb k k' then (k, v) :: o' else (k', v') :: obj_set k v o'
  end.

(** Dropping a key: what assigning [undefined] amounts to. *)
Fixpoint obj_del (k : string) (o : Obj) : Obj :=
  match o with
  | [] => []
  | (k', v') :: o' =>
      if String.eqb k k' then obj_del k o' else (k', v') :: obj_del k o'
  end.

(** [o[k] = v] where [v] may be [undefined]. *)
Definition obj_put (k : string) (v : option Json) (o : Obj) : Obj :=
  match v with
  | Some j => obj_set k j o
  | None => obj_del k o
  end.

(** An object literal [{ k1: v1, ..., kn: vn }], later keys overriding. *)
Fixpoint literal (fields : list (string * option Json)) (acc : Obj) : Obj :=
  match fields with
  | [] => acc
  | (k, v) :: rest => literal rest (obj_put k v acc)
  end.

(** JavaScript truthiness of a value that may be [undefined]. *)
Definition truthy (v : option Json) : bool :=
  match v with
  | None => false
  | Some JNull => false
  | Some (JBool b) => b
  | Some (JNum n) => negb (Z.eqb n 0)
  | Some (JStr s) => negb (String.eqb s "")
  | Some (JArr _) => true
  | Some (JObj _) => true
  end.

(** [a || b] on values. *)
Definition js_or (a b : option Json) : option Json :=
  if truthy a then a else b.

(** [Array.isArray(v)]. *)
Definition isArray (v : option Json) : bool :=
  match v with
  | Some (JArr _) => true
  | _ => false
  end.

(** Structural equality of JSON values. *)
Fixpoint json_eqb (a b : Json) : bool :=
  match a, b with
  | JNull, JNull => true
  | JBool x, JBool y => Bool.eqb x y
  | JNum x, JNum y => Z.eqb x y
  | JStr x, JStr y => String.eqb x y
  | JArr x, JArr y =>
      (fix all2 (x y : list Json) : bool :=
         match x, y with
         | [], [] => true
         | u :: x', v :: y' => json_eqb u v && all2 x' y'
         | _, _ => false
         end) x y
  | JObj x, JObj y =>
      (fix all2 (x y : list (string * Json)) : bool :=
         match x, y with
         | [], [] => true
         | (k, u) :: x', (k', v) :: y' =>
             String.eqb k k' && json_eqb u v && all2 x' y'
         | _, _ => false
         end) x y
  | _, _ => false
  end.

(** [a === b] on values that may be [undefined]: primitives compare by
    value, two distinct arrays or objects are never identical. *)
Definition strict_eq (a b : option Json) : bool :=
  match a, b with
  | None, None => true
  | Some JNull, Some JNull => true
  | Some (JBool x), Some (JBool y) => Bool.eqb x y
  | Some (JNum x), Some (JNum y) => Z.eqb x y
  | Some (JStr x), Some (JStr y) => String.eqb x y
  | _, _ => false
  end.

(** ** Strings *)

(** [s.startsWith(p)]. *)
Fixpoint startsWith (p s : string) : bool :=
  match p, s with
  | EmptyString, _ => true
  | String a p', String b s' => Ascii.eqb a b && startsWith p' s'
  | String _ _, EmptyString => false
  end.

(** [s.slice(n)] for [0 <= n]. *)
Fixpoint slice (n : nat) (s : string) : string :=
  match n, s with
  | O, _ => s
  | S n', String _ s' => slice n' s'
  | S _, EmptyString => EmptyString
  end.

Definition is_upper (c : ascii) : bool :=
  (65 <=? nat_of_ascii c)%nat && (nat_of_ascii c <=? 90)%nat.

Definition is_lower (c : ascii) : bool :=
  (97 <=? nat_of_ascii c)%nat && (nat_of_ascii c <=? 122)%nat.

Definition lower_char (c : ascii) : ascii :=
  if is_upper c then ascii_of_nat (nat_of_ascii c + 32) else c.

Definition upper_char (c : ascii) : ascii :=
  if is_lower c then ascii_of_nat (nat_of_ascii c - 32) else c.

(** [s.toLowerCase()]. *)
Fixpoint toLowerCase (s : string) : string :=
  match s with
  | EmptyString => EmptyString
  | String c s' => String (lower_char c) (toLowerCase s')
  end.

(** [s.toUpperCase()]. *)
Fixpoint toUpperCase (s : string) : string :=
  match s with
  | EmptyString => EmptyString
  | String c s' => String (upper_char c) (toUpperCase s')
  end.

(** [s.indexOf('.') !== -1]. *)
Fixpoint has_dot (s : string) : bool :=
  match s with
  | EmptyString => false
  | String c s' => Ascii.eqb c "."%char || has_dot s'
  end.

(** [s.split('.')]: never empty; [a.b] gives [a; b]. *)
Fixpoint split_dot (s : string) : list string :=
  match s with
  | EmptyString => [EmptyString]
  | String c s' =>
      if Ascii.eqb c "."%char then EmptyString :: split_dot s'
      else match split_dot s' with
           | [] => [String c EmptyString]
           | w :: ws => String c w :: ws
           end
  end.

(** ** The datastore (nedb) *)

(** A datastore: its documents, in the order of their insertion.  The
    datastore reaches them through its index on [_id], below. *)
Definition Store := list Obj.

(** [checkKey(k, v)]: a field name may not begin with [$] (four reserved
    names apart) nor contain a dot. *)
Definition checkKey (k : string) (v : Json) : bool :=
  let reserved :=
    (String.eqb k "$$date" && match v with JNum _ => true | _ => false end)
    || (String.eqb k "$$deleted" && match v with JBool true => true | _ => false end)
    || String.eqb k "$$indexCreated"
    || String.eqb k "$$indexRemoved" in
  (negb (startsWith "$" k) || reserved) && negb (has_dot k).

(** [checkObject(v)]: every field name at every depth passes [checkKey]. *)
Fixpoint checkObject (v : Json) : bool :=
  match v with
  | JArr l =>
      (fix all (l : list Json) : bool :=
         match l with
         | [] => true
         | x :: l' => checkObject x && all l'
         end) l
  | JObj o =>
      (fix all (o : list (string * Json)) : bool :=
         match o with
         | [] => true
         | (k, x) :: o' => checkKey k x && checkObject x && all o'
         end) o
  | _ => true
  end.

(** *** The order of values *)

(** A bound on the nesting of a value. *)
Fixpoint weight (v : Json) : nat :=
  match v with
  | JArr l =>
      S ((fix sum (l : list Json) : nat :=
            match l with
            | [] => 0
            | x :: l' => weight x + sum l'
            end) l)
  | JObj o =>
      S ((fix sum (o : list (string * Json)) : nat :=
            match o with
            | [] => 0
            | (_, x) :: o' => weight x + sum o'
            end) o)
  | _ => 1
  end.

(** [compareArrays(x, y)] over a comparison of the elements: element by
    element, then by length. *)
Fixpoint compare_lists (cmp : Json -> Json -> comparison) (x y : list Json)
  : comparison :=
  match x, y with
  | [], [] => Eq
  | [], _ :: _ => Lt
  | _ :: _, [] => Gt
  | u :: x', v :: y' =>
      match cmp u v with
      | Eq => compare_lists cmp x' y'
      | c => c
      end
  end.

(** The fields of an object in the order of [Object.keys(o).sort()]. *)
Fixpoint insert_field (f : string * Json) (o : Obj) : Obj :=
  match o with
  | [] => [f]
  | g :: o' =>
      if String.ltb (fst f) (fst g) then f :: o else g :: insert_field f o'
  end.

Definition sorted_fields (o : Obj) : Obj := fold_right insert_field [] o.

(** [compareThings(a, b)], the order of the datastore: [null] first, then
    numbers, strings, booleans, arrays and objects; two arrays compare as
    [compareArrays] says, two objects by the values of their sorted keys
    and then by the number of keys.  [n] bounds the nesting. *)
Fixpoint compare_within (n : nat) (a b : Json) : comparison :=
  match n with
  | O => Eq
  | S n' =>
      match a, b with
      | JNull, JNull => Eq
      | JNull, _ => Lt
      | _, JNull => Gt
      | JNum x, JNum y => Z.compare x y
      | JNum _, _ => Lt
      | _, JNum _ => Gt
      | JStr x, JStr y => String.compare x y
      | JStr _, _ => Lt
      | _, JStr _ => Gt
      | JBool x, JBool y => Bool.compare x y
      | JBool _, _ => Lt
      | _, JBool _ => Gt
      | JArr x, JArr y => compare_lists (compare_within n') x y
      | JArr _, _ => Lt
      | _, JArr _ => Gt
      | JObj x, JObj y =>
          compare_lists (compare_within n')
            (map snd (sorted_fields x)) (map snd (sorted_fields y))
      end
  end.

Definition compareThings (a b : Json) : comparison :=
  compare_within (weight a) a b.

(** *** The index on [_id]

    The index is a search tree, unique in its keys and ordered by
    [compareThings].  It holds a document under its [_id]; when the [_id]
    is an array, under each element of it, equal primitives taken once. *)

Definition is_primitive (v : Json) : bool :=
  match v with
  | JArr _ | JObj _ => false
  | _ => true
  end.

(** [uniq(key, projectForUnique)]: an element goes when an equal primitive
    came before it; arrays and objects all stay. *)
Fixpoint uniq (seen l : list Json) : list Json :=
  match l with
  | [] => []
  | x :: l' =>
      if is_primitive x && existsb (json_eqb x) seen then uniq seen l'
      else x :: uniq (x :: seen) l'
  end.

(** The keys of an [_id]. *)
Definition keys_of (i : Json) : list Json :=
  match i with
  | JArr l => uniq [] l
  | _ => [i]
  end.

(** The keys under which the index holds the document. *)
Definition index_keys (d : Obj) : list Json :=
  match lookup "_id" d with
  | Some i => keys_of i
  | None => []
  end.

(** The tree takes the key [k] for the key [held] of one of its nodes. *)
Definition same_key (held k : Json) : bool :=
  match compareThings held k with
  | Eq => true
  | _ => false
  end.

(** The index holds the document under the key [id]: what the query
    [{ _id: id }] matches, for [id] a string.  So a document whose [_id]
    is an array is matched by each string among its elements. *)
Definition has_id (id : string) (d : Obj) : bool :=
  existsb (fun held => same_key held (JStr id)) (index_keys d).

(** The keys of the index. *)
Definition held_keys (st : Store) : list Json := flat_map index_keys st.

(** Putting the keys [ks] into a tree that holds [held], one after the
    other: [false] when one of them is already there. *)
Fixpoint accepts (held ks : list Json) : bool :=
  match ks with
  | [] => true
  | k :: ks' =>
      negb (existsb (fun h => same_key h k) held) && accepts (k :: held) ks'
  end.

(** A document with the [_id] value [i] violates the unique constraint of
    the index. *)
Definition id_taken (i : Json) (st : Store) : bool :=
  negb (accepts (held_keys st) (keys_of i)).

(** The entries of the index, key and document, in the order of the keys:
    an entry goes in front of the first one with a greater key. *)
Fixpoint index_insert (e : Json * Obj) (idx : list (Json * Obj))
  : list (Json * Obj) :=
  match idx with
  | [] => [e]
  | e' :: r =>
      match compareThings (fst e) (fst e') with
      | Lt => e :: idx
      | _ => e' :: index_insert e r
      end
  end.

Definition entries (st : Store) : list (Json * Obj) :=
  flat_map (fun d => map (fun k => (k, d)) (index_keys d)) st.

Definition index (st : Store) : list (Json * Obj) :=
  fold_left (fun idx e => index_insert e idx) (entries st) [].

(** [getAllData()]: the documents in the order of the index, which is
    where a query that no index serves takes its candidates. *)
Definition getAllData (st : Store) : list Obj := map snd (index st).

(** [db.insert(doc)]: a document without [_id] gets the fresh one; the
    document is validated and the index must accept its keys.  [None]: it
    throws. *)
Definition insert (newid : string) (doc : Obj) (st : Store)
  : option (Store * Obj) :=
  let doc' := match lookup "_id" doc with
              | None => obj_set "_id" (JStr newid) doc
              | Some _ => doc
              end in
  match lookup "_id" doc' with
  | Some i =>
      if checkObject (JObj doc') && negb (id_taken i st)
      then Some (st ++ [doc'], doc')
      else None
  | None => None
  end.

(** [db.count({})]. *)
Definition count (st : Store) : nat := length (getAllData st).

(** [db.findOne({ _id: id })]; [None] is [null].  The index being unique,
    at most one document of a store that [insert] built is held under
    [id]. *)
Definition findOne (id : string) (st : Store) : option Obj :=
  find (has_id id) st.

(** [db.remove({ _id: id }, {})]: at most one document goes. *)
Fixpoint remove (id : string) (st : Store) : Store :=
  match st with
  | [] => []
  | d :: st' => if has_id id d then st' else d :: remove id st'
  end.

(** What [$set] does below the top level, for a dotted field name
    [a.b.c]: [set_inside old [b; c] v] is the new value of field [a]
    ([old] is the current one, or [{}] when there is none), or [None]
    when the assignment throws.  Kept abstract. *)
Definition SetInside := Json -> list string -> option Json -> option Json.

(** One field of a [$set]. *)
Definition set_field (inside : SetInside) (k : string) (v : option Json)
  (d : Obj) : option Obj :=
  match split_dot k with
  | [] => None
  | [_] => Some (obj_put k v d)
  | top :: rest =>
      let old := match lookup top d with
                 | Some x => x
                 | None => JObj []
                 end in
      match inside old rest v with
      | Some x => Some (obj_set top x d)
      | None => None
      end
  end.

(** All fields of a [$set], in key order. *)
Fixpoint set_fields (inside : SetInside) (fs : list (string * option Json))
  (d : Obj) : option Obj :=
  match fs with
  | [] => Some d
  | (k, v) :: fs' =>
      match set_field inside k v d with
      | Some d' => set_fields inside fs' d'
      | None => None
      end
  end.

(** [modify(doc, { $set: fs })]: the fields are set on a copy, the result
    is validated and must keep its [_id].  [None]: it throws. *)
Definition modify (inside : SetInside) (fs : list (string * option Json))
  (d : Obj) : option Obj :=
  match set_fields inside fs d with
  | Some d' =>
      if checkObject (JObj d') && strict_eq (lookup "_id" d) (lookup "_id" d')
      then Some d' else None
  | None => None
  end.

(** [db.update({ _id: id }, { $set: fs })]: the first matching document is
    modified; no match changes nothing.  [None]: it throws. *)
Fixpoint update (inside : SetInside) (id : string)
  (fs : list (string * option Json)) (st : Store) : option Store :=
  match st with
  | [] => Some []
  | d :: st' =>
      if has_id id d then
        match modify inside fs d with
        | Some d' => Some (d' :: st')
        | None => None
        end
      else
        match update inside id fs st' with
        | Some st'' => Some (d :: st'')
        | None => None
        end
  end.

(** ** Regular expressions

    The fragment of JavaScript patterns covered: pattern characters, [.],
    identity escapes, groups, alternation, the quantifiers [*], [+], [?]
    (greedy or lazy), and the assertions [^] and [$].  A pattern outside
    the fragment (character classes, braces, look-around, the other
    escapes) is reported as [Unsupported]. *)

Inductive Re : Type :=
| REmpty
| RChar (c : ascii)
| RAny
| RBol
| REol
| RSeq (a b : Re)
| RAlt (a b : Re)
| RStar (a : Re).

Inductive Parse (A : Type) : Type :=
| Parsed (x : A)
| SyntaxError
| Unsupported.
Arguments Parsed {A} x.
Arguments SyntaxError {A}.
Arguments Unsupported {A}.

(** The characters after a backslash that do not stand for themselves. *)
Definition escape_is_special (c : ascii) : bool :=
  existsb (Ascii.eqb c) (list_ascii_of_string "fnrtv0123456789dDsSwWbBxuck").

(** An optional quantifier after the atom [a].  [a+] is [aa*] and [a?] is
    [a|]; a lazy quantifier accepts the same strings. *)
Definition quantifier (a : Re) (s : string) : Parse (Re * string) :=
  let lazy r := match r with
                | String "?" r' => r'
                | _ => r
                end in
  match s with
  | String "*" r => Parsed (RStar a, lazy r)
  | String "+" r => Parsed (RSeq a (RStar a), lazy r)
  | String "?" r => Parsed (RAlt a REmpty, lazy r)
  | String "{" _ => Unsupported
  | _ => Parsed (a, s)
  end.

(** Disjunction, Alternative and Term of the pattern grammar, by
    recursive descent; [fuel] bounds the number of calls. *)
Fixpoint parse_disjunction (fuel : nat) (s : string) : Parse (Re * string) :=
  match fuel with
  | O => Unsupported
  | S f =>
      match parse_alternative f REmpty s with
      | Parsed (a, String "|" r) =>
          match parse_disjunction f r with
          | Parsed (b, rest) => Parsed (RAlt a b, rest)
          | e => e
          end
      | res => res
      end
  end
with parse_alternative (fuel : nat) (acc : Re) (s : string)
  : Parse (Re * string) :=
  match fuel with
  | O => Unsupported
  | S f =>
      match s with
      | EmptyString => Parsed (acc, s)
      | String "|" _ => Parsed (acc, s)
      | String ")" _ => Parsed (acc, s)
      | _ =>
          match parse_term f s with
          | Parsed (t, rest) => parse_alternative f (RSeq acc t) rest
          | e => e
          end
      end
  end
with parse_term (fuel : nat) (s : string) : Parse (Re * string) :=
  match fuel with
  | O => Unsupported
  | S f =>
      match s with
      | EmptyString => SyntaxError
      | String "^" r => Parsed (RBol, r)
      | String "$" r => Parsed (REol, r)
      | String "*" _ => SyntaxError
      | String "+" _ => SyntaxError
      | String "?" _ => SyntaxError
      | String "[" _ => Unsupported
      | String "{" _ => Unsupported
      | String "." r => quantifier RAny r
      | String "\" EmptyString => SyntaxError
      | String "\" (String c r) =>
          if escape_is_special c then Unsupported else quantifier (RChar c) r
      | String "(" r =>
          let body := match r with
                      | String "?" (String ":" r') => Some r'
                      | String "?" _ => None
                      | _ => Some r
                      end in
          match body with
          | None => Unsupported
          | Some b =>
              match parse_disjunction f b with
              | Parsed (d, String ")" rest) => quantifier d rest
              | Parsed _ => SyntaxError
              | e => e
              end
          end
      | String c r => quantifier (RChar c) r
      end
  end.

(** [new RegExp(p, 'i')]: the compiled pattern, or the reason there is
    none. *)
Definition RegExp (p : string) : Parse Re :=
  match parse_disjunction (4 * String.length p + 4) p with
  | Parsed (r, EmptyString) => Parsed r
  | Parsed _ => SyntaxError
  | SyntaxError => SyntaxError
  | Unsupported => Unsupported
  end.

(** Canonicalisation of a character under the [i] flag. *)
Definition canonicalize (c : ascii) : ascii := upper_char c.

Definition is_line_terminator (c : ascii) : bool :=
  Ascii.eqb c "010"%char || Ascii.eqb c "013"%char.

(** The backtracking matcher: [matcher r start s k] holds when [r] matches
    a prefix of [s] after which the continuation [k] succeeds; [start]
    says whether [s] begins at index 0 of the input.  An iteration of a
    star that consumes nothing is cut, as in the language definition. *)
Fixpoint matcher (r : Re) (start : bool) (s : string)
  (k : bool -> string -> bool) : bool :=
  match r with
  | REmpty => k start s
  | RChar c =>
      match s with
      | String d s' =>
          Ascii.eqb (canonicalize c) (canonicalize d) && k false s'
      | EmptyString => false
      end
  | RAny =>
      match s with
      | String d s' => negb (is_line_terminator d) && k false s'
      | EmptyString => false
      end
  | RBol => start && k start s
  | REol => match s with EmptyString => k start s | _ => false end
  | RSeq a b => matcher a start s (fun st s' => matcher b st s' k)
  | RAlt a b => matcher a start s k || matcher b start s k
  | RStar a =>
      (fix loop (n : nat) (st : bool) (s : string) : bool :=
         k st s
         || match n with
            | O => false
            | S n' =>
                matcher a st s
                  (fun st' s' =>
                     (String.length s' <? String.length s)%nat
                     && loop n' st' s')
            end) (String.length s) start s
  end.

(** [re.test(s)]: a match starting at some index of [s]. *)
Fixpoint search (r : Re) (start : bool) (s : string) : bool :=
  matcher r start s (fun _ _ => true)
  || match s with
     | EmptyString => false
     | String _ s' => search r false s'
     end.

Definition test (r : Re) (s : string) : bool := search r true s.

Definition is_space (c : ascii) : bool :=
  let n := nat_of_ascii c in
  ((9 <=? n)%nat && (n <=? 13)%nat) || (n =? 32)%nat.

Fixpoint trimStart (s : string) : string :=
  match s with
  | EmptyString => EmptyString
  | String c s' => if is_space c then trimStart s' else s
  end.

Fixpoint trimEnd (s : string) : string :=
  match s with
  | EmptyString => EmptyString
  | String c s' =>
      match trimEnd s' with
      | EmptyString => if is_space c then EmptyString else String c EmptyString
      | t => String c t
      end
  end.

(** [s.trim()]. *)
Definition trim (s : string) : string := trimEnd (trimStart s).

(** A query [{ field: re }] on one value: a string is tested, an array
    matches when one of its elements does, anything else does not. *)
Fixpoint regex_matches (r : Re) (v : Json) : bool :=
  match v with
  | JStr s => test r s
  | JArr l =>
      (fix any (l : list Json) : bool :=
         match l with
         | [] => false
         | x :: l' => regex_matches r x || any l'
         end) l
  | _ => false
  end.

(** [db.findOne({ trackingNumber: re })]: the first match in the order of
    the index. *)
Definition findOne_tracking (r : Re) (st : Store) : option Obj :=
  find (fun d => match lookup "trackingNumber" d with
                 | Some v => regex_matches r v
                 | None => false
                 end) (getAllData st).

(** ** The server *)

(** What a handler does with the response. *)
Inductive Outcome : Type :=
| Sent (status : nat) (body : Json)
| Rejected.

(** The libraries the server calls, kept abstract: token signing (payload,
    secret, [expiresIn], clock) and verification (token, secret, clock),
    password hashing (password, rounds, salt) and the nested part of
    [$set]. *)
Record Lib : Type := {
  jwt_sign : Json -> string -> string -> string -> string;
  jwt_verify : string -> string -> string -> bool;
  bcrypt_hash : string -> nat -> string -> string;
  set_inside : SetInside
}.

Definition error (code : string) : Json := JObj [("error", JStr code)].

Definition ok_true : Json := JObj [("ok", JBool true)].

(** A document or [null] as a response body. *)
Definition json_of (d : option Obj) : Json :=
  match d with
  | Some o => JObj o
  | None => JNull
  end.

Definition str (s : string) : option Json := Some (JStr s).

(** [trackingNumber()]: [stamp] is [Date.now().toString(36)] and [rnd] is
    [nanoid()]. *)
Definition trackingNumber (stamp rnd : string) : string :=
  "SC" ++ toUpperCase stamp ++ rnd.

Section Server.

Variable lib : Lib.

(** [process.env.JWT_SECRET]. *)
Variable env_JWT_SECRET : option string.

Definition JWT_SECRET : string :=
  match env_JWT_SECRET with
  | Some s => if String.eqb s "" then "dev_secret_change_me" else s
  | None => "dev_secret_change_me"
  end.

Definition signToken (user : Obj) (clock : string) : string :=
  jwt_sign lib
    (JObj (literal [("sub", lookup "_id" user);
                    ("email", lookup "email" user)] []))
    JWT_SECRET "7d" clock.

(** [authMiddleware]: [None] is [next()]. *)
Definition authMiddleware (authorization : option string) (clock : string)
  : option Outcome :=
  let hdr := match authorization with
             | Some h => h
             | None => ""
             end in
  let token := if startsWith "Bearer " hdr then slice 7 hdr else "" in
  if String.eqb token "" then Some (Sent 401 (error "missing_token"))
  else if jwt_verify lib token JWT_SECRET clock then None
       else Some (Sent 401 (error "invalid_token")).

(** A route behind [authMiddleware]. *)
Definition protected (authorization : option string) (clock : string)
  (st : Store) (handler : Store * Outcome) : Store * Outcome :=
  match authMiddleware authorization clock with
  | Some refused => (st, refused)
  | None => handler
  end.

(** *** POST /api/auth/register *)

Definition register (body : Obj) (now salt newid clock : string)
  (users : Store) : Store * Outcome :=
  let email := lookup "email" body in
  let password := lookup "password" body in
  if negb (truthy email) || negb (truthy password)
  then (users, Sent 400 (error "missing_fields"))
  else if (0 <? count users)%nat
  then (users, Sent 403 (error "registration_closed"))
  else
    match password, email with
    | Some (JStr pw), Some (JStr em) =>
        let hash := bcrypt_hash lib pw 10 salt in
        match insert newid
                (literal [("email", str (toLowerCase em));
                          ("password", str hash);
                          ("role", str "admin");
                          ("createdAt", str now)] []) users with
        | Some (users', user) =>
            (users',
             Sent 200
               (JObj [("token", JStr (signToken user clock));
                      ("user",
                       JObj (literal [("id", lookup "_id" user);
                                      ("email", lookup "email" user)] []))]))
        | None => (users, Rejected)
        end
    | _, _ => (users, Rejected)
    end.

(** *** GET /api/track/:trackingNumber

    [None]: the pattern built from the parameter is outside the fragment of
    regular expressions modelled here. *)
Definition track (param : string) (shipments : Store) : option Outcome :=
  let t := trim param in
  match RegExp ("^" ++ t ++ "$") with
  | Parsed re =>
      match findOne_tracking re shipments with
      | None => Some (Sent 404 (error "not_found"))
      | Some s => Some (Sent 200 (JObj s))
      end
  | SyntaxError => Some Rejected
  | Unsupported => None
  end.

(** *** POST /api/quotes *)

Definition quotes_create (body : Obj) (now newid : string) (quotes : Store)
  : Store * Outcome :=
  let q := body in
  match insert newid
          (obj_set "createdAt" (JStr now) (obj_set "status" (JStr "new") q))
          quotes with
  | Some (quotes', doc) => (quotes', Sent 201 (JObj doc))
  | None => (quotes, Rejected)
  end.

(** *** POST /api/shipments *)

Definition created_event (eid now : string) (body : Obj) : Obj :=
  literal [("id", str eid);
           ("time", str now);
           ("status", str "Created");
           ("location", js_or (lookup "origin" body) (str ""));
           ("note", str "Shipment created")] [].

Definition shipment_doc (body : Obj) (now tn eid : string) : Obj :=
  literal
    [("trackingNumber", str tn);
     ("customer", lookup "customer" body);
     ("email", js_or (lookup "email" body) (str ""));
     ("origin", lookup "origin" body);
     ("destination", lookup "destination" body);
     ("service", js_or (lookup "service" body) (str "Standard"));
     ("weight", js_or (lookup "weight" body) (str ""));
     ("status", js_or (lookup "status" body) (str "Created"));
     ("createdAt", str now);
     ("updatedAt", str now);
     ("events",
      if truthy (lookup "events" body) && isArray (lookup "events" body)
      then lookup "events" body
      else Some (JArr [JObj (created_event eid now body)]))] [].

Definition shipments_create_handler (body : Obj)
  (now stamp rnd eid newid : string) (shipments : Store) : Store * Outcome :=
  match insert newid (shipment_doc body now (trackingNumber stamp rnd) eid)
          shipments with
  | Some (shipments', doc) => (shipments', Sent 201 (JObj doc))
  | None => (shipments, Rejected)
  end.

Definition shipments_create (authorization : option string) (clock : string)
  (body : Obj) (now stamp rnd eid newid : string) (shipments : Store) :=
  protected authorization clock shipments
    (shipments_create_handler body now stamp rnd eid newid shipments).

(** *** PATCH /api/shipments/:id *)

Definition shipments_patch_handler (id : string) (body : Obj) (now : string)
  (shipments : Store) : Store * Outcome :=
  let patch := obj_set "updatedAt" (JStr now) body in
  match update (set_inside lib) id
          (map (fun kv => (fst kv, Some (snd kv))) patch) shipments with
  | Some shipments' =>
      (shipments', Sent 200 (json_of (findOne id shipments')))
  | None => (shipments, Rejected)
  end.

Definition shipments_patch (authorization : option string) (clock : string)
  (id : string) (body : Obj) (now : string) (shipments : Store) :=
  protected authorization clock shipments
    (shipments_patch_handler id body now shipments).

(** *** DELETE /api/shipments/:id *)

Definition shipments_delete_handler (id : string) (shipments : Store)
  : Store * Outcome :=
  (remove id shipments, Sent 200 ok_true).

Definition shipments_delete (authorization : option string) (clock : string)
  (id : string) (shipments : Store) :=
  protected authorization clock shipments
    (shipments_delete_handler id shipments).

(** *** POST /api/shipments/:id/events *)

Definition new_event (body : Obj) (eid time_now : string) : Obj :=
  literal [("id", str eid);
           ("time", js_or (lookup "time" body) (str time_now));
           ("status", js_or (lookup "status" body) (str "In Transit"));
           ("location", js_or (lookup "location" body) (str ""));
           ("note", js_or (lookup "note" body) (str ""))] [].

(** [Array.isArray(s.events) ? s.events : []]. *)
Definition ledger (s : Obj) : list Json :=
  match lookup "events" s with
  | Some (JArr l) => l
  | _ => []
  end.

Definition events_post_handler (id : string) (body : Obj)
  (eid time_now now : string) (shipments : Store) : Store * Outcome :=
  let event := JObj (new_event body eid time_now) in
  match findOne id shipments with
  | None => (shipments, Sent 404 (error "not_found"))
  | Some s =>
      let events := event :: ledger s in
      match update (set_inside lib) id
              [("events", Some (JArr events));
               ("updatedAt", str now);
               ("status", js_or (lookup "status" body) (lookup "status" s))]
              shipments with
      | Some shipments' =>
          (shipments', Sent 201 (json_of (findOne id shipments')))
      | None => (shipments, Rejected)
      end
  end.

Definition events_post (authorization : option string) (clock : string)
  (id : string) (body : Obj) (eid time_now now : string) (shipments : Store) :=
  protected authorization clock shipments
    (events_post_handler id body eid time_now now shipments).

(** *** DELETE /api/shipments/:id/events/:eventId *)

(** [ev.id !== eventId]; [None]: reading [id] of [null] throws. *)
Definition keeps (eventId : string) (ev : Json) : option bool :=
  match ev with
  | JNull => None
  | JObj o => Some (negb (strict_eq (lookup "id" o) (Some (JStr eventId))))
  | _ => Some true
  end.

(** [l.filter(ev => ev.id !== eventId)]. *)
Fixpoint filter_events (eventId : string) (l : list Json)
  : option (list Json) :=
  match l with
  | [] => Some []
  | ev :: l' =>
      match keeps eventId ev with
      | None => None
      | Some b =>
          match filter_events eventId l' with
          | None => None
          | Some r => Some (if b then ev :: r else r)
          end
      end
  end.

Definition events_delete_handler (id eventId now : string)
  (shipments : Store) : Store * Outcome :=
  match findOne id shipments with
  | None => (shipments, Sent 404 (error "not_found"))
  | Some s =>
      match js_or (lookup "events" s) (Some (JArr [])) with
      | Some (JArr l) =>
          match filter_events eventId l with
          | Some events =>
              match update (set_inside lib) id
                      [("events", Some (JArr events)); ("updatedAt", str now)]
                      shipments with
              | Some shipments' =>
                  (shipments', Sent 200 (json_of (findOne id shipments')))
              | None => (shipments, Rejected)
              end
          | None => (shipments, Rejected)
          end
      | _ => (shipments, Rejected)
      end
  end.

Definition events_delete (authorization : option string) (clock : string)
  (id eventId now : string) (shipments : Store) :=
  protected authorization clock shipments
    (events_delete_handler id eventId now shipments).

End Server.

(** ** The other routes *)

(** The comparison the server leaves to its password library, kept
    abstract: [bcrypt.compare] (password, hash). *)
Record Comparisons : Type := {
  bcrypt_compare : string -> string -> bool
}.

(** A query [{ field: x }] for a string [x] on one value: a string must
    be [x], an array matches when one of its elements does. *)
Fixpoint value_is (x : string) (v : Json) : bool :=
  match v with
  | JStr s => String.eqb s x
  | JArr l =>
      (fix any (l : list Json) : bool :=
         match l with
         | [] => false
         | y :: l' => value_is x y || any l'
         end) l
  | _ => false
  end.

(** [db.findOne({ email: x })]: the first match in the order of the
    index. *)
Definition findOne_email (x : string) (st : Store) : option Obj :=
  find (fun d => match lookup "email" d with
                 | Some v => value_is x v
                 | None => false
                 end) (getAllData st).

(** The alphabet of [nanoid], line 9. *)
Definition alphabet : string := "ABCDEFGHJKLMNPQRSTUVWXYZ23456789".

Section OtherRoutes.

Variable lib : Lib.
Variable env_JWT_SECRET : option string.
Variable cmps : Comparisons.

(** *** The seeding at start-up

    The values drawn, in the order of the source: the clock, then for the
    first shipment its tracking number and two event ids, for the second
    its tracking number and one event id; [id1] and [id2] are the fresh
    [_id]s.  An array is inserted as a whole or not at all. *)
Definition seed (now stamp1 rnd1 e1 e2 stamp2 rnd2 e3 id1 id2 : string)
  (shipments : Store) : Store :=
  if (count shipments =? 0)%nat then
    match insert id1
            [("trackingNumber", JStr (trackingNumber stamp1 rnd1));
             ("customer", JStr "Acme Corp");
             ("email", JStr "ops@acme.com");
             ("origin", JStr "Los Angeles");
             ("destination", JStr "Tokyo");
             ("service", JStr "Air");
             ("weight", JStr "250");
             ("status", JStr "In Transit");
             ("createdAt", JStr now);
             ("updatedAt", JStr now);
             ("events",
              JArr [JObj [("id", JStr e1); ("time", JStr now);
                          ("status", JStr "Created");
                          ("location", JStr "Los Angeles, US");
                          ("note", JStr "Shipment created")];
                    JObj [("id", JStr e2); ("time", JStr now);
                          ("status", JStr "In Transit");
                          ("location", JStr "Honolulu, US");
                          ("note", JStr "Departed via air")]])]
            shipments with
    | Some (shipments1, _) =>
        match insert id2
                [("trackingNumber", JStr (trackingNumber stamp2 rnd2));
                 ("customer", JStr "Beta LLC");
                 ("email", JStr "logistics@beta.com");
                 ("origin", JStr "Hamburg");
                 ("destination", JStr "New York");
                 ("service", JStr "Ocean");
                 ("weight", JStr "1200");
                 ("status", JStr "Created");
                 ("createdAt", JStr now);
                 ("updatedAt", JStr now);
                 ("events",
                  JArr [JObj [("id", JStr e3); ("time", JStr now);
                              ("status", JStr "Created");
                              ("location", JStr "Hamburg, DE");
                              ("note", JStr "Booking confirmed")]])]
                shipments1 with
        | Some (shipments2, _) => shipments2
        | None => shipments
        end
    | None => shipments
    end
  else shipments.

(** *** POST /api/auth/login *)

Definition login (body : Obj) (clock : string) (users : Store) : Outcome :=
  let email := lookup "email" body in
  let password := lookup "password" body in
  if negb (truthy email) || negb (truthy password)
  then Sent 400 (error "missing_fields")
  else
    match email with
    | Some (JStr em) =>
        match findOne_email (toLowerCase em) users with
        | None => Sent 401 (error "invalid_credentials")
        | Some user =>
            match password, lookup "password" user with
            | Some (JStr pw), Some (JStr hash) =>
                if bcrypt_compare cmps pw hash
                then Sent 200
                       (JObj [("token",
                               JStr (signToken lib env_JWT_SECRET user clock));
                              ("user",
                               JObj (literal
                                       [("id", lookup "_id" user);
                                        ("email", lookup "email" user)] []))])
                else Sent 401 (error "invalid_credentials")
            | _, _ => Rejected
            end
        end
    | _ => Rejected
    end.

(** *** GET /api/quotes and GET /api/shipments

    Both handlers call [cfind] on the datastore.  A datastore of
    [nedb-promises] has no such method ([find] is the one that returns a
    cursor to sort), so the call throws a [TypeError] before anything is
    read: no listing is made and no reply is sent. *)

Definition list_handler (st : Store) : Store * Outcome := (st, Rejected).

Definition quotes_list (authorization : option string) (clock : string)
  (quotes : Store) : Store * Outcome :=
  protected lib env_JWT_SECRET authorization clock quotes
    (list_handler quotes).

Definition shipments_list (authorization : option string) (clock : string)
  (shipments : Store) : Store * Outcome :=
  protected lib env_JWT_SECRET authorization clock shipments
    (list_handler shipments).

(** *** PATCH /api/quotes/:id *)

Definition quotes_patch_handler (id : string) (body : Obj) (quotes : Store)
  : Store * Outcome :=
  let patch := body in
  match update (set_inside lib) id
          (map (fun kv => (fst kv, Some (snd kv))) patch) quotes with
  | Some quotes' => (quotes', Sent 200 (json_of (findOne id quotes')))
  | None => (quotes, Rejected)
  end.

Definition quotes_patch (authorization : option string) (clock : string)
  (id : string) (body : Obj) (quotes : Store) : Store * Outcome :=
  protected lib env_JWT_SECRET authorization clock quotes
    (quotes_patch_handler id body quotes).

(** *** DELETE /api/quotes/:id *)

Definition quotes_delete_handler (id : string) (quotes : Store)
  : Store * Outcome :=
  (remove id quotes, Sent 200 ok_true).

Definition quotes_delete (authorization : option string) (clock : string)
  (id : string) (quotes : Store) : Store * Outcome :=
  protected lib env_JWT_SECRET authorization clock quotes
    (quotes_delete_handler id quotes).

(** *** GET /api/health *)

Definition health : Outcome := Sent 200 ok_true.

End OtherRoutes.

(** A sample instance of the libraries, for the concrete runs below: the
    only token that verifies is [good]. *)
Definition sample_lib : Lib := {|
  jwt_sign := fun _ secret _ clock => ("jwt." ++ secret ++ "." ++ clock)%string;
  jwt_verify := fun token _ _ => String.eqb token "good";
  bcrypt_hash := fun pw _ salt => ("$2a$10$" ++ salt ++ pw)%string;
  set_inside := fun _ _ _ => None
|}.

(** The authorization header that [sample_lib] accepts. *)
Definition bearer : option string := Some "Bearer good".

(** * Notions used by the properties *)

(** The strings among the keys of a document: the identifiers by which
    the routes, whose [:id] is a string, can reach it. *)
Definition strings_among (ks : list Json) : list string :=
  flat_map (fun k => match k with JStr s => [s] | _ => [] end) ks.

Definition string_keys (d : Obj) : list string :=
  strings_among (index_keys d).

(** A datastore keeps one document per identifier: no string is a key of
    two documents. *)
Definition unique_ids (st : Store) : Prop :=
  NoDup (flat_map string_keys st).

(** The [_id] of the document is a string, as the datastore draws it for
    a document inserted without one. *)
Definition drawn_id (d : Obj) : Prop :=
  exists i, lookup "_id" d = Some (JStr i).

(** One document per identifier, each one accepted by the datastore. *)
Definition store_ok (st : Store) : Prop :=
  unique_ids st /\ Forall (fun d => checkObject (JObj d) = true) st.

(** The shipment that POST /api/shipments/:id/events writes back. *)
Definition appended (s body : Obj) (eid time_now now : string) : Obj :=
  obj_put "status" (js_or (lookup "status" body) (lookup "status" s))
    (obj_set "updatedAt" (JStr now)
       (obj_set "events"
          (JArr (JObj (new_event body eid time_now) :: ledger s)) s)).

(** The event carries the identifier [eventId]. *)
Definition event_has_id (eventId : string) (ev : Json) : bool :=
  match ev with
  | JObj o => strict_eq (lookup "id" o) (Some (JStr eventId))
  | _ => false
  end.

(** The shipment that DELETE /api/shipments/:id/events/:eventId writes
    back. *)
Definition pruned (s : Obj) (events : list Json) (now : string) : Obj :=
  obj_set "updatedAt" (JStr now) (obj_set "events" (JArr events) s).

(** The top-level field that a [$set] of field name [k] assigns. *)
Definition top_field (k : string) : string :=
  match split_dot k with
  | t :: _ => t
  | [] => k
  end.

(** The body names [trackingNumber], directly or by a dotted path. *)
Definition names_tracking (body : Obj) : bool :=
  existsb (fun kv => String.eqb "trackingNumber" (top_field (fst kv))) body.

(** The requests that mutate a stored shipment. *)
Inductive Mutation : Type :=
| Patch (auth : option string) (clock id : string) (body : Obj) (now : string)
| AppendEvent (auth : option string) (clock id : string) (body : Obj)
    (eid time_now now : string)
| RemoveEvent (auth : option string) (clock id eventId now : string).

(** The request does not name [trackingNumber]: only a patch can. *)
Definition keeps_tracking (m : Mutation) : bool :=
  match m with
  | Patch _ _ _ body _ => negb (names_tracking body)
  | _ => true
  end.

(** The store after the request is served. *)
Definition mutate (lib : Lib) (env : option string) (m : Mutation)
  (st : Store) : Store :=
  match m with
  | Patch auth clock id body now =>
      fst (shipments_patch lib env auth clock id body now st)
  | AppendEvent auth clock id body eid time_now now =>
      fst (events_post lib env auth clock id body eid time_now now st)
  | RemoveEvent auth clock id eventId now =>
      fst (events_delete lib env auth clock id eventId now st)
  end.

(** The store after a sequence of requests. *)
Definition run (lib : Lib) (env : option string) (ms : list Mutation)
  (st : Store) : Store :=
  fold_left (fun st m => mutate lib env m st) ms st.

(** What identifies a shipment: its [_id] and its tracking number. *)
Definition ident (d : Obj) : option Json * option Json :=
  (lookup "_id" d, lookup "trackingNumber" d).

(** No field of the [$set] assigns the top-level field [t]. *)
Definition avoids (t : string) (fs : list (string * option Json)) : bool :=
  forallb (fun kv => negb (String.eqb t (top_field (fst kv)))) fs.

(** The requests on the shipment store. *)
Inductive Request : Type :=
| Create (auth : option string) (clock : string) (body : Obj)
    (now stamp rnd eid newid : string)
| Delete (auth : option string) (clock id : string)
| Mutate (m : Mutation).

(** The store after the request is served. *)
Definition serve (lib : Lib) (env : option string) (r : Request)
  (st : Store) : Store :=
  match r with
  | Create auth clock body now stamp rnd eid newid =>
      fst (shipments_create lib env auth clock body now stamp rnd eid newid st)
  | Delete auth clock id => fst (shipments_delete lib env auth clock id st)
  | Mutate m => mutate lib env m st
  end.

(** One call of POST /api/auth/register: the body and the values drawn
    while it is served. *)
Record RegisterCall : Type := {
  reg_body : Obj;
  reg_now : string;
  reg_salt : string;
  reg_newid : string;
  reg_clock : string
}.


(** Serving one call. *)
Definition serve_register (lib : Lib) (env : option string)
  (c : RegisterCall) (users : Store) : Store * Outcome :=
  register lib env (reg_body c) (reg_now c) (reg_salt c) (reg_newid c)
    (reg_clock c) users.


(** Equality of two strings up to the case of their letters. *)
Definition same_ignoring_case (a b : string) : bool :=
  String.eqb (toUpperCase a) (toUpperCase b).

(** The character is a decimal digit. *)
Definition is_digit (c : ascii) : bool :=
  (48 <=? nat_of_ascii c)%nat && (nat_of_ascii c <=? 57)%nat.

(** A letter or a digit: a character that no pattern gives a meaning. *)
Definition plain_char (c : ascii) : bool :=
  is_upper c || is_lower c || is_digit c.

(** Every character is a letter or a digit. *)
Fixpoint plain (s : string) : bool :=
  match s with
  | EmptyString => true
  | String c s' => plain_char c && plain s'
  end.

(** The pattern of a literal: its characters in sequence after [acc]. *)
Fixpoint chars (t : string) (acc : Re) : Re :=
  match t with
  | EmptyString => acc
  | String c t' => chars t' (RSeq acc (RChar c))
  end.

(** Consuming the literal [t], up to case, at the front of [s]. *)
Fixpoint match_literal (t : string) (st : bool) (s : string)
  (k : bool -> string -> bool) : bool :=
  match t with
  | EmptyString => k st s
  | String c t' =>
      match s with
      | String d s' =>
          Ascii.eqb (canonicalize c) (canonicalize d)
          && match_literal t' false s' k
      | EmptyString => false
      end
  end.

(** The value is the string [t] up to case, or an array with such an
    element. *)
Fixpoint equals_ignoring_case (t : string) (v : Json) : bool :=
  match v with
  | JStr s => same_ignoring_case t s
  | JArr l =>
      (fix any (l : list Json) : bool :=
         match l with
         | [] => false
         | x :: l' => equals_ignoring_case t x || any l'
         end) l
  | _ => false
  end.

(** Two instants, as [toISOString()] prints them. *)
Definition t0 : string := "2024-05-01T10:00:00.000Z".
Definition t1 : string := "2024-05-02T08:30:00.000Z".

(** A shipment as POST /api/shipments stores it for the body
    [{customer:"X", origin:"LA", destination:"NYC"}]. *)
Definition acme : Obj :=
  [("trackingNumber", JStr "SC1ABCDEF234");
   ("customer", JStr "X");
   ("email", JStr "");
   ("origin", JStr "LA");
   ("destination", JStr "NYC");
   ("service", JStr "Standard");
   ("weight", JStr "");
   ("status", JStr "Created");
   ("createdAt", JStr t0);
   ("updatedAt", JStr t0);
   ("events",
    JArr [JObj [("id", JStr "EV11111111"); ("time", JStr t0);
                ("status", JStr "Created"); ("location", JStr "LA");
                ("note", JStr "Shipment created")]]);
   ("_id", JStr "s1")].

(** A second shipment. *)
Definition beta : Obj :=
  [("trackingNumber", JStr "SC1ZZZZZZ999");
   ("customer", JStr "Beta LLC");
   ("email", JStr "");
   ("origin", JStr "Hamburg");
   ("destination", JStr "New York");
   ("service", JStr "Ocean");
   ("weight", JStr "1200");
   ("status", JStr "Created");
   ("createdAt", JStr t0);
   ("updatedAt", JStr t0);
   ("events",
    JArr [JObj [("id", JStr "EV22222222"); ("time", JStr t0);
                ("status", JStr "Created"); ("location", JStr "Hamburg");
                ("note", JStr "Shipment created")]]);
   ("_id", JStr "s2")].

(** The quote that POST /api/quotes stores for a body with the [_id]
    [["a", "b"]]. *)
Definition ann : Obj :=
  [("name", JStr "Ann"); ("_id", JArr [JStr "a"; JStr "b"]);
   ("status", JStr "new"); ("createdAt", JStr t0)].

(** The three datastores of the server. *)
Record Db : Type := {
  users : Store;
  shipments : Store;
  quotes : Store
}.

(** A request on any route, with the values drawn while it is served. *)
Inductive Api : Type :=
| PostRegister (c : RegisterCall)
| PostLogin (body : Obj) (clock : string)
| GetTrack (param : string)
| PostQuote (body : Obj) (now newid : string)
| GetQuotes (auth : option string) (clock : string)
| PatchQuote (auth : option string) (clock id : string) (body : Obj)
| DeleteQuote (auth : option string) (clock id : string)
| GetShipments (auth : option string) (clock : string)
| OnShipments (r : Request)
| GetHealth.

(** The store and the reply of a request on the shipment store. *)
Definition answer (lib : Lib) (env : option string) (r : Request)
  (st : Store) : Store * Outcome :=
  match r with
  | Create auth clock body now stamp rnd eid newid =>
      shipments_create lib env auth clock body now stamp rnd eid newid st
  | Delete auth clock id => shipments_delete lib env auth clock id st
  | Mutate (Patch auth clock id body now) =>
      shipments_patch lib env auth clock id body now st
  | Mutate (AppendEvent auth clock id body eid time_now now) =>
      events_post lib env auth clock id body eid time_now now st
  | Mutate (RemoveEvent auth clock id eventId now) =>
      events_delete lib env auth clock id eventId now st
  end.

(** The routing: the stores after the request and the reply ([None] for a
    tracking lookup outside the fragment of patterns modelled). *)
Definition handle (lib : Lib) (env : option string) (cmps : Comparisons)
  (a : Api) (db : Db) : Db * option Outcome :=
  match a with
  | PostRegister c =>
      let (u, r) := serve_register lib env c (users db) in
      ({| users := u; shipments := shipments db; quotes := quotes db |},
       Some r)
  | PostLogin body clock => (db, Some (login lib env cmps body clock (users db)))
  | GetTrack param => (db, track param (shipments db))
  | PostQuote body now newid =>
      let (q, r) := quotes_create body now newid (quotes db) in
      ({| users := users db; shipments := shipments db; quotes := q |},
       Some r)
  | GetQuotes auth clock =>
      let (q, r) := quotes_list lib env auth clock (quotes db) in
      ({| users := users db; shipments := shipments db; quotes := q |},
       Some r)
  | PatchQuote auth clock id body =>
      let (q, r) := quotes_patch lib env auth clock id body (quotes db) in
      ({| users := users db; shipments := shipments db; quotes := q |},
       Some r)
  | DeleteQuote auth clock id =>
      let (q, r) := quotes_delete lib env auth clock id (quotes db) in
      ({| users := users db; shipments := shipments db; quotes := q |},
       Some r)
  | GetShipments auth clock =>
      let (s, r) := shipments_list lib env auth clock (shipments db) in
      ({| users := users db; shipments := s; quotes := quotes db |}, Some r)
  | OnShipments r =>
      let (s, o) := answer lib env r (shipments db) in
      ({| users := users db; shipments := s; quotes := quotes db |}, Some o)
  | GetHealth => (db, Some health)
  end.

(** The stores after a sequence of requests. *)
Definition handle_all (lib : Lib) (env : option string) (cmps : Comparisons)
  (reqs : list Api) (db : Db) : Db :=
  fold_left (fun db a => fst (handle lib env cmps a db)) reqs db.

(** The authorization header and clock of a request on a route behind
    [authMiddleware]; [None] for the public routes. *)
Definition api_auth (a : Api) : option (option string * string) :=
  match a with
  | GetQuotes auth clock => Some (auth, clock)
  | PatchQuote auth clock _ _ => Some (auth, clock)
  | DeleteQuote auth clock _ => Some (auth, clock)
  | GetShipments auth clock => Some (auth, clock)
  | OnShipments (Create auth clock _ _ _ _ _ _) => Some (auth, clock)
  | OnShipments (Delete auth clock _) => Some (auth, clock)
  | OnShipments (Mutate (Patch auth clock _ _ _)) => Some (auth, clock)
  | OnShipments (Mutate (AppendEvent auth clock _ _ _ _ _)) =>
      Some (auth, clock)
  | OnShipments (Mutate (RemoveEvent auth clock _ _ _)) => Some (auth, clock)
  | _ => None
  end.

(** The routes that write to the credential store, to the shipment store
    and to the quote store. *)
Definition writes_users (a : Api) : bool :=
  match a with
  | PostRegister _ => true
  | _ => false
  end.

Definition writes_shipments (a : Api) : bool :=
  match a with
  | OnShipments _ => true
  | _ => false
  end.

Definition writes_quotes (a : Api) : bool :=
  match a with
  | PostQuote _ _ _ => true
  | PatchQuote _ _ _ _ => true
  | DeleteQuote _ _ _ => true
  | _ => false
  end.

(** The character is a digit of base 36, as [toString(36)] prints them. *)
Definition base36_char (c : ascii) : bool := is_digit c || is_lower c.

(** What [Date.now().toString(36)] can be: digits of base 36. *)
Fixpoint base36 (s : string) : bool :=
  match s with
  | EmptyString => true
  | String c s' => base36_char c && base36 s'
  end.

(** The character belongs to the alphabet of [nanoid]. *)
Definition in_alphabet (c : ascii) : bool :=
  existsb (Ascii.eqb c) (list_ascii_of_string alphabet).

Fixpoint over_alphabet (s : string) : bool :=
  match s with
  | EmptyString => true
  | String c s' => in_alphabet c && over_alphabet s'
  end.

(** What [nanoid()] can be: ten characters of the alphabet. *)
Definition nanoid_ok (s : string) : bool :=
  (String.length s =? 10)%nat && over_alphabet s.

(** The shipment's tracking number is [t] up to case. *)
Definition tracked_as (t : string) (d : Obj) : bool :=
  match lookup "trackingNumber" d with
  | Some v => equals_ignoring_case t v
  | None => false
  end.

(** The shipment a mutation is addressed to. *)
Definition target (m : Mutation) : string :=
  match m with
  | Patch _ _ id _ _ => id
  | AppendEvent _ _ id _ _ _ _ => id
  | RemoveEvent _ _ id _ _ => id
  end.

(** The documents of a store that do not carry [id], in their places. *)
Definition others (id : string) (st : Store) : list (option Obj) :=
  map (fun d => if has_id id d then None else Some d) st.

(** Assigning the fields of a flat patch one after the other. *)
Definition put_all (fs : Obj) (d : Obj) : Obj :=
  fold_left (fun d kv => obj_set (fst kv) (snd kv) d) fs d.

(** A patch is flat when no field name has a dot and none occurs twice. *)
Definition flat (body : Obj) : Prop :=
  Forall (fun kv => has_dot (fst kv) = false) body /\ NoDup (map fst body).

(** The fields that every shipment is created with. *)
Definition core_fields : list string :=
  ["_id"; "trackingNumber"; "status"; "events"; "createdAt"; "updatedAt"].

(** The document has every field of [ks]. *)
Definition has_fields (ks : list string) (d : Obj) : Prop :=
  forall k, In k ks -> lookup k d <> None.

(** A sample instance of the comparison, for the concrete runs: a hash
    of [sample_lib] compares true with the password it ends with. *)
Definition sample_cmps : Comparisons := {|
  bcrypt_compare := fun pw hash =>
    String.eqb (slice (String.length hash - String.length pw) hash) pw
|}.

(** A sample state of the three stores. *)
Definition sample_db : Db :=
  {| users := []; shipments := [acme; beta]; quotes := [] |}.

(** A registration and the credential it stores under [sample_lib]. *)
Definition sample_registration : Obj :=
  [("email", JStr "Admin@Ship.co"); ("password", JStr "secret1")].

Definition sample_admin : Obj :=
  [("email", JStr "admin@ship.co");
   ("password", JStr "$2a$10$saltsecret1");
   ("role", JStr "admin");
   ("createdAt", JStr t0);
   ("_id", JStr "u1")].

(** * Properties *)

(** ** Objects *)

Lemma lookup_obj_set_eq k v o : lookup k (obj_set k v o) = Some v.
Proof.
  induction o as [|[k' v'] o IH]; simpl.
  - now rewrite String.eqb_refl.
  - destruct (String.eqb k k') eqn:E; simpl.
    + now rewrite String.eqb_refl.
    + now rewrite E.
Qed.

Lemma lookup_obj_set_neq k k' v o :
  String.eqb k' k = false -> lookup k' (obj_set k v o) = lookup k' o.
Proof.
  intros N. induction o as [|[k0 v0] o IH]; simpl.
  - now rewrite N.
  - destruct (String.eqb k k0) eqn:E; simpl.
    + apply String.eqb_eq in E. subst k0. now rewrite N.
    + now rewrite IH.
Qed.

Lemma lookup_obj_del_eq k o : lookup k (obj_del k o) = None.
Proof.
  induction o as [|[k' v'] o IH]; simpl; auto.
  destruct (String.eqb k k') eqn:E; simpl; auto. now rewrite E.
Qed.

Lemma lookup_obj_del_neq k k' o :
  String.eqb k' k = false -> lookup k' (obj_del k o) = lookup k' o.
Proof.
  intros N. induction o as [|[k0 v0] o IH]; simpl; auto.
  destruct (String.eqb k k0) eqn:E; simpl.
  - apply String.eqb_eq in E. subst k0. now rewrite N.
  - now rewrite IH.
Qed.

Lemma lookup_obj_put_eq k v o : lookup k (obj_put k v o) = v.
Proof.
  destruct v; simpl; [apply lookup_obj_set_eq | apply lookup_obj_del_eq].
Qed.

Lemma lookup_obj_put_neq k k' v o :
  String.eqb k' k = false -> lookup k' (obj_put k v o) = lookup k' o.
Proof.
  destruct v; simpl; [apply lookup_obj_set_neq | apply lookup_obj_del_neq].
Qed.

(** Normalising a lookup through a chain of assignments to named keys. *)
Ltac lookups :=
  repeat (rewrite lookup_obj_put_eq
          || rewrite lookup_obj_set_eq
          || (rewrite lookup_obj_put_neq by reflexivity)
          || (rewrite lookup_obj_set_neq by reflexivity)).

Lemma strict_eq_eq a b : strict_eq a b = true -> a = b.
Proof.
  destruct a as [[| | | | |]|], b as [[| | | | |]|]; simpl;
    try discriminate; auto; intros H.
  - apply Bool.eqb_prop in H. now subst.
  - apply Z.eqb_eq in H. now subst.
  - apply String.eqb_eq in H. now subst.
Qed.

(** ** Validation *)

Lemma checkKey_plain k v :
  startsWith "$" k = false -> has_dot k = false -> checkKey k v = true.
Proof. unfold checkKey. intros -> ->. reflexivity. Qed.

Lemma checkObject_cons k v o :
  checkObject (JObj ((k, v) :: o))
  = checkKey k v && checkObject v && checkObject (JObj o).
Proof. reflexivity. Qed.

Lemma checkObject_arr_cons x l :
  checkObject (JArr (x :: l)) = checkObject x && checkObject (JArr l).
Proof. reflexivity. Qed.

Lemma checkObject_lookup k v o :
  checkObject (JObj o) = true -> lookup k o = Some v -> checkObject v = true.
Proof.
  induction o as [|[k' v'] o IH]; simpl lookup; [discriminate|].
  rewrite checkObject_cons. intros H L.
  apply andb_true_iff in H as [H Ho]. apply andb_true_iff in H as [_ Hv].
  destruct (String.eqb k k'); [injection L as <-; auto | auto].
Qed.

Lemma checkObject_obj_set k v o :
  checkKey k v = true -> checkObject v = true ->
  checkObject (JObj o) = true -> checkObject (JObj (obj_set k v o)) = true.
Proof.
  intros Hk Hv. induction o as [|[k' v'] o IH]; simpl obj_set.
  - intros _. rewrite checkObject_cons, Hk, Hv. reflexivity.
  - rewrite checkObject_cons. intros H.
    apply andb_true_iff in H as [H Ho].
    destruct (String.eqb k k'); rewrite checkObject_cons.
    + now rewrite Hk, Hv, Ho.
    + now rewrite H, IH.
Qed.

Lemma checkObject_obj_del k o :
  checkObject (JObj o) = true -> checkObject (JObj (obj_del k o)) = true.
Proof.
  induction o as [|[k' v'] o IH]; simpl obj_del; auto.
  rewrite checkObject_cons. intros H.
  apply andb_true_iff in H as [H Ho].
  destruct (String.eqb k k'); auto.
  rewrite checkObject_cons. now rewrite H, IH.
Qed.

Lemma checkObject_obj_put k v o :
  startsWith "$" k = false -> has_dot k = false ->
  match v with Some j => checkObject j = true | None => True end ->
  checkObject (JObj o) = true -> checkObject (JObj (obj_put k v o)) = true.
Proof.
  intros K1 K2 Hv Ho. destruct v; simpl.
  - apply checkObject_obj_set; auto using checkKey_plain.
  - now apply checkObject_obj_del.
Qed.

Lemma checkObject_js_or a b :
  match a with Some j => checkObject j = true | None => True end ->
  match b with Some j => checkObject j = true | None => True end ->
  match js_or a b with Some j => checkObject j = true | None => True end.
Proof. unfold js_or. destruct (truthy a); auto. Qed.

Lemma checkObject_field k o :
  checkObject (JObj o) = true ->
  match lookup k o with Some j => checkObject j = true | None => True end.
Proof.
  intros H. destruct (lookup k o) eqn:E; auto.
  eapply checkObject_lookup; eauto.
Qed.

(** ** The datastore *)

Lemma string_compare_refl s : String.compare s s = Eq.
Proof.
  induction s as [|c s IH]; simpl; auto.
  unfold Ascii.compare. now rewrite N.compare_refl.
Qed.

(** A string is the same key as itself and as nothing else. *)
Lemma same_key_string held id :
  same_key held (JStr id) = true <-> held = JStr id.
Proof.
  unfold same_key, compareThings.
  destruct held as [|b|n|s|l|o]; simpl; split; try discriminate.
  - destruct (String.compare s id) eqn:E; try discriminate.
    apply String.compare_eq_iff in E. now subst.
  - intros [= ->]. now rewrite string_compare_refl.
Qed.

Lemma existsb_key ks id :
  existsb (fun held => same_key held (JStr id)) ks = true
  <-> In id (strings_among ks).
Proof.
  unfold strings_among. induction ks as [|k ks IH]; simpl.
  - split; [discriminate | tauto].
  - rewrite orb_true_iff, in_app_iff, IH, same_key_string.
    split; intros [H|H]; auto; left.
    + subst k. simpl. auto.
    + destruct k; simpl in H; try tauto. destruct H as [->|[]]. reflexivity.
Qed.

Lemma has_id_iff id d : has_id id d = true <-> In id (string_keys d).
Proof. apply existsb_key. Qed.

Lemma has_id_same id d d' :
  lookup "_id" d' = lookup "_id" d -> has_id id d' = has_id id d.
Proof. unfold has_id, index_keys. now intros ->. Qed.

Lemma has_id_drawn id d : lookup "_id" d = Some (JStr id) -> has_id id d = true.
Proof.
  intros L. apply has_id_iff. unfold string_keys, index_keys. rewrite L.
  simpl. auto.
Qed.

(** The document that a string finds has it for [_id], or has an array. *)
Lemma has_id_cases id d :
  has_id id d = true ->
  lookup "_id" d = Some (JStr id) \/ exists l, lookup "_id" d = Some (JArr l).
Proof.
  unfold has_id, index_keys.
  destruct (lookup "_id" d) as [[|b|n|s|l|o]|]; simpl; try discriminate;
    try (right; eexists; reflexivity);
    rewrite orb_false_r, same_key_string; try discriminate.
  intros [= ->]. now left.
Qed.

Lemma json_eqb_string s y : json_eqb (JStr s) y = true <-> y = JStr s.
Proof.
  destruct y; simpl; split; try discriminate.
  - intros E. apply String.eqb_eq in E. now subst.
  - intros [= ->]. apply String.eqb_refl.
Qed.

Lemma existsb_json_string s seen :
  existsb (json_eqb (JStr s)) seen = true <-> In (JStr s) seen.
Proof.
  rewrite existsb_exists. split.
  - intros (y & I & E). apply json_eqb_string in E. now subst.
  - intros I. exists (JStr s). split; auto. now apply json_eqb_string.
Qed.

(** [uniq] keeps the strings that were not seen before. *)
Lemma uniq_string s l : forall seen,
  In (JStr s) (uniq seen l) <-> In (JStr s) l /\ ~ In (JStr s) seen.
Proof.
  induction l as [|y l IH]; intros seen; simpl; [tauto|].
  destruct (is_primitive y && existsb (json_eqb y) seen) eqn:D.
  - rewrite IH. split; [tauto|]. intros [[->|I] N]; [|tauto].
    apply andb_true_iff in D as [_ D].
    apply existsb_json_string in D. tauto.
  - simpl. rewrite IH. simpl. split.
    + intros [->|[I N]]; [|tauto]. split; auto.
      cbn [is_primitive andb] in D. intros I.
      apply existsb_json_string in I. congruence.
    + intros [[->|I] N]; auto.
      destruct y as [| | |s'| |];
        try (right; split; auto; intros [E|E]; [discriminate | tauto]).
      destruct (String.eqb s' s) eqn:E.
      * apply String.eqb_eq in E. subst. auto.
      * right. split; auto. intros [[= E']|E']; [|tauto].
        subst. now rewrite String.eqb_refl in E.
Qed.

(** A document whose [_id] is an array is held under each string among
    the elements. *)
Lemma has_id_array id d l :
  lookup "_id" d = Some (JArr l) -> has_id id d = true <-> In (JStr id) l.
Proof.
  intros L. unfold has_id, index_keys. rewrite L. cbn [keys_of].
  rewrite existsb_exists. split.
  - intros (k & I & E). apply same_key_string in E. subst k.
    now apply uniq_string in I.
  - intros I. exists (JStr id). split; [|now apply same_key_string].
    apply uniq_string. auto.
Qed.

Lemma drawn_has_id id d :
  drawn_id d -> has_id id d = true -> lookup "_id" d = Some (JStr id).
Proof.
  intros [i L] H. destruct (has_id_cases _ _ H) as [E|[l E]]; auto.
  congruence.
Qed.

Lemma strict_eq_drawn id d :
  lookup "_id" d = Some (JStr id) ->
  strict_eq (lookup "_id" d) (lookup "_id" d) = true.
Proof. intros ->. simpl. apply String.eqb_refl. Qed.

Lemma strings_among_app a b :
  strings_among (a ++ b) = strings_among a ++ strings_among b.
Proof. unfold strings_among. apply flat_map_app. Qed.

Lemma strings_among_held st :
  strings_among (held_keys st) = flat_map string_keys st.
Proof.
  unfold held_keys. induction st as [|d st IH]; simpl; auto.
  now rewrite strings_among_app, IH.
Qed.

Lemma string_keys_same d d' :
  lookup "_id" d' = lookup "_id" d -> string_keys d' = string_keys d.
Proof. unfold string_keys, index_keys. now intros ->. Qed.

Lemma NoDup_app_inv {A} (l l' : list A) :
  NoDup (l ++ l') ->
  NoDup l /\ NoDup l' /\ forall a, In a l -> ~ In a l'.
Proof.
  intros H. split; [eapply NoDup_app_remove_r; eauto|].
  split; [eapply NoDup_app_remove_l; eauto|].
  induction l as [|x l IH]; simpl in *; [tauto|].
  inversion H as [|? ? N H']; subst. intros a [<-|I].
  - intros I. apply N. apply in_or_app. now right.
  - now apply IH.
Qed.

(** *** The order of the index *)

Lemma index_insert_perm e idx : Permutation (index_insert e idx) (e :: idx).
Proof.
  induction idx as [|e' r IH]; simpl; auto.
  destruct (compareThings (fst e) (fst e')); auto;
    (rewrite IH; apply perm_swap).
Qed.

Lemma fold_index_perm es : forall acc,
  Permutation (fold_left (fun idx e => index_insert e idx) es acc) (es ++ acc).
Proof.
  induction es as [|e es IH]; intros acc; simpl; auto.
  rewrite IH, index_insert_perm. symmetry. apply Permutation_middle.
Qed.

Lemma index_perm st : Permutation (index st) (entries st).
Proof. unfold index. rewrite fold_index_perm. now rewrite app_nil_r. Qed.

Lemma entries_In k d st :
  In (k, d) (entries st) <-> In d st /\ In k (index_keys d).
Proof.
  unfold entries. rewrite in_flat_map. split.
  - intros (x & I & H). apply in_map_iff in H as (k' & [= <- <-] & K). auto.
  - intros [I K]. exists d. split; auto. apply in_map_iff. eauto.
Qed.

(** The datastore considers the documents that the index holds, each of
    them a document of the store. *)
Lemma getAllData_In d st :
  In d (getAllData st) <-> In d st /\ index_keys d <> [].
Proof.
  unfold getAllData. rewrite in_map_iff. split.
  - intros ([k d'] & E & I). simpl in E. subst d'.
    apply (Permutation_in _ (index_perm st)) in I.
    apply entries_In in I as [I K]. split; auto.
    intros N. now rewrite N in K.
  - intros [I K]. destruct (index_keys d) as [|k ks] eqn:E; [now elim K|].
    exists (k, d). split; auto.
    apply (Permutation_in _ (Permutation_sym (index_perm st))).
    apply entries_In. rewrite E. simpl. auto.
Qed.

Lemma count_entries st : count st = length (entries st).
Proof.
  unfold count, getAllData. rewrite length_map.
  apply Permutation_length, index_perm.
Qed.

Lemma entries_app st st' : entries (st ++ st') = entries st ++ entries st'.
Proof. unfold entries. apply flat_map_app. Qed.

Lemma getAllData_one d k : index_keys d = [k] -> getAllData [d] = [d].
Proof.
  intros K. unfold getAllData, index, entries. simpl. now rewrite K.
Qed.

(** A document with a string for [_id] counts. *)
Lemma count_app_drawn st d :
  drawn_id d -> count (st ++ [d]) = S (count st).
Proof.
  intros [i L]. rewrite !count_entries, entries_app, length_app.
  unfold entries at 2, index_keys. simpl. rewrite L. simpl. lia.
Qed.

Lemma find_only {A} (f : A -> bool) l x :
  In x l -> f x = true -> (forall y, In y l -> f y = true -> y = x) ->
  find f l = Some x.
Proof.
  intros I T U. destruct (find f l) as [y|] eqn:F.
  - apply find_some in F as [Iy Ty]. now rewrite (U y Iy Ty).
  - apply (find_none _ _ F) in I. congruence.
Qed.

(** *** Queries by [_id] *)

Lemma findOne_has_id id st s : findOne id st = Some s -> has_id id s = true.
Proof. intros H. now apply find_some in H. Qed.

Lemma update_absent inside id fs st :
  findOne id st = None -> update inside id fs st = Some st.
Proof.
  unfold findOne. induction st as [|d st IH]; simpl; auto.
  destruct (has_id id d); [discriminate|].
  intros H. now rewrite IH.
Qed.

Lemma update_throws inside id fs st s :
  findOne id st = Some s -> modify inside fs s = None ->
  update inside id fs st = None.
Proof.
  unfold findOne. induction st as [|d st IH]; simpl; [discriminate|].
  destruct (has_id id d).
  - intros [= ->] ->. reflexivity.
  - intros F M. now rewrite IH.
Qed.

Lemma modify_keeps_id inside fs d d' :
  modify inside fs d = Some d' -> lookup "_id" d' = lookup "_id" d.
Proof.
  unfold modify. destruct (set_fields inside fs d) as [x|]; [|discriminate].
  destruct (checkObject (JObj x)); simpl; [|discriminate].
  destruct (strict_eq _ _) eqn:E; [|discriminate].
  intros [= <-]. symmetry. now apply strict_eq_eq.
Qed.

(** A document with an array for [_id] cannot be modified: the copy that
    [modify] works on has another array. *)
Lemma modify_array inside fs d l :
  lookup "_id" d = Some (JArr l) -> modify inside fs d = None.
Proof.
  unfold modify. intros ->. destruct (set_fields inside fs d); auto.
  simpl. now rewrite andb_false_r.
Qed.

Lemma modify_has_id inside fs id d d' :
  modify inside fs d = Some d' -> has_id id d = true -> has_id id d' = true.
Proof.
  intros M H. now rewrite (has_id_same id d d' (modify_keeps_id _ _ _ _ M)).
Qed.

(** The document that [modify] accepted has a string for [_id] when a
    string finds it. *)
Lemma modify_drawn inside fs id d d' :
  modify inside fs d = Some d' -> has_id id d = true ->
  lookup "_id" d = Some (JStr id).
Proof.
  intros M H. destruct (has_id_cases _ _ H) as [E|[l E]]; auto.
  rewrite (modify_array _ _ _ _ E) in M. discriminate.
Qed.

Lemma update_found inside id fs st s d' :
  findOne id st = Some s -> modify inside fs s = Some d' ->
  exists st', update inside id fs st = Some st' /\ findOne id st' = Some d'.
Proof.
  unfold findOne. induction st as [|d st IH]; simpl; [discriminate|].
  destruct (has_id id d) eqn:E.
  - intros [= ->] M. rewrite M. eexists. split; [reflexivity|].
    simpl. now rewrite (modify_has_id _ _ _ _ _ M E).
  - intros F M. destruct (IH F M) as (st' & -> & F').
    eexists. split; [reflexivity|]. simpl. now rewrite E.
Qed.

Lemma insert_some newid doc st st' d :
  insert newid doc st = Some (st', d) ->
  st' = st ++ [d]
  /\ d = match lookup "_id" doc with
         | None => obj_set "_id" (JStr newid) doc
         | Some _ => doc
         end.
Proof.
  unfold insert.
  destruct (lookup "_id" (match lookup "_id" doc with
                          | None => _ | Some _ => _ end)); [|discriminate].
  destruct (_ && _); [|discriminate]. intros [= <- <-]. auto.
Qed.

Lemma insert_fresh newid doc st :
  lookup "_id" doc = None -> checkObject (JObj doc) = true ->
  id_taken (JStr newid) st = false ->
  let d := obj_set "_id" (JStr newid) doc in
  insert newid doc st = Some (st ++ [d], d).
Proof.
  intros L V T. unfold insert. rewrite L, lookup_obj_set_eq, T.
  rewrite checkObject_obj_set; auto.
Qed.

Lemma remove_absent id st : findOne id st = None -> remove id st = st.
Proof.
  unfold findOne. induction st as [|d st IH]; simpl; auto.
  destruct (has_id id d); [discriminate|]. intros H. now rewrite IH.
Qed.

Lemma findOne_none_iff id st :
  findOne id st = None <-> ~ In id (flat_map string_keys st).
Proof.
  unfold findOne. induction st as [|d st IH]; simpl.
  - tauto.
  - rewrite in_app_iff. destruct (has_id id d) eqn:E.
    + apply has_id_iff in E. split; [discriminate | tauto].
    + rewrite IH. split; [|tauto]. intros H [H'|H']; [|tauto].
      apply has_id_iff in H'. congruence.
Qed.

Lemma findOne_remove id st :
  unique_ids st -> findOne id (remove id st) = None.
Proof.
  unfold unique_ids. induction st as [|d st IH]; simpl; auto.
  intros U. apply NoDup_app_inv in U as (_ & U' & N).
  destruct (has_id id d) eqn:E.
  - apply has_id_iff in E. apply findOne_none_iff. now apply N.
  - unfold findOne in *. simpl. rewrite E. auto.
Qed.

Lemma remove_incl id st x :
  In x (flat_map string_keys (remove id st)) ->
  In x (flat_map string_keys st).
Proof.
  induction st as [|d st IH]; simpl; auto.
  rewrite in_app_iff. destruct (has_id id d); simpl; [tauto|].
  rewrite in_app_iff. tauto.
Qed.

Lemma unique_ids_remove id st : unique_ids st -> unique_ids (remove id st).
Proof.
  unfold unique_ids. induction st as [|d st IH]; simpl; auto.
  intros U. apply NoDup_app_inv in U as (Ud & U' & N).
  destruct (has_id id d); auto. simpl. apply NoDup_app; auto.
  intros a Ia H. apply (N a Ia). eapply remove_incl; eauto.
Qed.

Lemma update_keeps_ids inside id fs st st' :
  update inside id fs st = Some st' ->
  map (lookup "_id") st' = map (lookup "_id") st.
Proof.
  revert st'. induction st as [|d st IH]; simpl; intros st'.
  - now intros [= <-].
  - destruct (has_id id d).
    + destruct (modify inside fs d) as [d'|] eqn:M; [|discriminate].
      intros [= <-]. simpl. now rewrite (modify_keeps_id _ _ _ _ M).
    + destruct (update inside id fs st) as [st''|]; [|discriminate].
      intros [= <-]. simpl. now rewrite (IH st'').
Qed.

Lemma same_ids_keys st st' :
  map (lookup "_id") st' = map (lookup "_id") st ->
  flat_map string_keys st' = flat_map string_keys st.
Proof.
  revert st'. induction st as [|d st IH]; intros [|d' st']; simpl;
    try discriminate; auto.
  intros [= E H]. now rewrite (string_keys_same d d' E), (IH st' H).
Qed.

Lemma same_ids_drawn st st' :
  map (lookup "_id") st' = map (lookup "_id") st ->
  Forall drawn_id st -> Forall drawn_id st'.
Proof.
  revert st'. induction st as [|d st IH]; intros [|d' st']; simpl;
    try discriminate; auto.
  intros [= E H] F. inversion F as [|? ? [i L] F']; subst.
  constructor; [|now apply IH]. exists i. congruence.
Qed.

(** ** Authorisation *)

Section Routes.

Variable lib : Lib.
Variable env : option string.

Lemma protected_next auth clock st h :
  authMiddleware lib env auth clock = None ->
  protected lib env auth clock st h = h.
Proof. unfold protected. now intros ->. Qed.

Lemma authMiddleware_refuses auth clock r :
  authMiddleware lib env auth clock = Some r ->
  exists code, r = Sent 401 (error code).
Proof.
  unfold authMiddleware.
  destruct (String.eqb _ ""); [intros [= <-]; eauto|].
  destruct (jwt_verify _ _ _ _); [discriminate|intros [= <-]; eauto].
Qed.

Lemma protected_sent auth clock st h st' n x :
  protected lib env auth clock st h = (st', Sent n x) -> n <> 401 ->
  authMiddleware lib env auth clock = None /\ h = (st', Sent n x).
Proof.
  unfold protected.
  destruct (authMiddleware lib env auth clock) as [r|] eqn:A; [|auto].
  destruct (authMiddleware_refuses _ _ _ A) as (c & ->).
  intros [= <- <- <-] N. now elim N.
Qed.

Lemma protected_store auth clock st h :
  fst (protected lib env auth clock st h) = st
  \/ protected lib env auth clock st h = h.
Proof.
  unfold protected. destruct (authMiddleware _ _ _ _); auto.
Qed.

End Routes.

(** ** Shipments *)

Section Shipments.

Variable lib : Lib.
Variable env : option string.

(** C1.  PATCH /api/shipments/:id for an id that no shipment carries: the
    handler has no not-found branch; the update matches nothing, the
    lookup after it yields [null], and the reply is 200 with body [null]
    (not 404 [not_found]).  The store is left as it was. *)
Theorem patch_unknown_id_replies_null auth clock id body now st :
  authMiddleware lib env auth clock = None ->
  findOne id st = None ->
  shipments_patch lib env auth clock id body now st = (st, Sent 200 JNull).
Proof.
  intros A F. unfold shipments_patch. rewrite (protected_next _ _ _ _ _ _ A).
  unfold shipments_patch_handler.
  rewrite (update_absent _ _ _ _ F), F. reflexivity.
Qed.

(** C9.  DELETE /api/shipments/:id answers [{ok:true}] whether or not the
    shipment exists; afterwards no shipment carries the id; a second delete
    answers [{ok:true}] again and changes nothing more. *)
Theorem delete_idempotent auth clock clock2 id st :
  authMiddleware lib env auth clock = None ->
  authMiddleware lib env auth clock2 = None ->
  unique_ids st ->
  shipments_delete lib env auth clock id st = (remove id st, Sent 200 ok_true)
  /\ findOne id (remove id st) = None
  /\ shipments_delete lib env auth clock2 id (remove id st)
     = (remove id st, Sent 200 ok_true).
Proof.
  intros A A2 U. unfold shipments_delete.
  rewrite (protected_next _ _ _ _ _ _ A).
  rewrite (protected_next _ _ _ _ _ _ A2).
  unfold shipments_delete_handler.
  pose proof (findOne_remove id st U) as F.
  rewrite (remove_absent _ _ F). auto.
Qed.

Lemma events_post_handler_found id body eid time_now now st s :
  findOne id st = Some s ->
  let u := appended s body eid time_now now in
  if checkObject (JObj u) && strict_eq (lookup "_id" s) (lookup "_id" s)
  then exists st',
      events_post_handler lib id body eid time_now now st
      = (st', Sent 201 (JObj u))
      /\ findOne id st' = Some u
  else events_post_handler lib id body eid time_now now st = (st, Rejected).
Proof.
  intros F u.
  assert (M : modify (set_inside lib)
                [("events", Some (JArr (JObj (new_event body eid time_now) :: ledger s)));
                 ("updatedAt", str now);
                 ("status", js_or (lookup "status" body) (lookup "status" s))] s
              = if checkObject (JObj u)
                   && strict_eq (lookup "_id" s) (lookup "_id" s)
                then Some u else None).
  { unfold modify. cbn [set_fields set_field split_dot Ascii.eqb Bool.eqb].
    cbn [obj_put str]. fold (appended s body eid time_now now). fold u.
    replace (lookup "_id" u) with (lookup "_id" s); [reflexivity|].
    unfold u, appended. now lookups. }
  unfold events_post_handler. rewrite F.
  destruct (_ && _).
  - destruct (update_found _ _ _ _ _ _ F M) as (st' & -> & F').
    exists st'. now rewrite F'.
  - now rewrite (update_throws _ _ _ _ _ F M).
Qed.

Lemma new_event_valid body eid time_now :
  checkObject (JObj body) = true ->
  checkObject (JObj (new_event body eid time_now)) = true.
Proof.
  intros B. unfold new_event, literal.
  repeat (apply checkObject_obj_put; try reflexivity;
          try (apply checkObject_js_or;
               [now apply checkObject_field | reflexivity])).
Qed.

Lemma ledger_valid s :
  checkObject (JObj s) = true -> checkObject (JArr (ledger s)) = true.
Proof.
  intros S. unfold ledger. destruct (lookup "events" s) as [[| | | | |]|] eqn:E;
    try reflexivity.
  eapply checkObject_lookup; eauto.
Qed.

Lemma appended_valid s body eid time_now now :
  checkObject (JObj s) = true -> checkObject (JObj body) = true ->
  checkObject (JObj (appended s body eid time_now now)) = true.
Proof.
  intros S B. unfold appended.
  apply checkObject_obj_put; try reflexivity.
  - apply checkObject_js_or; now apply checkObject_field.
  - apply checkObject_obj_set; try reflexivity.
    apply checkObject_obj_set; auto.
    rewrite checkObject_arr_cons, new_event_valid, ledger_valid; auto.
Qed.

(** What a 201 reply of the event route tells. *)
Lemma events_post_created auth clock id body eid time_now now st st' x :
  events_post lib env auth clock id body eid time_now now st
  = (st', Sent 201 x) ->
  exists s, findOne id st = Some s
            /\ x = JObj (appended s body eid time_now now)
            /\ findOne id st' = Some (appended s body eid time_now now).
Proof.
  unfold events_post. intros H.
  apply protected_sent in H as [_ H]; [|discriminate].
  destruct (findOne id st) as [s|] eqn:F.
  - exists s. split; auto.
    pose proof (events_post_handler_found id body eid time_now now st s F) as P.
    cbv zeta in P. destruct (_ && _).
    + destruct P as (st1 & P & F1). rewrite P in H.
      injection H as <- <-. auto.
    + rewrite P in H. discriminate.
  - unfold events_post_handler in H. rewrite F in H. discriminate.
Qed.

(** A valid request on a stored shipment, held under the string that the
    datastore drew for it, is answered 201. *)
Lemma events_post_succeeds auth clock id body eid time_now now st s :
  authMiddleware lib env auth clock = None ->
  findOne id st = Some s ->
  lookup "_id" s = Some (JStr id) ->
  checkObject (JObj s) = true -> checkObject (JObj body) = true ->
  exists st', events_post lib env auth clock id body eid time_now now st
              = (st', Sent 201 (JObj (appended s body eid time_now now))).
Proof.
  intros A F I S B. unfold events_post. rewrite (protected_next _ _ _ _ _ _ A).
  pose proof (events_post_handler_found id body eid time_now now st s F) as P.
  cbv zeta in P.
  rewrite (appended_valid _ _ _ _ _ S B), (strict_eq_drawn _ _ I) in P.
  destruct P as (st' & P & _). eauto.
Qed.

(** C5 (amended).  On an existing shipment, every 201 reply of
    POST /api/shipments/:id/events carries the shipment with the new event
    at index 0 followed by the prior events in order and [updatedAt]
    refreshed; a non-empty status [X] in the body becomes the status of
    the event and of the shipment; without a status the event gets
    [In Transit] and the shipment keeps its status.  A body and a stored
    shipment that the datastore accepts, the shipment having for [_id]
    the string that the datastore drew for it, always get the 201
    reply. *)
Theorem append_event_status auth clock id body eid time_now now st s :
  authMiddleware lib env auth clock = None ->
  findOne id st = Some s ->
  (forall st' x,
      events_post lib env auth clock id body eid time_now now st
      = (st', Sent 201 x) ->
      exists u ev,
        x = JObj u /\ findOne id st' = Some u
        /\ lookup "events" u = Some (JArr (JObj ev :: ledger s))
        /\ lookup "updatedAt" u = Some (JStr now)
        /\ (forall X, lookup "status" body = Some (JStr X) -> X <> "" ->
              lookup "status" u = Some (JStr X)
              /\ lookup "status" ev = Some (JStr X))
        /\ (lookup "status" body = None ->
              lookup "status" ev = Some (JStr "In Transit")
              /\ lookup "status" u = lookup "status" s))
  /\ (lookup "_id" s = Some (JStr id) ->
      checkObject (JObj s) = true -> checkObject (JObj body) = true ->
      exists st' u,
        events_post lib env auth clock id body eid time_now now st
        = (st', Sent 201 (JObj u))).
Proof.
  intros A F. split.
  - intros st' x H. apply events_post_created in H as (s' & F' & -> & Fu).
    rewrite F in F'. injection F' as <-.
    exists (appended s body eid time_now now), (new_event body eid time_now).
    split; [reflexivity|]. split; [exact Fu|].
    unfold appended, new_event, literal. lookups.
    split; [reflexivity|]. split; [reflexivity|]. split.
    + intros X -> N. unfold js_or. simpl.
      apply String.eqb_neq in N. rewrite N. simpl. auto.
    + intros ->. unfold js_or. simpl. auto.
  - intros I S B.
    destruct (events_post_succeeds auth clock id body eid time_now now st s
                A F I S B) as (st' & H).
    eauto.
Qed.

(** C10.  A body whose status is the empty string is served exactly as
    the same body without a status: the replies and the stores coincide.
    On an existing shipment every 201 reply has the new event, with status
    [In Transit], at index 0 and the shipment's own status unchanged; a
    body and a stored shipment that the datastore accepts, the shipment
    having for [_id] the string that the datastore drew for it, get that
    reply. *)
Theorem append_event_empty_status auth clock id body eid time_now now st s :
  authMiddleware lib env auth clock = None ->
  findOne id st = Some s ->
  lookup "status" body = Some (JStr "") ->
  events_post lib env auth clock id body eid time_now now st
  = events_post lib env auth clock id (obj_del "status" body)
      eid time_now now st
  /\ (forall st' x,
         events_post lib env auth clock id body eid time_now now st
         = (st', Sent 201 x) ->
         exists u ev,
           x = JObj u /\ findOne id st' = Some u
           /\ lookup "events" u = Some (JArr (JObj ev :: ledger s))
           /\ lookup "status" ev = Some (JStr "In Transit")
           /\ lookup "status" u = lookup "status" s)
  /\ (lookup "_id" s = Some (JStr id) ->
      checkObject (JObj s) = true -> checkObject (JObj body) = true ->
      exists st' u,
        events_post lib env auth clock id body eid time_now now st
        = (st', Sent 201 (JObj u))).
Proof.
  intros A F E. split; [|split].
  - unfold events_post, events_post_handler, new_event.
    rewrite lookup_obj_del_eq, E.
    rewrite !lookup_obj_del_neq by reflexivity. reflexivity.
  - intros st' x H. apply events_post_created in H as (s' & F' & -> & Fu).
    rewrite F in F'. injection F' as <-.
    exists (appended s body eid time_now now), (new_event body eid time_now).
    split; [reflexivity|]. split; [exact Fu|].
    unfold appended, new_event, literal. lookups. rewrite E.
    split; [reflexivity|]. split; reflexivity.
  - intros I S B.
    destruct (events_post_succeeds auth clock id body eid time_now now st s
                A F I S B) as (st' & H).
    eauto.
Qed.

Lemma filter_events_filter eventId l l' :
  filter_events eventId l = Some l' ->
  l' = filter (fun ev => negb (event_has_id eventId ev)) l.
Proof.
  revert l'. induction l as [|ev l IH]; simpl; intros l'.
  - now intros [= <-].
  - destruct (keeps eventId ev) as [b|] eqn:K; [|discriminate].
    destruct (filter_events eventId l) as [r|]; [|discriminate].
    intros [= <-]. rewrite (IH r eq_refl).
    destruct ev; simpl in K; try discriminate; injection K as <-; reflexivity.
Qed.

Lemma filter_events_total eventId l :
  ~ In JNull l -> exists l', filter_events eventId l = Some l'.
Proof.
  induction l as [|ev l IH]; simpl; intros N; [eauto|].
  destruct IH as (r & ->); [tauto|].
  destruct ev; simpl; eauto. tauto.
Qed.

Lemma filter_absent eventId l :
  Forall (fun ev => event_has_id eventId ev = false) l ->
  filter (fun ev => negb (event_has_id eventId ev)) l = l.
Proof.
  induction 1 as [|ev l H _ IH]; simpl; auto. now rewrite H, IH.
Qed.

Lemma checkObject_filter (f : Json -> bool) l :
  checkObject (JArr l) = true -> checkObject (JArr (filter f l)) = true.
Proof.
  induction l as [|x l IH]; simpl filter; auto.
  rewrite checkObject_arr_cons. intros H.
  apply andb_true_iff in H as [Hx Hl].
  destruct (f x); auto. rewrite checkObject_arr_cons. now rewrite Hx, IH.
Qed.

Lemma events_delete_handler_found id eventId now st s l l' :
  findOne id st = Some s ->
  js_or (lookup "events" s) (Some (JArr [])) = Some (JArr l) ->
  filter_events eventId l = Some l' ->
  let u := pruned s l' now in
  if checkObject (JObj u) && strict_eq (lookup "_id" s) (lookup "_id" s)
  then exists st',
      events_delete_handler lib id eventId now st = (st', Sent 200 (JObj u))
      /\ findOne id st' = Some u
  else events_delete_handler lib id eventId now st = (st, Rejected).
Proof.
  intros F L E u.
  assert (M : modify (set_inside lib)
                [("events", Some (JArr l')); ("updatedAt", str now)] s
              = if checkObject (JObj u)
                   && strict_eq (lookup "_id" s) (lookup "_id" s)
                then Some u else None).
  { unfold modify. cbn [set_fields set_field split_dot Ascii.eqb Bool.eqb].
    cbn [obj_put str]. fold (pruned s l' now). fold u.
    replace (lookup "_id" u) with (lookup "_id" s); [reflexivity|].
    unfold u, pruned. now lookups. }
  unfold events_delete_handler. rewrite F, L, E.
  destruct (_ && _).
  - destruct (update_found _ _ _ _ _ _ F M) as (st' & -> & F').
    exists st'. now rewrite F'.
  - now rewrite (update_throws _ _ _ _ _ F M).
Qed.

(** What a 200 reply of the event removal tells. *)
Lemma events_delete_done auth clock id eventId now st st' x :
  events_delete lib env auth clock id eventId now st = (st', Sent 200 x) ->
  exists s l l',
    findOne id st = Some s
    /\ js_or (lookup "events" s) (Some (JArr [])) = Some (JArr l)
    /\ filter_events eventId l = Some l'
    /\ x = JObj (pruned s l' now)
    /\ findOne id st' = Some (pruned s l' now)
    /\ checkObject (JObj (pruned s l' now)) = true
    /\ strict_eq (lookup "_id" s) (lookup "_id" s) = true.
Proof.
  unfold events_delete. intros H.
  apply protected_sent in H as [_ H]; [|discriminate].
  destruct (findOne id st) as [s|] eqn:F.
  2:{ unfold events_delete_handler in H. rewrite F in H. discriminate. }
  destruct (js_or (lookup "events" s) (Some (JArr []))) as [[| | | |l|]|] eqn:L;
    try (unfold events_delete_handler in H; rewrite F, L in H; discriminate).
  destruct (filter_events eventId l) as [l'|] eqn:E.
  2:{ unfold events_delete_handler in H. rewrite F, L, E in H. discriminate. }
  exists s, l, l'. repeat (split; [reflexivity || assumption|]).
  pose proof (events_delete_handler_found id eventId now st s l l' F L E) as P.
  cbv zeta in P. destruct (checkObject _); destruct (strict_eq _ _);
    cbn [andb] in P;
    try (rewrite P in H; discriminate).
  destruct P as (st1 & P & F1). rewrite P in H. injection H as <- <-. auto.
Qed.

Lemma pruned_valid s l now :
  checkObject (JObj s) = true -> checkObject (JArr l) = true ->
  checkObject (JObj (pruned s l now)) = true.
Proof.
  intros S L. unfold pruned. apply checkObject_obj_set; try reflexivity.
  now apply checkObject_obj_set.
Qed.

(** What [s.events || []] can be when it has a [filter]: the [events]
    field when that is an array, the empty array when it is falsy. *)
Lemma ledger_read s l :
  js_or (lookup "events" s) (Some (JArr [])) = Some (JArr l) ->
  lookup "events" s = Some (JArr l)
  \/ (truthy (lookup "events" s) = false /\ l = []).
Proof.
  unfold js_or. destruct (truthy (lookup "events" s)); [now left|].
  intros [= <-]. now right.
Qed.

(** A removal on a stored shipment that the datastore accepts, whose
    [_id] is not an array, is answered 200. *)
Lemma events_delete_succeeds auth clock id eventId now st s l l' :
  authMiddleware lib env auth clock = None ->
  findOne id st = Some s ->
  js_or (lookup "events" s) (Some (JArr [])) = Some (JArr l) ->
  filter_events eventId l = Some l' ->
  strict_eq (lookup "_id" s) (lookup "_id" s) = true ->
  checkObject (JObj s) = true ->
  exists st',
    events_delete lib env auth clock id eventId now st
    = (st', Sent 200 (JObj (pruned s l' now)))
    /\ findOne id st' = Some (pruned s l' now).
Proof.
  intros A F L E K S.
  pose proof (events_delete_handler_found id eventId now st s l l' F L E) as P.
  cbv zeta in P.
  assert (V : checkObject (JObj (pruned s l' now)) = true).
  { apply pruned_valid; auto.
    rewrite (filter_events_filter _ _ _ E). apply checkObject_filter.
    destruct (ledger_read _ _ L) as [L'|[_ ->]]; [|reflexivity].
    eapply checkObject_lookup; eauto. }
  rewrite V, K in P. destruct P as (st' & P & Fu).
  exists st'. unfold events_delete.
  now rewrite (protected_next _ _ _ _ _ _ A).
Qed.

(** C6 (amended).  On an existing shipment, every 200 reply of
    DELETE /api/shipments/:id/events/:eventId carries the shipment with
    every field other than [events] and [updatedAt] as it was (so the
    status is untouched) and [updatedAt] refreshed.  When the [events]
    field is an array, the new ledger is the old one without the events
    carrying [eventId], the others in their order, and it is the old one
    when no event carries [eventId].  When the [events] field is not an
    array, a 200 reply means that it was missing or falsy ([null],
    [false], [0], the empty string), and the new ledger is the empty
    array that [s.events || []] makes.  A stored shipment that the
    datastore accepts, with for [_id] the string that the datastore drew
    for it, gets the 200 reply in both cases (in the first, when its
    ledger has no [null] entry); an [events] field that is truthy and not
    an array has no [filter], and no reply is sent. *)
Theorem remove_event_frame auth clock id eventId now st s :
  authMiddleware lib env auth clock = None ->
  findOne id st = Some s ->
  (forall st' x,
      events_delete lib env auth clock id eventId now st = (st', Sent 200 x) ->
      exists u,
        x = JObj u /\ findOne id st' = Some u
        /\ lookup "status" u = lookup "status" s
        /\ (forall k, k <> "events" -> k <> "updatedAt" ->
              lookup k u = lookup k s)
        /\ lookup "updatedAt" u = Some (JStr now)
        /\ (forall l, lookup "events" s = Some (JArr l) ->
              lookup "events" u
              = Some (JArr (filter (fun ev => negb (event_has_id eventId ev)) l))
              /\ (Forall (fun ev => event_has_id eventId ev = false) l ->
                  lookup "events" u = Some (JArr l)))
        /\ (isArray (lookup "events" s) = false ->
            truthy (lookup "events" s) = false
            /\ lookup "events" u = Some (JArr [])))
  /\ (lookup "_id" s = Some (JStr id) -> checkObject (JObj s) = true ->
      (forall l, lookup "events" s = Some (JArr l) -> ~ In JNull l ->
         exists st' u,
           events_delete lib env auth clock id eventId now st
           = (st', Sent 200 (JObj u)))
      /\ (truthy (lookup "events" s) = false ->
          exists st' u,
            events_delete lib env auth clock id eventId now st
            = (st', Sent 200 (JObj u))
            /\ lookup "events" u = Some (JArr [])))
  /\ (truthy (lookup "events" s) = true ->
      isArray (lookup "events" s) = false ->
      events_delete lib env auth clock id eventId now st = (st, Rejected)).
Proof.
  intros A F. split; [|split].
  - intros st' x H.
    apply events_delete_done
      in H as (s' & l & l' & F' & L & E & -> & Fu & _ & _).
    rewrite F in F'. injection F' as <-.
    exists (pruned s l' now). split; [reflexivity|]. split; [exact Fu|].
    unfold pruned. lookups. split; [reflexivity|].
    split; [|split; [reflexivity|split]].
    + intros k K1 K2. apply String.eqb_neq in K1, K2.
      now rewrite !lookup_obj_set_neq.
    + intros l0 L0. rewrite L0 in L. unfold js_or in L. simpl in L.
      injection L as <-. apply filter_events_filter in E. subst l'.
      split; [reflexivity|]. intros N. now rewrite filter_absent.
    + intros NA. destruct (ledger_read _ _ L) as [L'|[T ->]].
      * rewrite L' in NA. discriminate.
      * simpl in E. injection E as <-. auto.
  - intros I S. pose proof (strict_eq_drawn _ _ I) as K. split.
    + intros l L N.
      destruct (filter_events_total eventId l N) as (l' & E).
      assert (L' : js_or (lookup "events" s) (Some (JArr [])) = Some (JArr l))
        by now rewrite L.
      destruct (events_delete_succeeds auth clock id eventId now st s l l'
                  A F L' E K S) as (st' & H & _).
      eauto.
    + intros T.
      assert (L' : js_or (lookup "events" s) (Some (JArr []))
                   = Some (JArr [])) by (unfold js_or; now rewrite T).
      destruct (events_delete_succeeds auth clock id eventId now st s [] []
                  A F L' eq_refl K S) as (st' & H & _).
      exists st', (pruned s [] now). split; [exact H|].
      unfold pruned. now lookups.
  - intros T NA. unfold events_delete.
    rewrite (protected_next _ _ _ _ _ _ A).
    unfold events_delete_handler, js_or. rewrite F, T.
    destruct (lookup "events" s) as [[| | | | |]|]; try reflexivity;
      discriminate.
Qed.

Lemma shipment_doc_no_id body now tn eid :
  lookup "_id" (shipment_doc body now tn eid) = None.
Proof. unfold shipment_doc, literal. lookups. reflexivity. Qed.

Lemma created_event_valid eid now body :
  checkObject (JObj body) = true ->
  checkObject (JObj (created_event eid now body)) = true.
Proof.
  intros B. unfold created_event, literal.
  repeat (apply checkObject_obj_put; try reflexivity).
  apply checkObject_js_or; [now apply checkObject_field | reflexivity].
Qed.

Lemma shipment_doc_valid body now tn eid :
  checkObject (JObj body) = true ->
  checkObject (JObj (shipment_doc body now tn eid)) = true.
Proof.
  intros B. unfold shipment_doc, literal.
  repeat (apply checkObject_obj_put; try reflexivity;
          try (now apply checkObject_field);
          try (apply checkObject_js_or;
               [now apply checkObject_field | reflexivity])).
  destruct (truthy _ && isArray _).
  - now apply checkObject_field.
  - rewrite checkObject_arr_cons, created_event_valid; auto.
Qed.

(** What a 201 reply of the creation route tells. *)
Lemma shipments_create_created auth clock body now stamp rnd eid newid st st' x :
  shipments_create lib env auth clock body now stamp rnd eid newid st
  = (st', Sent 201 x) ->
  let doc := obj_set "_id" (JStr newid)
               (shipment_doc body now (trackingNumber stamp rnd) eid) in
  x = JObj doc /\ st' = st ++ [doc].
Proof.
  unfold shipments_create. intros H.
  apply protected_sent in H as [_ H]; [|discriminate].
  unfold shipments_create_handler in H.
  destruct (insert _ _ _) as [[st1 d]|] eqn:I; [|discriminate].
  injection H as <- <-. apply insert_some in I as [-> ->].
  rewrite shipment_doc_no_id. auto.
Qed.

(** C3 (amended).  Every 201 reply of POST /api/shipments carries the new
    shipment, stored last.  An events array in the body is stored as it is
    (so an empty one gives an empty ledger); without an events array the
    ledger is the single synthetic event, with status [Created] and
    located at the origin of the body (the empty string when there is
    none); hence the ledger is non-empty unless the body supplies [[]].
    A body that the datastore accepts gets the 201 reply. *)
Theorem created_ledger auth clock body now stamp rnd eid newid st :
  (forall st' x,
      shipments_create lib env auth clock body now stamp rnd eid newid st
      = (st', Sent 201 x) ->
      exists doc,
        x = JObj doc /\ st' = st ++ [doc]
        /\ (forall l, lookup "events" body = Some (JArr l) ->
              lookup "events" doc = Some (JArr l))
        /\ (isArray (lookup "events" body) = false ->
            exists ev,
              lookup "events" doc = Some (JArr [JObj ev])
              /\ lookup "status" ev = Some (JStr "Created")
              /\ lookup "location" ev
                 = js_or (lookup "origin" body) (Some (JStr "")))
        /\ (lookup "events" body <> Some (JArr []) ->
            exists e es, lookup "events" doc = Some (JArr (e :: es))))
  /\ (authMiddleware lib env auth clock = None ->
      checkObject (JObj body) = true -> id_taken (JStr newid) st = false ->
      exists st' doc,
        shipments_create lib env auth clock body now stamp rnd eid newid st
        = (st', Sent 201 (JObj doc))).
Proof.
  split.
  - intros st' x H. apply shipments_create_created in H as [-> ->].
    eexists. split; [reflexivity|]. split; [reflexivity|].
    unfold shipment_doc, literal. lookups.
    split; [|split].
    + intros l ->. reflexivity.
    + intros N. rewrite N, andb_false_r.
      exists (created_event eid now body). split; [reflexivity|].
      unfold created_event, literal. lookups. auto.
    + intros N. destruct (lookup "events" body) as [[| | | |[|e es]|]|];
        try (now elim N);
        try (rewrite andb_false_r); simpl; do 2 eexists; reflexivity.
  - intros A B T. unfold shipments_create, shipments_create_handler.
    rewrite (protected_next _ _ _ _ _ _ A).
    rewrite insert_fresh;
      auto using shipment_doc_no_id, shipment_doc_valid.
    eauto.
Qed.

End Shipments.

(** ** Tracking numbers *)

Lemma split_dot_nonempty k : split_dot k <> [].
Proof.
  destruct k as [|c k]; simpl; [discriminate|].
  destruct (Ascii.eqb c "."); [discriminate|].
  destruct (split_dot k); discriminate.
Qed.

Lemma split_dot_single k t : split_dot k = [t] -> t = k.
Proof.
  revert t. induction k as [|c k IH]; simpl; intros t.
  - now intros [= <-].
  - destruct (Ascii.eqb c ".").
    + intros [= _ H]. now apply split_dot_nonempty in H.
    + destruct (split_dot k) as [|w ws] eqn:E.
      * now apply split_dot_nonempty in E.
      * intros [= <- ->]. now rewrite (IH w eq_refl).
Qed.

Lemma set_field_other inside k v d d' t :
  set_field inside k v d = Some d' ->
  String.eqb t (top_field k) = false -> lookup t d' = lookup t d.
Proof.
  unfold set_field, top_field.
  destruct (split_dot k) as [|top [|r rest]] eqn:E; [discriminate| |].
  - apply split_dot_single in E. subst top.
    intros [= <-] N. now apply lookup_obj_put_neq.
  - destruct (inside _ _ _); [|discriminate].
    intros [= <-] N. now apply lookup_obj_set_neq.
Qed.

Lemma set_fields_other inside fs d d' t :
  set_fields inside fs d = Some d' -> avoids t fs = true ->
  lookup t d' = lookup t d.
Proof.
  revert d. induction fs as [|[k v] fs IH]; simpl; intros d.
  - now intros [= <-].
  - destruct (set_field inside k v d) as [d1|] eqn:E; [|discriminate].
    intros H A. apply andb_true_iff in A as [A1 A2].
    rewrite (IH _ H A2). eapply set_field_other; eauto.
    now apply negb_true_iff.
Qed.

Lemma modify_other inside fs d d' t :
  modify inside fs d = Some d' -> avoids t fs = true ->
  lookup t d' = lookup t d.
Proof.
  unfold modify. destruct (set_fields inside fs d) as [x|] eqn:E; [|discriminate].
  destruct (_ && _); [|discriminate]. intros [= <-] A.
  eapply set_fields_other; eauto.
Qed.

Lemma update_ident inside id fs st st' :
  update inside id fs st = Some st' -> avoids "trackingNumber" fs = true ->
  map ident st' = map ident st.
Proof.
  intros U A. revert st' U. induction st as [|d st IH]; simpl; intros st'.
  - now intros [= <-].
  - destruct (has_id id d).
    + destruct (modify inside fs d) as [d'|] eqn:M; [|discriminate].
      intros [= <-]. simpl. unfold ident at 1 3.
      now rewrite (modify_keeps_id _ _ _ _ M), (modify_other _ _ _ _ _ M A).
    + destruct (update inside id fs st) as [st''|]; [|discriminate].
      intros [= <-]. simpl. now rewrite (IH st'').
Qed.

Lemma forallb_through_map {A B} (f : B -> bool) (g : A -> B) l :
  forallb f (map g l) = forallb (fun x => f (g x)) l.
Proof. induction l as [|x l IH]; simpl; congruence. Qed.

Lemma avoids_patch t now body :
  String.eqb t (top_field "updatedAt") = false ->
  existsb (fun kv => String.eqb t (top_field (fst kv))) body = false ->
  avoids t (map (fun kv => (fst kv, Some (snd kv)))
              (obj_set "updatedAt" (JStr now) body)) = true.
Proof.
  intros N. unfold avoids. rewrite forallb_through_map. cbn [fst].
  induction body as [|[k v] body IH]; cbn [obj_set forallb existsb fst].
  - intros _. now rewrite N.
  - intros H. apply orb_false_iff in H as [H1 H2].
    destruct (String.eqb "updatedAt" k); cbn [forallb fst].
    + rewrite N. cbn [negb andb]. clear IH.
      induction body as [|[k' v'] body IH]; cbn [forallb existsb fst] in *; auto.
      apply orb_false_iff in H2 as [H2 H3].
      now rewrite H2, IH.
    + now rewrite H1, IH.
Qed.

Section Tracking.

Variable lib : Lib.
Variable env : option string.

Lemma mutate_ident m st :
  keeps_tracking m = true -> map ident (mutate lib env m st) = map ident st.
Proof.
  destruct m as [auth clock id body now
                | auth clock id body eid time_now now
                | auth clock id eventId now]; simpl; intros K.
  - unfold shipments_patch.
    destruct (protected_store lib env auth clock st
                (shipments_patch_handler lib id body now st)) as [-> | ->];
      [reflexivity|].
    unfold shipments_patch_handler.
    destruct (update _ _ _ _) as [st'|] eqn:U; [|reflexivity].
    simpl. eapply update_ident; eauto.
    apply avoids_patch; [reflexivity|]. now apply negb_true_iff.
  - unfold events_post.
    destruct (protected_store lib env auth clock st
                (events_post_handler lib id body eid time_now now st))
      as [-> | ->]; [reflexivity|].
    unfold events_post_handler.
    destruct (findOne id st); [|reflexivity].
    destruct (update _ _ _ _) as [st'|] eqn:U; [|reflexivity].
    simpl. eapply update_ident; eauto.
  - unfold events_delete.
    destruct (protected_store lib env auth clock st
                (events_delete_handler lib id eventId now st))
      as [-> | ->]; [reflexivity|].
    unfold events_delete_handler.
    destruct (findOne id st); [|reflexivity].
    destruct (js_or _ _) as [[| | | |l|]|]; try reflexivity.
    destruct (filter_events eventId l); [|reflexivity].
    destruct (update _ _ _ _) as [st'|] eqn:U; [|reflexivity].
    simpl. eapply update_ident; eauto.
Qed.

Lemma run_ident ms st :
  Forall (fun m => keeps_tracking m = true) ms ->
  map ident (run lib env ms st) = map ident st.
Proof.
  intros H. revert st. induction H as [|m ms K _ IH]; intros st; simpl; auto.
  unfold run in *. simpl. rewrite IH. now apply mutate_ident.
Qed.

(** C4 (amended).  A created shipment carries the tracking number that
    [trackingNumber()] produced.  Any sequence of patches that do not name
    [trackingNumber], event appends and event removals leaves every stored
    shipment with its [_id] and its tracking number, in the same place, so
    tracking numbers that were pairwise distinct stay so. *)
Theorem tracking_number_stable ms st :
  Forall (fun m => keeps_tracking m = true) ms ->
  map ident (run lib env ms st) = map ident st
  /\ (NoDup (map (lookup "trackingNumber") st) ->
      NoDup (map (lookup "trackingNumber") (run lib env ms st)))
  /\ (forall auth clock body now stamp rnd eid newid st0 st' doc,
        shipments_create lib env auth clock body now stamp rnd eid newid st0
        = (st', Sent 201 (JObj doc)) ->
        lookup "trackingNumber" doc = Some (JStr (trackingNumber stamp rnd))).
Proof.
  intros H. pose proof (run_ident ms st H) as E. split; [exact E|]. split.
  - assert (T : map (lookup "trackingNumber") (run lib env ms st)
                = map (lookup "trackingNumber") st).
    { rewrite <- (map_map ident snd), E, map_map. reflexivity. }
    now rewrite T.
  - intros auth clock body now stamp rnd eid newid st0 st' doc C.
    apply shipments_create_created in C as [C _]. injection C as ->.
    unfold shipment_doc, literal. lookups. reflexivity.
Qed.

End Tracking.

(** ** Quotes *)

(** C8.  Every 201 reply of POST /api/quotes carries the stored quote,
    stored last: its status is [new] and its [createdAt] is the creation
    time, whatever the body says for the two; every other field of the
    body is in it with the value given.  A body that the datastore
    accepts, without an [_id] of its own, gets the 201 reply. *)
Theorem quote_created body now newid quotes :
  (forall quotes' x,
      quotes_create body now newid quotes = (quotes', Sent 201 x) ->
      exists doc,
        x = JObj doc /\ quotes' = quotes ++ [doc]
        /\ lookup "status" doc = Some (JStr "new")
        /\ lookup "createdAt" doc = Some (JStr now)
        /\ (forall k v, k <> "status" -> k <> "createdAt" ->
              lookup k body = Some v -> lookup k doc = Some v))
  /\ (checkObject (JObj body) = true -> lookup "_id" body = None ->
      id_taken (JStr newid) quotes = false ->
      exists quotes' doc,
        quotes_create body now newid quotes = (quotes', Sent 201 (JObj doc))).
Proof.
  unfold quotes_create. split.
  - intros quotes' x H.
    destruct (insert _ _ _) as [[q1 d]|] eqn:I; [|discriminate].
    injection H as <- <-. apply insert_some in I as [-> ->].
    eexists. split; [reflexivity|]. split; [reflexivity|].
    destruct (lookup "_id" (obj_set "createdAt" _ _)) eqn:L.
    + lookups. split; [reflexivity|]. split; [reflexivity|].
      intros k v K1 K2 B. apply String.eqb_neq in K1, K2.
      now rewrite !lookup_obj_set_neq.
    + lookups. split; [reflexivity|]. split; [reflexivity|].
      intros k v K1 K2 B. apply String.eqb_neq in K1, K2.
      destruct (String.eqb k "_id") eqn:K.
      * apply String.eqb_eq in K. subst k.
        rewrite !lookup_obj_set_neq in L by reflexivity. congruence.
      * now rewrite !lookup_obj_set_neq.
  - intros V L T. rewrite insert_fresh; eauto.
    + lookups. exact L.
    + repeat (apply checkObject_obj_set; try reflexivity). exact V.
Qed.

(** ** Registration *)

Section Registration.

Variable lib : Lib.
Variable env : option string.


Lemma register_first body now salt newid clock em pw :
  lookup "email" body = Some (JStr em) -> em <> "" ->
  lookup "password" body = Some (JStr pw) -> pw <> "" ->
  exists user token,
    register lib env body now salt newid clock []
    = ([user],
       Sent 200 (JObj [("token", JStr token);
                       ("user", JObj [("id", JStr newid);
                                      ("email", JStr (toLowerCase em))])]))
    /\ lookup "_id" user = Some (JStr newid)
    /\ lookup "email" user = Some (JStr (toLowerCase em))
    /\ lookup "password" user = Some (JStr (bcrypt_hash lib pw 10 salt))
    /\ token = signToken lib env user clock.
Proof.
  intros E1 N1 E2 N2. unfold register. rewrite E1, E2.
  apply String.eqb_neq in N1, N2. simpl. rewrite N1, N2. simpl.
  eexists. eexists. split; [reflexivity|]. auto.
Qed.



End Registration.

(** ** Concrete runs *)

Lemma patch_unknown_id_witness :
  authMiddleware sample_lib None bearer "c" = None
  /\ findOne "nope" [acme] = None
  /\ shipments_patch sample_lib None bearer "c" "nope"
       [("status", JStr "Delivered")] t1 [acme]
     = ([acme], Sent 200 JNull).
Proof.
  split; [reflexivity|]. split; [reflexivity|].
  apply (patch_unknown_id_replies_null sample_lib None bearer "c" "nope"
           [("status", JStr "Delivered")] t1 [acme]); reflexivity.
Defined.

(** C2.  GET /api/track/:trackingNumber builds a regular expression from
    the parameter without escaping it.  The parameter [.*] retrieves a
    shipment whose tracking number is [SC1ABCDEF234], and so does [SC|],
    whose second alternative matches the end of any string; neither is
    equal to the tracking number up to case.  (The lookup by the number
    itself, in either case and padded with spaces, finds the shipment,
    and a proper prefix of it gets 404.) *)
Theorem track_treats_parameter_as_pattern :
  track ".*" [acme] = Some (Sent 200 (JObj acme))
  /\ track "SC|" [acme] = Some (Sent 200 (JObj acme))
  /\ lookup "trackingNumber" acme = Some (JStr "SC1ABCDEF234")
  /\ same_ignoring_case ".*" "SC1ABCDEF234" = false
  /\ same_ignoring_case "SC|" "SC1ABCDEF234" = false
  /\ track "sc1abcdef234" [acme] = Some (Sent 200 (JObj acme))
  /\ track " SC1ABCDEF234 " [acme] = Some (Sent 200 (JObj acme))
  /\ track "SC1ABCDEF23" [acme] = Some (Sent 404 (error "not_found")).
Proof. repeat split; vm_compute; reflexivity. Qed.

(** C3, as stated, fails: a body with the empty events array creates a
    shipment whose ledger is empty. *)
Lemma created_with_empty_ledger :
  exists doc,
    shipments_create sample_lib None bearer "c"
      [("customer", JStr "X"); ("origin", JStr "LA"); ("events", JArr [])]
      t0 "lvo1x2" "ABCDEF2345" "EV11111111" "s1" []
    = ([doc], Sent 201 (JObj doc))
    /\ lookup "events" doc = Some (JArr []).
Proof. eexists. split; vm_compute; reflexivity. Qed.

Lemma created_ledger_witness :
  authMiddleware sample_lib None bearer "c" = None
  /\ exists st' doc,
      shipments_create sample_lib None bearer "c"
        [("customer", JStr "X"); ("origin", JStr "LA");
         ("destination", JStr "NYC")]
        t0 "lvo1x2" "ABCDEF2345" "EV11111111" "s1" []
      = (st', Sent 201 (JObj doc)).
Proof.
  split; [reflexivity|].
  apply (created_ledger sample_lib None bearer "c"
           [("customer", JStr "X"); ("origin", JStr "LA");
            ("destination", JStr "NYC")]
           t0 "lvo1x2" "ABCDEF2345" "EV11111111" "s1" []); reflexivity.
Defined.

(** C4, as stated, fails: a patch that supplies [trackingNumber] rewrites
    it, here to the number of another shipment, and the tracking numbers
    of the store are no longer distinct. *)
Lemma patch_rewrites_tracking_number :
  exists st' u,
    shipments_patch sample_lib None bearer "c" "s2"
      [("trackingNumber", JStr "SC1ABCDEF234")] t1 [acme; beta]
    = (st', Sent 200 (JObj u))
    /\ findOne "s2" [acme; beta] = Some beta
    /\ findOne "s2" st' = Some u
    /\ lookup "trackingNumber" beta = Some (JStr "SC1ZZZZZZ999")
    /\ lookup "trackingNumber" u = Some (JStr "SC1ABCDEF234")
    /\ NoDup (map (lookup "trackingNumber") [acme; beta])
    /\ ~ NoDup (map (lookup "trackingNumber") st').
Proof.
  eexists. eexists. split; [vm_compute; reflexivity|].
  repeat (split; [reflexivity|]). split.
  - repeat constructor; simpl; intuition discriminate.
  - intros H. inversion H as [|? ? N _]. apply N. simpl. auto.
Qed.

Lemma tracking_number_stable_witness :
  Forall (fun m => keeps_tracking m = true)
    [Patch bearer "c" "s1" [("status", JStr "Delivered")] t1;
     AppendEvent bearer "c" "s2" [("status", JStr "In Transit")]
       "EV33333333" t1 t1;
     RemoveEvent bearer "c" "s2" "EV22222222" t1]
  /\ map ident
       (run sample_lib None
          [Patch bearer "c" "s1" [("status", JStr "Delivered")] t1;
           AppendEvent bearer "c" "s2" [("status", JStr "In Transit")]
             "EV33333333" t1 t1;
           RemoveEvent bearer "c" "s2" "EV22222222" t1]
          [acme; beta])
     = map ident [acme; beta].
Proof.
  assert (K : Forall (fun m => keeps_tracking m = true)
                [Patch bearer "c" "s1" [("status", JStr "Delivered")] t1;
                 AppendEvent bearer "c" "s2" [("status", JStr "In Transit")]
                   "EV33333333" t1 t1;
                 RemoveEvent bearer "c" "s2" "EV22222222" t1])
    by (repeat constructor).
  split; [exact K|].
  exact (proj1 (tracking_number_stable sample_lib None _ [acme; beta] K)).
Defined.

(** C5, as stated, fails: an append that supplies the status [""] leaves
    the shipment's status at [Created] and gives the new front event the
    status [In Transit]. *)
Lemma append_with_empty_status :
  exists st' u ev rest,
    events_post sample_lib None bearer "c" "s1" [("status", JStr "")]
      "EV33333333" t1 t1 [acme]
    = (st', Sent 201 (JObj u))
    /\ lookup "events" u = Some (JArr (JObj ev :: rest))
    /\ lookup "status" ev = Some (JStr "In Transit")
    /\ lookup "status" u = Some (JStr "Created").
Proof. do 4 eexists. repeat split; vm_compute; reflexivity. Qed.

Lemma append_event_status_witness :
  authMiddleware sample_lib None bearer "c" = None
  /\ findOne "s1" [acme] = Some acme
  /\ exists st' u,
      events_post sample_lib None bearer "c" "s1"
        [("status", JStr "Delivered"); ("location", JStr "NYC")]
        "EV33333333" t1 t1 [acme]
      = (st', Sent 201 (JObj u)).
Proof.
  split; [reflexivity|]. split; [reflexivity|].
  apply (append_event_status sample_lib None bearer "c" "s1"
           [("status", JStr "Delivered"); ("location", JStr "NYC")]
           "EV33333333" t1 t1 [acme] acme); reflexivity.
Defined.

(** C6, as stated, fails: once a patch has set the [events] field of a
    shipment to [null], the removal of an event id that the shipment does
    not have is answered 200 and changes the ledger, from [null] to the
    empty array. *)
Lemma remove_event_makes_a_ledger :
  exists st1 s st2 u,
    shipments_patch sample_lib None bearer "c" "s1" [("events", JNull)] t1
      [acme]
    = (st1, Sent 200 (JObj s))
    /\ findOne "s1" st1 = Some s
    /\ lookup "events" s = Some JNull
    /\ events_delete sample_lib None bearer "c" "s1" "EV99999999" t1 st1
       = (st2, Sent 200 (JObj u))
    /\ lookup "events" u = Some (JArr [])
    /\ lookup "events" u <> lookup "events" s.
Proof.
  do 4 eexists. split; [vm_compute; reflexivity|].
  split; [vm_compute; reflexivity|]. split; [vm_compute; reflexivity|].
  split; [vm_compute; reflexivity|]. split; [vm_compute; reflexivity|].
  vm_compute. discriminate.
Qed.

Lemma remove_event_frame_witness :
  authMiddleware sample_lib None bearer "c" = None
  /\ findOne "s1" [acme] = Some acme
  /\ exists st' u,
      events_delete sample_lib None bearer "c" "s1" "EV99999999" t1 [acme]
      = (st', Sent 200 (JObj u)).
Proof.
  split; [reflexivity|]. split; [reflexivity|].
  refine (proj1 (proj1 (proj2 (remove_event_frame sample_lib None bearer "c"
                                 "s1" "EV99999999" t1 [acme] acme
                                 eq_refl eq_refl))
                   eq_refl eq_refl)
            _ eq_refl _).
  simpl. intuition discriminate.
Defined.


Lemma quote_created_witness :
  checkObject (JObj [("name", JStr "Ann"); ("status", JStr "won");
                     ("createdAt", JStr "1999")]) = true
  /\ exists quotes' doc,
      quotes_create [("name", JStr "Ann"); ("status", JStr "won");
                     ("createdAt", JStr "1999")] t0 "q1" []
      = (quotes', Sent 201 (JObj doc)).
Proof.
  split; [reflexivity|].
  apply (quote_created [("name", JStr "Ann"); ("status", JStr "won");
                        ("createdAt", JStr "1999")] t0 "q1" []);
    reflexivity.
Defined.

Lemma delete_idempotent_witness :
  unique_ids [acme; beta]
  /\ shipments_delete sample_lib None bearer "c" "s1" [acme; beta]
     = ([beta], Sent 200 ok_true)
  /\ findOne "s1" [beta] = None
  /\ shipments_delete sample_lib None bearer "c" "s1" [beta]
     = ([beta], Sent 200 ok_true).
Proof.
  assert (U : unique_ids [acme; beta]).
  { repeat constructor; simpl; intuition discriminate. }
  split; [exact U|].
  exact (delete_idempotent sample_lib None bearer "c" "c" "s1" [acme; beta]
           eq_refl eq_refl U).
Defined.

Lemma append_event_empty_status_witness :
  authMiddleware sample_lib None bearer "c" = None
  /\ findOne "s1" [acme] = Some acme
  /\ lookup "status" [("status", JStr ""); ("location", JStr "NYC")]
     = Some (JStr "")
  /\ events_post sample_lib None bearer "c" "s1"
       [("status", JStr ""); ("location", JStr "NYC")]
       "EV33333333" t1 t1 [acme]
     = events_post sample_lib None bearer "c" "s1"
         (obj_del "status" [("status", JStr ""); ("location", JStr "NYC")])
         "EV33333333" t1 t1 [acme].
Proof.
  split; [reflexivity|]. split; [reflexivity|]. split; [reflexivity|].
  exact (proj1 (append_event_empty_status sample_lib None bearer "c" "s1"
                  [("status", JStr ""); ("location", JStr "NYC")]
                  "EV33333333" t1 t1 [acme] acme eq_refl eq_refl eq_refl)).
Defined.

(** ** Tracking lookup with a parameter of letters and digits *)

Lemma parse_term_plain f c r :
  plain_char c = true ->
  parse_term (S f) (String c r) = quantifier (RChar c) r.
Proof.
  destruct c as [[] [] [] [] [] [] [] []]; intros H;
    try discriminate H; reflexivity.
Qed.

Lemma quantifier_before_plain a c r :
  plain_char c = true ->
  quantifier a (String c r) = Parsed (a, String c r).
Proof.
  destruct c as [[] [] [] [] [] [] [] []]; intros H;
    try discriminate H; reflexivity.
Qed.

Lemma parse_alternative_plain_step f acc c r :
  plain_char c = true ->
  parse_alternative (S (S f)) acc (String c r)
  = match quantifier (RChar c) r with
    | Parsed (t, rest) => parse_alternative (S f) (RSeq acc t) rest
    | SyntaxError => SyntaxError
    | Unsupported => Unsupported
    end.
Proof.
  intros H. change (parse_alternative (S (S f)) acc (String c r))
    with (match String c r with
          | EmptyString => Parsed (acc, String c r)
          | String "|" _ => Parsed (acc, String c r)
          | String ")" _ => Parsed (acc, String c r)
          | _ =>
              match parse_term (S f) (String c r) with
              | Parsed (t, rest) => parse_alternative (S f) (RSeq acc t) rest
              | e => e
              end
          end).
  rewrite (parse_term_plain f c r H).
  destruct c as [[] [] [] [] [] [] [] []]; try discriminate H;
    destruct (quantifier _ r) as [[t rest]| |]; reflexivity.
Qed.

Lemma parse_alternative_literal t : forall f acc,
  plain t = true ->
  parse_alternative (String.length t + 2 + f) acc (t ++ "$")
  = Parsed (RSeq (chars t acc) REol, EmptyString).
Proof.
  induction t as [|c t IH]; intros f acc P.
  - reflexivity.
  - simpl in P. apply andb_true_iff in P as [Pc Pt].
    replace (String.length (String c t) + 2 + f)
      with (S (S (String.length t + 1 + f))) by (simpl; lia).
    change (String c t ++ "$")%string with (String c (t ++ "$")).
    rewrite parse_alternative_plain_step by exact Pc.
    assert (Q : quantifier (RChar c) (t ++ "$")
                = Parsed (RChar c, (t ++ "$")%string)).
    { destruct t as [|d t']; [reflexivity|].
      simpl in Pt. apply andb_true_iff in Pt as [Pd _].
      now apply quantifier_before_plain. }
    rewrite Q. replace (S (String.length t + 1 + f))
      with (String.length t + 2 + f) by lia.
    now rewrite IH.
Qed.

Lemma length_append a b :
  String.length (a ++ b) = String.length a + String.length b.
Proof. induction a; simpl; auto. Qed.

Lemma RegExp_literal t :
  plain t = true ->
  RegExp ("^" ++ t ++ "$") = Parsed (RSeq (chars t (RSeq REmpty RBol)) REol).
Proof.
  intros P. unfold RegExp.
  change ("^" ++ t ++ "$")%string with (String "^" (t ++ "$")).
  change (String.length (String "^" (t ++ "$")))
    with (S (String.length (t ++ "$"))).
  rewrite length_append. simpl String.length.
  replace (4 * S (String.length t + 1) + 4)
    with (S (S (S (String.length t + 2 + (3 * String.length t + 7))))) by lia.
  change (parse_disjunction (S (S (S ?n))) (String "^" ?r))
    with (match parse_alternative (S n) (RSeq REmpty RBol) r with
          | Parsed (a, String "|" r') =>
              match parse_disjunction (S (S n)) r' with
              | Parsed (b, rest) => Parsed (RAlt a b, rest)
              | e => e
              end
          | res => res
          end).
  replace (S (String.length t + 2 + (3 * String.length t + 7)))
    with (String.length t + 2 + S (3 * String.length t + 7)) by lia.
  now rewrite parse_alternative_literal.
Qed.

Lemma matcher_chars t : forall acc st s k,
  matcher (chars t acc) st s k
  = matcher acc st s (fun st' s' => match_literal t st' s' k).
Proof.
  induction t as [|c t IH]; intros acc st s k; simpl chars.
  - reflexivity.
  - rewrite IH. reflexivity.
Qed.

Lemma match_literal_end t : forall st s,
  match_literal t st s
    (fun _ s' => match s' with EmptyString => true | _ => false end)
  = same_ignoring_case t s.
Proof.
  unfold same_ignoring_case.
  induction t as [|c t IH]; intros st s; destruct s as [|d s]; simpl; auto.
  now rewrite IH.
Qed.

Lemma literal_never_later t s :
  search (RSeq (chars t (RSeq REmpty RBol)) REol) false s = false.
Proof.
  induction s as [|d s IH]; simpl; rewrite matcher_chars; simpl; auto.
Qed.

Lemma test_literal t s :
  test (RSeq (chars t (RSeq REmpty RBol)) REol) s = same_ignoring_case t s.
Proof.
  unfold test.
  assert (M : matcher (RSeq (chars t (RSeq REmpty RBol)) REol) true s
                (fun _ _ => true) = same_ignoring_case t s).
  { simpl. rewrite matcher_chars. simpl.
    rewrite <- (match_literal_end t true s). f_equal. }
  destruct s as [|d s]; simpl search.
  - simpl in M. rewrite M. apply orb_false_r.
  - rewrite literal_never_later, orb_false_r. exact M.
Qed.

Lemma regex_matches_literal t v :
  regex_matches (RSeq (chars t (RSeq REmpty RBol)) REol) v
  = equals_ignoring_case t v.
Proof.
  revert v. fix IH 1. intros [| | | s | l | o]; simpl; auto.
  - apply test_literal.
  - induction l as [|x l IHl]; auto. now rewrite IH, IHl.
Qed.

Lemma find_pointwise {A} (f g : A -> bool) l :
  (forall x, f x = g x) -> find f l = find g l.
Proof.
  intros E. induction l as [|x l IH]; simpl; auto. now rewrite E, IH.
Qed.

(** When the trimmed parameter consists of letters and digits only, the
    lookup is the exact one: the first shipment, in the order of the
    index, whose tracking number is the parameter up to case, or 404
    [not_found] when there is none. *)
Lemma track_plain_parameter param st :
  plain (trim param) = true ->
  track param st
  = Some match find (fun d => match lookup "trackingNumber" d with
                              | Some v => equals_ignoring_case (trim param) v
                              | None => false
                              end) (getAllData st) with
         | Some s => Sent 200 (JObj s)
         | None => Sent 404 (error "not_found")
         end.
Proof.
  intros P. unfold track. rewrite (RegExp_literal _ P).
  unfold findOne_tracking.
  rewrite (find_pointwise _
             (fun d => match lookup "trackingNumber" d with
                       | Some v => equals_ignoring_case (trim param) v
                       | None => false
                       end)).
  - destruct (find _ (getAllData st)); reflexivity.
  - intros d. destruct (lookup "trackingNumber" d); auto.
    apply regex_matches_literal.
Qed.

(** ** The invariant of the shipment store *)

Lemma id_taken_fresh n st :
  id_taken (JStr n) st = false -> ~ In n (flat_map string_keys st).
Proof.
  unfold id_taken. cbn [keys_of accepts]. rewrite andb_true_r, negb_involutive.
  intros H I. rewrite <- strings_among_held in I.
  apply existsb_key in I. congruence.
Qed.

Lemma string_keys_drawn d i :
  lookup "_id" d = Some (JStr i) -> string_keys d = [i].
Proof. unfold string_keys, index_keys. now intros ->. Qed.

Lemma insert_ok newid doc st st' d :
  store_ok st -> lookup "_id" doc = None ->
  insert newid doc st = Some (st', d) -> store_ok st'.
Proof.
  intros [U V] L. unfold insert. rewrite L, lookup_obj_set_eq.
  destruct (checkObject _) eqn:C; [|discriminate].
  destruct (id_taken _ st) eqn:T; [discriminate|]. simpl.
  intros [= <- <-]. split.
  - unfold unique_ids in *. rewrite flat_map_app. simpl.
    rewrite (string_keys_drawn _ newid) by apply lookup_obj_set_eq.
    apply NoDup_app; auto.
    + repeat constructor. simpl. tauto.
    + intros x Hx [<-|[]]. revert Hx. now apply id_taken_fresh.
  - apply Forall_app. auto.
Qed.

Lemma modify_valid inside fs d d' :
  modify inside fs d = Some d' -> checkObject (JObj d') = true.
Proof.
  unfold modify. destruct (set_fields inside fs d) as [x|]; [|discriminate].
  destruct (checkObject (JObj x)) eqn:C; [|discriminate].
  destruct (strict_eq _ _); [|discriminate]. now intros [= <-].
Qed.

Lemma update_valid inside id fs st st' :
  Forall (fun d => checkObject (JObj d) = true) st ->
  update inside id fs st = Some st' ->
  Forall (fun d => checkObject (JObj d) = true) st'.
Proof.
  intros V. revert st'. induction V as [|d st Vd V IH]; simpl; intros st'.
  - now intros [= <-].
  - destruct (has_id id d).
    + destruct (modify inside fs d) as [d'|] eqn:M; [|discriminate].
      intros [= <-]. constructor; auto. eapply modify_valid; eauto.
    + destruct (update inside id fs st) as [st''|]; [|discriminate].
      intros [= <-]. constructor; auto.
Qed.

Lemma update_ok inside id fs st st' :
  store_ok st -> update inside id fs st = Some st' -> store_ok st'.
Proof.
  intros [U V] H. split.
  - unfold unique_ids.
    now rewrite (same_ids_keys _ _ (update_keeps_ids _ _ _ _ _ H)).
  - eapply update_valid; eauto.
Qed.

Lemma remove_ok id st : store_ok st -> store_ok (remove id st).
Proof.
  intros [U V]. split; [now apply unique_ids_remove|]. clear U.
  induction V as [|d st Vd V IH]; simpl; auto.
  destruct (has_id id d); auto.
Qed.

Lemma findOne_ok id st s :
  store_ok st -> findOne id st = Some s -> checkObject (JObj s) = true.
Proof.
  intros [_ V] F. apply find_some in F as [I _].
  rewrite Forall_forall in V. auto.
Qed.

Section Invariant.

Variable lib : Lib.
Variable env : option string.

Lemma mutate_ok m st : store_ok st -> store_ok (mutate lib env m st).
Proof.
  intros K.
  destruct m as [auth clock id body now
                | auth clock id body eid time_now now
                | auth clock id eventId now]; simpl.
  - unfold shipments_patch.
    destruct (protected_store lib env auth clock st
                (shipments_patch_handler lib id body now st)) as [-> | ->];
      [exact K|].
    unfold shipments_patch_handler.
    destruct (update _ _ _ _) as [st'|] eqn:U; [|exact K].
    simpl. eapply update_ok; eauto.
  - unfold events_post.
    destruct (protected_store lib env auth clock st
                (events_post_handler lib id body eid time_now now st))
      as [-> | ->]; [exact K|].
    unfold events_post_handler.
    destruct (findOne id st); [|exact K].
    destruct (update _ _ _ _) as [st'|] eqn:U; [|exact K].
    simpl. eapply update_ok; eauto.
  - unfold events_delete.
    destruct (protected_store lib env auth clock st
                (events_delete_handler lib id eventId now st))
      as [-> | ->]; [exact K|].
    unfold events_delete_handler.
    destruct (findOne id st); [|exact K].
    destruct (js_or _ _) as [[| | | |l|]|]; try exact K.
    destruct (filter_events eventId l); [|exact K].
    destruct (update _ _ _ _) as [st'|] eqn:U; [|exact K].
    simpl. eapply update_ok; eauto.
Qed.

(** Every request leaves the shipment store with one valid document per
    identifier. *)
Lemma serve_ok r st : store_ok st -> store_ok (serve lib env r st).
Proof.
  intros K.
  destruct r as [auth clock body now stamp rnd eid newid | auth clock id | m];
    simpl.
  - unfold shipments_create.
    destruct (protected_store lib env auth clock st
                (shipments_create_handler body now stamp rnd eid newid st))
      as [-> | ->]; [exact K|].
    unfold shipments_create_handler.
    destruct (insert _ _ _) as [[st' d]|] eqn:I; [|exact K].
    simpl. eapply insert_ok; eauto using shipment_doc_no_id.
  - unfold shipments_delete.
    destruct (protected_store lib env auth clock st
                (shipments_delete_handler id st)) as [-> | ->];
      [exact K|].
    simpl. now apply remove_ok.
  - now apply mutate_ok.
Qed.

(** So does every sequence of requests, in particular on the empty
    store. *)
Lemma serve_all_ok rs : forall st,
  store_ok st -> store_ok (fold_left (fun st r => serve lib env r st) rs st).
Proof. induction rs as [|r rs IH]; simpl; auto using serve_ok. Qed.

Lemma reachable_ok rs :
  store_ok (fold_left (fun st r => serve lib env r st) rs []).
Proof. apply serve_all_ok. split; constructor. Qed.

(** A mutation leaves the store as it is or is an update of it. *)
Lemma mutate_is_update m st :
  mutate lib env m st = st
  \/ exists id fs,
       update (set_inside lib) id fs st = Some (mutate lib env m st).
Proof.
  destruct m as [auth clock id body now
                | auth clock id body eid time_now now
                | auth clock id eventId now]; simpl.
  - unfold shipments_patch.
    destruct (protected_store lib env auth clock st
                (shipments_patch_handler lib id body now st)) as [-> | ->];
      [now left|].
    unfold shipments_patch_handler.
    destruct (update _ _ _ _) as [st'|] eqn:U; [|now left].
    right. eauto.
  - unfold events_post.
    destruct (protected_store lib env auth clock st
                (events_post_handler lib id body eid time_now now st))
      as [-> | ->]; [now left|].
    unfold events_post_handler.
    destruct (findOne id st); [|now left].
    destruct (update _ _ _ _) as [st'|] eqn:U; [|now left].
    right. eauto.
  - unfold events_delete.
    destruct (protected_store lib env auth clock st
                (events_delete_handler lib id eventId now st))
      as [-> | ->]; [now left|].
    unfold events_delete_handler.
    destruct (findOne id st); [|now left].
    destruct (js_or _ _) as [[| | | |l|]|]; try now left.
    destruct (filter_events eventId l); [|now left].
    destruct (update _ _ _ _) as [st'|] eqn:U; [|now left].
    right. eauto.
Qed.

Lemma remove_drawn id st :
  Forall drawn_id st -> Forall drawn_id (remove id st).
Proof.
  induction 1 as [|d st Hd H IH]; simpl; auto.
  destruct (has_id id d); auto.
Qed.

(** Every request leaves the shipments with the string [_id]s that the
    datastore drew: creation inserts a document without [_id], and no
    update changes one. *)
Lemma serve_drawn r st :
  Forall drawn_id st -> Forall drawn_id (serve lib env r st).
Proof.
  intros K.
  destruct r as [auth clock body now stamp rnd eid newid | auth clock id | m];
    simpl.
  - unfold shipments_create.
    destruct (protected_store lib env auth clock st
                (shipments_create_handler body now stamp rnd eid newid st))
      as [-> | ->]; [exact K|].
    unfold shipments_create_handler.
    destruct (insert _ _ _) as [[st' d]|] eqn:I; [|exact K].
    simpl. apply insert_some in I as [-> ->].
    rewrite shipment_doc_no_id. apply Forall_app. split; [exact K|].
    constructor; [|constructor]. exists newid. apply lookup_obj_set_eq.
  - unfold shipments_delete.
    destruct (protected_store lib env auth clock st
                (shipments_delete_handler id st)) as [-> | ->];
      [exact K|].
    simpl. now apply remove_drawn.
  - destruct (mutate_is_update m st) as [-> | (id & fs & U)]; [exact K|].
    exact (same_ids_drawn _ _ (update_keeps_ids _ _ _ _ _ U) K).
Qed.

Lemma serve_all_drawn rs : forall st,
  Forall drawn_id st ->
  Forall drawn_id (fold_left (fun st r => serve lib env r st) rs st).
Proof. induction rs as [|r rs IH]; simpl; auto using serve_drawn. Qed.

(** So the shipment that an id finds, in a store that requests built from
    the empty one, has the id for [_id]. *)
Lemma reachable_drawn rs id s :
  findOne id (fold_left (fun st r => serve lib env r st) rs []) = Some s ->
  lookup "_id" s = Some (JStr id).
Proof.
  intros F. pose proof (serve_all_drawn rs [] (Forall_nil _)) as D.
  pose proof (findOne_has_id _ _ _ F) as H.
  apply find_some in F as [I _]. rewrite Forall_forall in D.
  exact (drawn_has_id id s (D s I) H).
Qed.

End Invariant.

(** * Further properties of the server *)

(** ** The middleware *)

Lemma startsWith_split p s :
  startsWith p s = true -> s = (p ++ slice (String.length p) s)%string.
Proof.
  revert s. induction p as [|a p IH]; intros s; simpl.
  - reflexivity.
  - destruct s as [|b s]; [discriminate|]. intros H.
    apply andb_true_iff in H as [E H]. apply Ascii.eqb_eq in E. subst b.
    simpl. now rewrite <- IH.
Qed.

Section Middleware.

Variable lib : Lib.
Variable env : option string.

(** X1.  [authMiddleware] lets a request through exactly when its
    authorization header is [Bearer ] followed by a non-empty token that
    verifies; a non-empty bearer token that does not verify is refused
    with 401 [invalid_token], and anything else (no header, another
    scheme, no token) with 401 [missing_token]. *)
Theorem authMiddleware_decides auth clock :
  (authMiddleware lib env auth clock = None <->
   exists token,
     auth = Some ("Bearer " ++ token)%string /\ token <> ""
     /\ jwt_verify lib token (JWT_SECRET env) clock = true)
  /\ (forall token,
        auth = Some ("Bearer " ++ token)%string -> token <> "" ->
        jwt_verify lib token (JWT_SECRET env) clock = false ->
        authMiddleware lib env auth clock
        = Some (Sent 401 (error "invalid_token")))
  /\ ((forall token, auth = Some ("Bearer " ++ token)%string -> token = "") ->
      authMiddleware lib env auth clock
      = Some (Sent 401 (error "missing_token"))).
Proof.
  split; [split|split].
  - unfold authMiddleware. intros H.
    destruct auth as [h|]; [|discriminate].
    destruct (startsWith "Bearer " h) eqn:B; [|discriminate].
    apply startsWith_split in B. simpl String.length in B.
    destruct (String.eqb (slice 7 h) "") eqn:E; [discriminate|].
    destruct (jwt_verify _ _ _ _) eqn:V; [|discriminate].
    exists (slice 7 h). apply String.eqb_neq in E. now rewrite <- B.
  - intros (token & -> & N & V). unfold authMiddleware.
    change (startsWith "Bearer " ("Bearer " ++ token)) with true.
    change (slice 7 ("Bearer " ++ token)) with token. cbv beta iota zeta.
    apply String.eqb_neq in N. now rewrite N, V.
  - intros token -> N V. unfold authMiddleware.
    change (startsWith "Bearer " ("Bearer " ++ token)) with true.
    change (slice 7 ("Bearer " ++ token)) with token. cbv beta iota zeta.
    apply String.eqb_neq in N. now rewrite N, V.
  - intros H. unfold authMiddleware.
    destruct auth as [h|]; [|reflexivity].
    destruct (startsWith "Bearer " h) eqn:B; [|reflexivity].
    apply startsWith_split in B. simpl String.length in B.
    rewrite (H (slice 7 h)); [reflexivity | now rewrite <- B].
Qed.

End Middleware.

(** ** The routing *)

Section Routing.

Variable lib : Lib.
Variable env : option string.
Variable cmps : Comparisons.

Lemma db_eta db :
  {| users := users db; shipments := shipments db; quotes := quotes db |} = db.
Proof. now destruct db. Qed.

(** X2.  A request on a route behind the middleware that the middleware
    refuses is answered with the middleware's 401 and leaves the three
    stores as they were. *)
Theorem refused_request_changes_nothing a db auth clock r :
  api_auth a = Some (auth, clock) ->
  authMiddleware lib env auth clock = Some r ->
  handle lib env cmps a db = (db, Some r)
  /\ exists code, r = Sent 401 (error code).
Proof.
  intros A R. split; [|eapply authMiddleware_refuses; eauto].
  destruct a as [c|b k|p|b n i|au k|au k i b|au k i|au k|q|]; simpl in A;
    try discriminate.
  1-4: injection A as -> ->; simpl;
    unfold quotes_list, quotes_patch, quotes_delete, shipments_list, protected;
    rewrite R; now rewrite db_eta.
  destruct q as [au k b n s rn e i | au k i | [au k i b n | au k i b e t n | au k i e n]];
    simpl in A; injection A as -> ->; simpl;
    unfold shipments_create, shipments_delete, shipments_patch, events_post,
      events_delete, protected;
    rewrite R; now rewrite db_eta.
Qed.

(** Each store is written only by its own routes: the credential
    store by registration, the shipment store by the shipment routes, the
    quote store by quote creation, patch and delete.  Login, tracking,
    the two listings and the health check write nothing. *)
Lemma stores_are_isolated a db :
  (writes_users a = false -> users (fst (handle lib env cmps a db)) = users db)
  /\ (writes_shipments a = false ->
      shipments (fst (handle lib env cmps a db)) = shipments db)
  /\ (writes_quotes a = false ->
      quotes (fst (handle lib env cmps a db)) = quotes db)
  /\ (forall auth clock,
        a = GetQuotes auth clock \/ a = GetShipments auth clock ->
        fst (handle lib env cmps a db) = db).
Proof.
  assert (L : forall auth clock st,
             fst (protected lib env auth clock st (list_handler st)) = st).
  { intros. unfold protected, list_handler.
    now destruct (authMiddleware _ _ _ _). }
  repeat split.
  - destruct a; simpl; try discriminate; intros _;
      try reflexivity;
      match goal with |- context [let (_, _) := ?x in _] => destruct x end;
      reflexivity.
  - destruct a as [c|b k|p|b n i|au k|au k i b|au k i|au k|q|]; simpl;
      try discriminate; intros _; try reflexivity;
      try (match goal with
           | |- context [let (_, _) := ?x in _] => destruct x
           end; reflexivity).
    unfold shipments_list. specialize (L au k (shipments db)).
    destruct (protected _ _ _ _ _ _). simpl in *. exact L.
  - destruct a as [c|b k|p|b n i|au k|au k i b|au k i|au k|q|]; simpl;
      try discriminate; intros _; try reflexivity;
      try (match goal with
           | |- context [let (_, _) := ?x in _] => destruct x
           end; reflexivity).
    unfold quotes_list. specialize (L au k (quotes db)).
    destruct (protected _ _ _ _ _ _). simpl in *. exact L.
  - intros auth clock [-> | ->]; simpl;
      unfold quotes_list, shipments_list, list_handler, protected;
      destruct (authMiddleware _ _ _ _); simpl; apply db_eta.
Qed.

(** A registration leaves the credential store as it is, or finds
    nothing in it and adds one credential, under the string that the
    datastore drew. *)
Lemma register_keeps_or_adds body now salt newid clock us :
  fst (register lib env body now salt newid clock us) = us
  \/ (count us = 0 /\ exists u,
        fst (register lib env body now salt newid clock us) = us ++ [u]
        /\ drawn_id u).
Proof.
  unfold register. destruct (_ || _); [now left|].
  destruct (0 <? count us)%nat eqn:C; [now left|].
  apply Nat.ltb_ge in C.
  destruct (lookup "password" body) as [[| | |pw| |]|]; try now left.
  destruct (lookup "email" body) as [[| | |em| |]|]; try now left.
  destruct (insert _ _ _) as [[us' u]|] eqn:I; [|now left].
  right. split; [lia|]. exists u.
  apply insert_some in I as [-> ->]. split; [reflexivity|].
  exists newid. cbn [literal obj_put str lookup].
  apply lookup_obj_set_eq.
Qed.

Lemma handle_users a db :
  users (fst (handle lib env cmps a db)) = users db
  \/ (count (users db) = 0
      /\ exists u, users (fst (handle lib env cmps a db)) = users db ++ [u]
                   /\ drawn_id u).
Proof.
  destruct a as [c|b k|p|b n i|au k|au k i b|au k i|au k|q|]; simpl;
    try (now left);
    try (match goal with |- context [let (_, _) := ?x in _] => destruct x end;
         now left).
  unfold serve_register.
  pose proof (register_keeps_or_adds (reg_body c) (reg_now c) (reg_salt c)
                (reg_newid c) (reg_clock c) (users db)) as H.
  destruct (register _ _ _ _ _ _ _ _) as [u r]. exact H.
Qed.

(** X4.  The server keeps a single administrator: whatever requests are
    served, a credential store in which the datastore counts a record (so
    one that holds a record under the string [_id] that the datastore
    drew) is never changed again, and one that is empty ends with at most
    one record. *)
Theorem single_admin reqs db :
  (0 < count (users db) ->
   users (handle_all lib env cmps reqs db) = users db)
  /\ (Forall drawn_id (users db) -> users db <> [] ->
      users (handle_all lib env cmps reqs db) = users db)
  /\ (users db = [] -> length (users (handle_all lib env cmps reqs db)) <= 1).
Proof.
  assert (C : forall a reqs db,
             handle_all lib env cmps (a :: reqs) db
             = handle_all lib env cmps reqs (fst (handle lib env cmps a db)))
    by reflexivity.
  assert (K : forall reqs db, 0 < count (users db) ->
                users (handle_all lib env cmps reqs db) = users db).
  { intros rs. induction rs as [|a rs IH]; intros d N; auto.
    rewrite C. destruct (handle_users a d) as [E | [E _]]; [|lia].
    rewrite IH; [exact E | now rewrite E]. }
  split; [apply K|]. split.
  { intros D N. apply K. destruct (users db) as [|u us]; [now elim N|].
    inversion D as [|? ? Du _]; subst.
    change (u :: us) with ([] ++ u :: us).
    rewrite count_entries, entries_app, length_app.
    destruct Du as [i L]. unfold entries at 2, index_keys. simpl.
    rewrite L. simpl. lia. }
  revert db. induction reqs as [|a reqs IH]; intros db E.
  - unfold handle_all. simpl. rewrite E. simpl. lia.
  - rewrite C. destruct (handle_users a db) as [E' | [_ (u & E' & D)]].
    + apply IH. now rewrite E'.
    + rewrite K; rewrite E'.
      * rewrite E. simpl. lia.
      * rewrite (count_app_drawn _ _ D). lia.
Qed.

End Routing.

(** ** Login *)

Lemma toLowerCase_empty s : toLowerCase s = "" -> s = "".
Proof. destruct s; [reflexivity | discriminate]. Qed.

Section Login.

Variable lib : Lib.
Variable env : option string.
Variable cmps : Comparisons.

(** X5.  Registration and login fit together: after the first
    registration with email [em] and password [pw], a login with the
    email in any letter case and a password that the hash library accepts
    for the stored hash is answered 200 with a token and the registered
    identifier and lower-cased email; a password that it does not accept
    is answered 401 [invalid_credentials]. *)
Theorem registered_admin_logs_in body now salt newid clock em pw
    body' clock' em' pw' :
  lookup "email" body = Some (JStr em) -> em <> "" ->
  lookup "password" body = Some (JStr pw) -> pw <> "" ->
  lookup "email" body' = Some (JStr em') ->
  toLowerCase em' = toLowerCase em ->
  lookup "password" body' = Some (JStr pw') -> pw' <> "" ->
  exists user,
    fst (register lib env body now salt newid clock []) = [user]
    /\ login lib env cmps body' clock' [user]
       = if bcrypt_compare cmps pw' (bcrypt_hash lib pw 10 salt)
         then Sent 200
                (JObj [("token", JStr (signToken lib env user clock'));
                       ("user", JObj [("id", JStr newid);
                                      ("email", JStr (toLowerCase em))])])
         else Sent 401 (error "invalid_credentials").
Proof.
  intros E1 N1 E2 N2 E1' L E2' N2'.
  destruct (register_first lib env body now salt newid clock em pw
              E1 N1 E2 N2) as (user & token & R & I & M & P & _).
  exists user. rewrite R. split; [reflexivity|].
  assert (N1' : em' <> "").
  { intros ->. simpl in L. symmetry in L.
    now apply toLowerCase_empty in L. }
  unfold login. rewrite E1', E2'.
  apply String.eqb_neq in N1', N2'. simpl truthy. rewrite N1', N2'.
  cbv beta iota zeta. simpl negb. simpl orb. cbv iota.
  unfold findOne_email.
  rewrite (getAllData_one user (JStr newid))
    by (unfold index_keys; now rewrite I).
  simpl find. rewrite M. simpl value_is.
  rewrite L, String.eqb_refl. rewrite P.
  destruct (bcrypt_compare _ _ _); [|reflexivity].
  unfold literal. simpl. rewrite I, M. reflexivity.
Qed.

(** X6.  A login is answered 200 only for a stored credential: its email
    is the lower-cased email of the body, its stored hash is one the
    password compares true with, and the reply carries the token with
    that credential's identifier and email, and nothing else of it. *)
Theorem login_needs_a_credential body clock us x :
  login lib env cmps body clock us = Sent 200 x ->
  exists user em pw hash,
    In user us
    /\ lookup "email" body = Some (JStr em)
    /\ lookup "password" body = Some (JStr pw)
    /\ findOne_email (toLowerCase em) us = Some user
    /\ lookup "password" user = Some (JStr hash)
    /\ bcrypt_compare cmps pw hash = true
    /\ x = JObj [("token", JStr (signToken lib env user clock));
                 ("user", JObj (literal [("id", lookup "_id" user);
                                         ("email", lookup "email" user)]
                                  []))].
Proof.
  unfold login. destruct (_ || _); [discriminate|].
  destruct (lookup "email" body) as [[| | |em| |]|] eqn:E1; try discriminate.
  destruct (findOne_email (toLowerCase em) us) as [user|] eqn:F;
    [|discriminate].
  destruct (lookup "password" body) as [[| | |pw| |]|] eqn:E2;
    try discriminate.
  destruct (lookup "password" user) as [[| | |hash| |]|] eqn:P;
    try discriminate.
  destruct (bcrypt_compare cmps pw hash) eqn:C; [|discriminate].
  intros [= <-]. exists user, em, pw, hash.
  split; [unfold findOne_email in F; apply find_some in F as [F _];
          now apply getAllData_In in F|].
  repeat (split; [reflexivity || assumption|]). reflexivity.
Qed.

(** X7.  A failed login does not tell why: with an email and a password
    that are non-empty strings, an email that no credential carries and a
    password that does not compare with the stored hash get the same
    reply, 401 [invalid_credentials]. *)
Theorem login_failures_look_alike body clock us em pw :
  lookup "email" body = Some (JStr em) -> em <> "" ->
  lookup "password" body = Some (JStr pw) -> pw <> "" ->
  (findOne_email (toLowerCase em) us = None ->
   login lib env cmps body clock us = Sent 401 (error "invalid_credentials"))
  /\ (forall user hash,
        findOne_email (toLowerCase em) us = Some user ->
        lookup "password" user = Some (JStr hash) ->
        bcrypt_compare cmps pw hash = false ->
        login lib env cmps body clock us
        = Sent 401 (error "invalid_credentials")).
Proof.
  intros E1 N1 E2 N2. apply String.eqb_neq in N1, N2.
  split.
  - intros F. unfold login. rewrite E1, E2. simpl truthy. rewrite N1, N2.
    simpl. now rewrite F.
  - intros user hash F P C. unfold login. rewrite E1, E2. simpl truthy.
    rewrite N1, N2. simpl. now rewrite F, P, C.
Qed.

End Login.

(** ** Tracking numbers and the tracking lookup *)

Lemma base36_char_upper c :
  base36_char c = true ->
  plain_char (upper_char c) = true /\ upper_char (upper_char c) = upper_char c.
Proof.
  destruct c as [[] [] [] [] [] [] [] []]; intros H;
    try discriminate H; split; reflexivity.
Qed.

Lemma in_alphabet_upper c :
  in_alphabet c = true -> plain_char c = true /\ upper_char c = c.
Proof.
  destruct c as [[] [] [] [] [] [] [] []]; intros H;
    try discriminate H; split; reflexivity.
Qed.

Lemma plain_append a b : plain (a ++ b) = plain a && plain b.
Proof.
  induction a as [|c a IH]; simpl; auto. now rewrite IH, andb_assoc.
Qed.

Lemma toUpperCase_append a b :
  toUpperCase (a ++ b) = (toUpperCase a ++ toUpperCase b)%string.
Proof. induction a as [|c a IH]; simpl; congruence. Qed.

Lemma toUpperCase_length a : String.length (toUpperCase a) = String.length a.
Proof. induction a as [|c a IH]; simpl; congruence. Qed.

Lemma base36_upper s :
  base36 s = true ->
  plain (toUpperCase s) = true /\ toUpperCase (toUpperCase s) = toUpperCase s.
Proof.
  induction s as [|c s IH]; simpl; [auto|]. intros H.
  apply andb_true_iff in H as [Hc Hs].
  destruct (base36_char_upper c Hc) as [P U], (IH Hs) as [P' U'].
  now rewrite P, P', U, U'.
Qed.

Lemma over_alphabet_upper s :
  over_alphabet s = true -> plain s = true /\ toUpperCase s = s.
Proof.
  induction s as [|c s IH]; simpl; [auto|]. intros H.
  apply andb_true_iff in H as [Hc Hs].
  destruct (in_alphabet_upper c Hc) as [P U], (IH Hs) as [P' U'].
  now rewrite P, P', U, U'.
Qed.

Lemma tracking_number_plain stamp rnd :
  base36 stamp = true -> nanoid_ok rnd = true ->
  plain (trackingNumber stamp rnd) = true.
Proof.
  intros B N. unfold nanoid_ok in N. apply andb_true_iff in N as [_ A].
  destruct (base36_upper stamp B) as [P _].
  destruct (over_alphabet_upper rnd A) as [P' _].
  unfold trackingNumber. simpl. now rewrite plain_append, P, P'.
Qed.

(** X8.  A tracking number made from a base-36 time stamp and a
    [nanoid] begins with [SC], is twelve characters longer than the stamp
    and consists of upper-case letters and digits only. *)
Theorem tracking_number_format stamp rnd :
  base36 stamp = true -> nanoid_ok rnd = true ->
  startsWith "SC" (trackingNumber stamp rnd) = true
  /\ String.length (trackingNumber stamp rnd) = 12 + String.length stamp
  /\ plain (trackingNumber stamp rnd) = true
  /\ toUpperCase (trackingNumber stamp rnd) = trackingNumber stamp rnd.
Proof.
  intros B N. unfold nanoid_ok in N. apply andb_true_iff in N as [L A].
  apply Nat.eqb_eq in L.
  destruct (base36_upper stamp B) as [P U].
  destruct (over_alphabet_upper rnd A) as [P' U'].
  unfold trackingNumber. split; [reflexivity|]. split; [|split].
  - simpl. rewrite length_append, toUpperCase_length, L. lia.
  - simpl. now rewrite plain_append, P, P'.
  - simpl. now rewrite toUpperCase_append, U, U'.
Qed.

Lemma plain_char_upper d :
  plain_char d = true ->
  is_upper (upper_char d) || is_digit (upper_char d) = true.
Proof.
  destruct d as [[] [] [] [] [] [] [] []]; intros H; try discriminate H;
    reflexivity.
Qed.

Lemma upper_char_plain c :
  is_upper (upper_char c) || is_digit (upper_char c) = true ->
  plain_char c = true.
Proof.
  destruct c as [[] [] [] [] [] [] [] []]; intros H; try discriminate H;
    reflexivity.
Qed.

Lemma plain_char_same_case c d :
  plain_char d = true -> upper_char c = upper_char d -> plain_char c = true.
Proof.
  intros P E. apply upper_char_plain. rewrite E. now apply plain_char_upper.
Qed.

Lemma plain_same_case a : forall b,
  plain b = true -> same_ignoring_case a b = true -> plain a = true.
Proof.
  unfold same_ignoring_case.
  induction a as [|c a IH]; intros [|d b]; simpl; try discriminate; auto.
  intros P E. apply andb_true_iff in P as [Pd Pb].
  apply andb_true_iff in E as [Ec Eb]. apply Ascii.eqb_eq in Ec.
  rewrite (plain_char_same_case c d Pd Ec). simpl. eauto.
Qed.

Lemma find_app_last {A} (f : A -> bool) l x :
  (forall y, In y l -> f y = false) -> f x = true ->
  find f (l ++ [x]) = Some x.
Proof.
  induction l as [|y l IH]; simpl; intros N T.
  - now rewrite T.
  - rewrite (N y) by auto. apply IH; auto.
Qed.

(** X10.  A created shipment can be tracked: when no earlier shipment has
    the tracking number up to case, GET /api/track with the new tracking
    number, in any letter case and with spaces around it, is answered 200
    with the shipment that the creation returned. *)
Theorem created_shipment_is_tracked lib env auth clock body now stamp rnd
    eid newid st st' doc param :
  base36 stamp = true -> nanoid_ok rnd = true ->
  shipments_create lib env auth clock body now stamp rnd eid newid st
  = (st', Sent 201 (JObj doc)) ->
  same_ignoring_case (trim param) (trackingNumber stamp rnd) = true ->
  (forall d, In d st -> tracked_as (trim param) d = false) ->
  track param st' = Some (Sent 200 (JObj doc)).
Proof.
  intros B N C S F.
  pose proof (tracking_number_plain stamp rnd B N) as P.
  apply shipments_create_created in C as [C ->]. injection C as ->.
  pose proof (plain_same_case _ _ P S) as Pp.
  rewrite (track_plain_parameter _ _ Pp). fold (tracked_as (trim param)).
  set (doc := obj_set "_id" (JStr newid)
                (shipment_doc body now (trackingNumber stamp rnd) eid)).
  assert (T : tracked_as (trim param) doc = true).
  { unfold tracked_as, doc, shipment_doc, literal. lookups. exact S. }
  rewrite (find_only (tracked_as (trim param)) _ doc); auto.
  - apply getAllData_In. split; [apply in_or_app; right; simpl; auto|].
    unfold index_keys, doc. rewrite lookup_obj_set_eq. discriminate.
  - intros y I Ty. apply getAllData_In in I as [I _].
    apply in_app_or in I as [I|[<-|[]]]; auto.
    rewrite (F y I) in Ty. discriminate.
Qed.

Lemma getAllData_drawn d st :
  Forall drawn_id st -> In d (getAllData st) <-> In d st.
Proof.
  intros D. rewrite getAllData_In. split; [tauto|]. intros I. split; auto.
  rewrite Forall_forall in D. destruct (D d I) as [i L].
  unfold index_keys. rewrite L. discriminate.
Qed.

(** X9.  A lookup string of letters and digits is looked up exactly:
    when the trimmed parameter has no other character, the reply is 200
    with the first shipment, in the order of the index on [_id], whose
    tracking number is the parameter up to the case of its letters (so a
    200 reply always carries such a shipment of the store), and 404
    [not_found] exactly when the index holds none; in a store whose
    shipments all have the string [_id] that the datastore drew, exactly
    when the store has none. *)
Theorem track_is_exact param st :
  plain (trim param) = true ->
  track param st
  = Some match find (tracked_as (trim param)) (getAllData st) with
         | Some s => Sent 200 (JObj s)
         | None => Sent 404 (error "not_found")
         end
  /\ (forall s, track param st = Some (Sent 200 (JObj s)) ->
                In s st /\ tracked_as (trim param) s = true)
  /\ (track param st = Some (Sent 404 (error "not_found")) <->
      forall d, In d (getAllData st) -> tracked_as (trim param) d = false)
  /\ (Forall drawn_id st ->
      (track param st = Some (Sent 404 (error "not_found")) <->
       forall d, In d st -> tracked_as (trim param) d = false)).
Proof.
  intros P. pose proof (track_plain_parameter param st P) as T.
  fold (tracked_as (trim param)) in T. split; [exact T|].
  assert (N : track param st = Some (Sent 404 (error "not_found")) <->
              forall d, In d (getAllData st) ->
                        tracked_as (trim param) d = false).
  { rewrite T.
    destruct (find (tracked_as (trim param)) (getAllData st)) as [s0|] eqn:F.
    - split; [discriminate|]. intros N. apply find_some in F as [I E].
      rewrite (N s0 I) in E. discriminate.
    - split; [|reflexivity]. intros _ d I. now apply (find_none _ _ F). }
  split; [|split; [exact N|]].
  - rewrite T.
    destruct (find (tracked_as (trim param)) (getAllData st)) as [s0|] eqn:F;
      [|discriminate].
    intros s [= <-]. apply find_some in F as [I E].
    apply getAllData_In in I as [I _]. auto.
  - intros D. rewrite N. split; intros H d I; apply H;
      now apply (getAllData_drawn d st D).
Qed.

(** X11.  A lookup string that begins, once trimmed, with one of the
    quantifiers [*], [+], [?] makes the pattern [^*...] invalid: the
    constructor throws and the handler sends no reply. *)
Theorem track_rejects_leading_quantifier param c rest st :
  trim param = String c rest ->
  c = "*"%char \/ c = "+"%char \/ c = "?"%char ->
  track param st = Some Rejected.
Proof.
  intros T C. unfold track. rewrite T. unfold RegExp.
  change ("^" ++ String c rest ++ "$")%string
    with (String "^" (String c (rest ++ "$"))).
  set (n := String.length (String "^" (String c (rest ++ "$")))).
  replace (4 * n + 4) with (S (S (S (S (4 * n))))) by lia.
  destruct C as [-> | [-> | ->]]; reflexivity.
Qed.

(** ** The event ledger *)

Lemma obj_set_same k v o : lookup k o = Some v -> obj_set k v o = o.
Proof.
  induction o as [|[k' v'] o IH]; simpl; [discriminate|].
  destruct (String.eqb k k') eqn:E.
  - apply String.eqb_eq in E. now intros [= ->]; subst.
  - intros H. now rewrite IH.
Qed.

Lemma filter_events_absent eventId l :
  ~ In JNull l -> Forall (fun ev => event_has_id eventId ev = false) l ->
  filter_events eventId l = Some l.
Proof.
  intros N H. induction H as [|ev l E _ IH]; simpl; auto.
  rewrite IH by (simpl in N; tauto).
  destruct ev; simpl in *; try reflexivity; [tauto|]. now rewrite E.
Qed.

Lemma filter_events_gone eventId l l' :
  filter_events eventId l = Some l' ->
  ~ In JNull l' /\ Forall (fun ev => event_has_id eventId ev = false) l'.
Proof.
  revert l'. induction l as [|ev l IH]; simpl; intros l'.
  - intros [= <-]. split; [tauto | constructor].
  - destruct (keeps eventId ev) as [b|] eqn:K; [|discriminate].
    destruct (filter_events eventId l) as [r|]; [|discriminate].
    intros [= <-]. destruct (IH r eq_refl) as [N F].
    destruct b; [|auto]. split.
    + simpl. intros [E|E]; [|tauto]. subst ev. discriminate.
    + constructor; auto.
      destruct ev; simpl in *; try reflexivity.
      injection K as K. now apply negb_true_iff in K.
Qed.

Section Ledger.

Variable lib : Lib.
Variable env : option string.

(** X12.  Appending an event touches three fields of the shipment and no
    other: in every 201 reply each field other than [events], [updatedAt]
    and [status] (so the identifier, the tracking number, [createdAt])
    is as it was stored. *)
Theorem append_event_frame auth clock id body eid time_now now st st' x :
  events_post lib env auth clock id body eid time_now now st
  = (st', Sent 201 x) ->
  exists s u,
    findOne id st = Some s /\ x = JObj u /\ findOne id st' = Some u
    /\ forall k, k <> "events" -> k <> "updatedAt" -> k <> "status" ->
                 lookup k u = lookup k s.
Proof.
  intros H. apply events_post_created in H as (s & F & -> & Fu).
  exists s, (appended s body eid time_now now).
  repeat (split; [reflexivity || assumption|]).
  intros k K1 K2 K3. apply String.eqb_neq in K1, K2, K3.
  unfold appended.
  now rewrite lookup_obj_put_neq, !lookup_obj_set_neq.
Qed.

(** X13.  Appending an event and then removing it gives the ledger back
    but not the status: for a stored shipment, under the string [_id]
    that the datastore drew, with a ledger free of [null] entries and a
    fresh event id, the append is answered 201, the
    removal of the new event 200, the ledger is again the old one, the
    status stays what the append made it, and every field other than
    [events], [updatedAt] and [status] is as it was before the two. *)
Theorem append_then_remove auth clock auth2 clock2 id body eid time_now now
    now2 st s l :
  authMiddleware lib env auth clock = None ->
  authMiddleware lib env auth2 clock2 = None ->
  findOne id st = Some s ->
  lookup "_id" s = Some (JStr id) ->
  lookup "events" s = Some (JArr l) ->
  ~ In JNull l ->
  Forall (fun ev => event_has_id eid ev = false) l ->
  checkObject (JObj s) = true -> checkObject (JObj body) = true ->
  exists st1 u1 st2 u2,
    events_post lib env auth clock id body eid time_now now st
    = (st1, Sent 201 (JObj u1))
    /\ events_delete lib env auth2 clock2 id eid now2 st1
       = (st2, Sent 200 (JObj u2))
    /\ lookup "events" u2 = Some (JArr l)
    /\ lookup "status" u2 = lookup "status" u1
    /\ lookup "status" u1
       = js_or (lookup "status" body) (lookup "status" s)
    /\ lookup "updatedAt" u2 = Some (JStr now2)
    /\ forall k, k <> "events" -> k <> "updatedAt" -> k <> "status" ->
                 lookup k u2 = lookup k s.
Proof.
  intros A A2 F I L N Fr S B.
  destruct (events_post_succeeds lib env auth clock id body eid time_now now
              st s A F I S B) as (st1 & P).
  pose proof P as P'.
  apply events_post_created in P' as (s' & F' & _ & F1).
  rewrite F in F'. injection F' as <-.
  set (u1 := appended s body eid time_now now) in *.
  assert (L1 : js_or (lookup "events" u1) (Some (JArr []))
               = Some (JArr (JObj (new_event body eid time_now) :: l))).
  { unfold u1, appended. lookups. unfold ledger. now rewrite L. }
  assert (I1 : lookup "_id" u1 = Some (JStr id)).
  { unfold u1, appended. now lookups. }
  assert (E : filter_events eid (JObj (new_event body eid time_now) :: l)
              = Some l).
  { simpl. rewrite (filter_events_absent eid l N Fr).
    unfold new_event, literal. lookups. simpl.
    now rewrite String.eqb_refl. }
  destruct (events_delete_succeeds lib env auth2 clock2 id eid now2 st1 u1
              _ l A2 F1 L1 E (strict_eq_drawn _ _ I1)
              (appended_valid _ _ _ _ _ S B)) as (st2 & D & _).
  exists st1, u1, st2, (pruned u1 l now2).
  split; [exact P|]. split; [exact D|].
  unfold pruned, u1, appended. lookups.
  repeat (split; [reflexivity|]).
  intros k K1 K2 K3. apply String.eqb_neq in K1, K2, K3.
  now rewrite !lookup_obj_set_neq, lookup_obj_put_neq, !lookup_obj_set_neq.
Qed.

(** X14.  After a 200 reply of the event removal no event of the ledger
    carries the identifier, and the removal is idempotent: repeating it
    is answered 200 with the same shipment, only [updatedAt] refreshed. *)
Theorem removed_event_is_gone auth clock id eventId now st st' x :
  events_delete lib env auth clock id eventId now st = (st', Sent 200 x) ->
  exists u l',
    x = JObj u /\ findOne id st' = Some u
    /\ lookup "events" u = Some (JArr l')
    /\ Forall (fun ev => event_has_id eventId ev = false) l'
    /\ forall auth2 clock2 now2,
         authMiddleware lib env auth2 clock2 = None ->
         exists st'',
           events_delete lib env auth2 clock2 id eventId now2 st'
           = (st'', Sent 200 (JObj (obj_set "updatedAt" (JStr now2) u))).
Proof.
  intros H.
  apply events_delete_done
    in H as (s & l & l' & F & L & E & -> & Fu & V & K).
  destruct (filter_events_gone _ _ _ E) as [N G].
  exists (pruned s l' now), l'.
  split; [reflexivity|]. split; [exact Fu|].
  assert (Lu : lookup "events" (pruned s l' now) = Some (JArr l'))
    by (unfold pruned; now lookups).
  split; [exact Lu|]. split; [exact G|].
  intros auth2 clock2 now2 A2.
  assert (Lu' : js_or (lookup "events" (pruned s l' now)) (Some (JArr []))
                = Some (JArr l')) by now rewrite Lu.
  assert (K' : strict_eq (lookup "_id" (pruned s l' now))
                 (lookup "_id" (pruned s l' now)) = true).
  { unfold pruned. now lookups. }
  destruct (events_delete_succeeds lib env auth2 clock2 id eventId now2 st'
              (pruned s l' now) l' l' A2 Fu Lu'
              (filter_events_absent _ _ N G) K' V) as (st'' & D & _).
  exists st''. rewrite D. unfold pruned at 1.
  now rewrite (obj_set_same "events" (JArr l') _ Lu).
Qed.

End Ledger.

(** ** Patches *)

Lemma split_dot_plain k : has_dot k = false -> split_dot k = [k].
Proof.
  induction k as [|c k IH]; simpl; auto.
  destruct (Ascii.eqb c "."); [discriminate|]. simpl.
  intros H. now rewrite (IH H).
Qed.

Lemma set_fields_flat inside fs : forall d,
  Forall (fun kv => has_dot (fst kv) = false) fs ->
  set_fields inside (map (fun kv => (fst kv, Some (snd kv))) fs) d
  = Some (put_all fs d).
Proof.
  induction fs as [|[k v] fs IH]; intros d H; simpl; auto.
  inversion H as [|? ? Hk Hfs]; subst. simpl in Hk.
  unfold set_field. rewrite (split_dot_plain k Hk). simpl. now apply IH.
Qed.

Lemma lookup_put_all_other fs : forall d k,
  ~ In k (map fst fs) -> lookup k (put_all fs d) = lookup k d.
Proof.
  induction fs as [|[k0 v0] fs IH]; intros d k N; simpl; auto.
  simpl in N. unfold put_all in *. simpl. rewrite IH by tauto.
  apply lookup_obj_set_neq. apply String.eqb_neq. intros ->. tauto.
Qed.

Lemma lookup_put_all_in fs : forall d k v,
  NoDup (map fst fs) -> In (k, v) fs -> lookup k (put_all fs d) = Some v.
Proof.
  induction fs as [|[k0 v0] fs IH]; intros d k v N I; simpl in *; [tauto|].
  inversion N as [|? ? N0 N']; subst. unfold put_all in *. simpl.
  destruct I as [[= -> ->]|I].
  - fold (put_all fs (obj_set k v d)).
    rewrite lookup_put_all_other by exact N0. apply lookup_obj_set_eq.
  - now apply IH.
Qed.

Lemma lookup_In k v (o : Obj) : lookup k o = Some v -> In (k, v) o.
Proof.
  induction o as [|[k' v'] o IH]; simpl; [discriminate|].
  destruct (String.eqb k k') eqn:E.
  - apply String.eqb_eq in E. subst. intros [= ->]. auto.
  - auto.
Qed.

Lemma lookup_None_keys k (o : Obj) : lookup k o = None -> ~ In k (map fst o).
Proof.
  induction o as [|[k' v'] o IH]; simpl; [tauto|].
  destruct (String.eqb k k') eqn:E; [discriminate|].
  apply String.eqb_neq in E. intros H [E'|I]; [congruence | now apply IH].
Qed.

Lemma put_all_valid fs : forall d,
  checkObject (JObj fs) = true -> checkObject (JObj d) = true ->
  checkObject (JObj (put_all fs d)) = true.
Proof.
  induction fs as [|[k v] fs IH]; intros d F D; simpl; auto.
  rewrite checkObject_cons in F. apply andb_true_iff in F as [F Ffs].
  apply andb_true_iff in F as [Fk Fv].
  unfold put_all in *. simpl. apply IH; auto.
  now apply checkObject_obj_set.
Qed.

Lemma flat_obj_set k v body :
  has_dot k = false -> flat body -> flat (obj_set k v body).
Proof.
  intros K [F N]. split.
  - clear N. induction F as [|[k' v'] o H F' IH]; simpl.
    + repeat constructor. exact K.
    + destruct (String.eqb k k'); constructor; auto.
  - revert N. induction body as [|[k' v'] o IH]; simpl; intros N.
    + repeat constructor. simpl. tauto.
    + inversion N as [|? ? N0 N']; subst. inversion F; subst.
      destruct (String.eqb k k') eqn:E; simpl.
      * apply String.eqb_eq in E. subst. now constructor.
      * constructor; auto. intros I. apply N0.
        clear - I E. apply String.eqb_neq in E.
        induction o as [|[k0 v0] o IH]; simpl in *.
        -- destruct I as [I|[]]. congruence.
        -- destruct (String.eqb k k0); simpl in I; tauto.
Qed.

Lemma update_found_inv inside id fs st s st' :
  findOne id st = Some s -> update inside id fs st = Some st' ->
  exists d', modify inside fs s = Some d' /\ findOne id st' = Some d'.
Proof.
  intros F U. destruct (modify inside fs s) as [d'|] eqn:M.
  - destruct (update_found _ _ _ _ _ _ F M) as (st'' & U' & F').
    rewrite U in U'. injection U' as <-. eauto.
  - rewrite (update_throws _ _ _ _ _ F M) in U. discriminate.
Qed.

Lemma modify_flat inside fs s :
  Forall (fun kv => has_dot (fst kv) = false) fs ->
  modify inside (map (fun kv => (fst kv, Some (snd kv))) fs) s
  = if checkObject (JObj (put_all fs s))
       && strict_eq (lookup "_id" s) (lookup "_id" (put_all fs s))
    then Some (put_all fs s) else None.
Proof. intros F. unfold modify. now rewrite set_fields_flat. Qed.

Section Patches.

Variable lib : Lib.
Variable env : option string.

(** X15.  PATCH /api/shipments/:id with a flat body is a shallow merge
    under the server's clock: in every 200 reply on a stored shipment
    [updatedAt] is the time of the request, whatever the body says for
    it, every other field of the body has the value given, and every
    field the body does not name is as it was.  A body that the datastore
    accepts and that has no [_id], on a shipment under the string [_id]
    that the datastore drew, gets the 200 reply. *)
Theorem patch_merges_flat_body auth clock id body now st s :
  authMiddleware lib env auth clock = None ->
  findOne id st = Some s ->
  flat body ->
  (forall st' x,
      shipments_patch lib env auth clock id body now st = (st', Sent 200 x) ->
      exists u,
        x = JObj u /\ findOne id st' = Some u
        /\ lookup "updatedAt" u = Some (JStr now)
        /\ (forall k v, lookup k body = Some v -> k <> "updatedAt" ->
                        lookup k u = Some v)
        /\ (forall k, lookup k body = None -> k <> "updatedAt" ->
                      lookup k u = lookup k s))
  /\ (lookup "_id" s = Some (JStr id) ->
      checkObject (JObj s) = true -> checkObject (JObj body) = true ->
      lookup "_id" body = None ->
      exists st' u,
        shipments_patch lib env auth clock id body now st
        = (st', Sent 200 (JObj u))).
Proof.
  intros A F Fl.
  pose proof (flat_obj_set "updatedAt" (JStr now) body eq_refl Fl) as [Fp Np].
  set (patch := obj_set "updatedAt" (JStr now) body) in *.
  pose proof (modify_flat (set_inside lib) patch s Fp) as M.
  unfold shipments_patch. rewrite (protected_next _ _ _ _ _ _ A).
  unfold shipments_patch_handler. fold patch. split.
  - intros st' x H.
    destruct (update _ _ _ _) as [st1|] eqn:U; [|discriminate].
    injection H as <- <-.
    destruct (update_found_inv _ _ _ _ _ _ F U) as (u & Mu & Fu).
    rewrite Fu. exists u. split; [reflexivity|]. split; [reflexivity|].
    rewrite M in Mu. destruct (_ && _); [|discriminate].
    injection Mu as <-. split; [|split].
    + apply lookup_put_all_in; auto. apply lookup_In.
      apply lookup_obj_set_eq.
    + intros k v L K. apply lookup_put_all_in; auto. apply lookup_In.
      unfold patch. rewrite lookup_obj_set_neq by now apply String.eqb_neq.
      exact L.
    + intros k L K. apply lookup_put_all_other. apply lookup_None_keys.
      unfold patch. rewrite lookup_obj_set_neq by now apply String.eqb_neq.
      exact L.
  - intros H S B I.
    assert (V : checkObject (JObj (put_all patch s)) = true).
    { apply put_all_valid; auto. unfold patch.
      apply checkObject_obj_set; auto; reflexivity. }
    assert (K : lookup "_id" (put_all patch s) = lookup "_id" s).
    { apply lookup_put_all_other. apply lookup_None_keys.
      unfold patch. now rewrite lookup_obj_set_neq. }
    rewrite V, K in M.
    rewrite H in M. simpl in M. rewrite String.eqb_refl in M.
    destruct (update_found _ _ _ _ _ _ F M) as (st' & -> & Fu).
    rewrite Fu. do 2 eexists. reflexivity.
Qed.

(** X16.  A shipment's [_id] cannot be patched: a flat body that gives
    [_id] a value other than the identifier of the shipment makes the
    datastore throw; no reply is sent and the store is as it was. *)
Theorem patch_cannot_change_id auth clock id body now st s v :
  authMiddleware lib env auth clock = None ->
  findOne id st = Some s ->
  flat body ->
  lookup "_id" body = Some v -> v <> JStr id ->
  shipments_patch lib env auth clock id body now st = (st, Rejected).
Proof.
  intros A F Fl I N.
  pose proof (flat_obj_set "updatedAt" (JStr now) body eq_refl Fl) as [Fp Np].
  set (patch := obj_set "updatedAt" (JStr now) body) in *.
  pose proof (modify_flat (set_inside lib) patch s Fp) as M.
  assert (K : lookup "_id" (put_all patch s) = Some v).
  { apply lookup_put_all_in; auto. apply lookup_In.
    unfold patch. now rewrite lookup_obj_set_neq. }
  pose proof (findOne_has_id _ _ _ F) as H.
  assert (E : strict_eq (lookup "_id" s) (lookup "_id" (put_all patch s))
              = false).
  { destruct (has_id_cases _ _ H) as [H'|[l H']]; rewrite H';
      [|reflexivity].
    rewrite K. destruct (strict_eq (Some (JStr id)) (Some v)) eqn:E;
      [|reflexivity].
    apply strict_eq_eq in E. congruence. }
  rewrite E, andb_false_r in M.
  unfold shipments_patch. rewrite (protected_next _ _ _ _ _ _ A).
  unfold shipments_patch_handler. fold patch.
  now rewrite (update_throws _ _ _ _ _ F M).
Qed.

Lemma update_others inside id fs st st' :
  update inside id fs st = Some st' -> others id st' = others id st.
Proof.
  unfold others. revert st'.
  induction st as [|d st IH]; cbn [update map]; intros st'.
  - now intros [= <-].
  - destruct (has_id id d) eqn:E.
    + destruct (modify inside fs d) as [d'|] eqn:M; [|discriminate].
      intros [= <-]. cbn [map].
      now rewrite (modify_has_id _ _ _ _ _ M E).
    + destruct (update inside id fs st) as [st''|]; [|discriminate].
      intros [= <-]. cbn [map]. now rewrite E, (IH st'').
Qed.

(** X17.  A patch, an event append and an event removal are local to the
    shipment they address: whatever the reply, every other shipment of
    the store is where it was and as it was. *)
Theorem mutations_are_local m st :
  others (target m) (mutate lib env m st) = others (target m) st
  /\ length (mutate lib env m st) = length st.
Proof.
  assert (G : others (target m) (mutate lib env m st) = others (target m) st).
  { destruct m as [auth clock id body now
                  | auth clock id body eid time_now now
                  | auth clock id eventId now]; simpl.
    - unfold shipments_patch.
      destruct (protected_store lib env auth clock st
                  (shipments_patch_handler lib id body now st)) as [-> | ->];
        [reflexivity|].
      unfold shipments_patch_handler.
      destruct (update _ _ _ _) as [st'|] eqn:U; [|reflexivity].
      simpl. eapply update_others; eauto.
    - unfold events_post.
      destruct (protected_store lib env auth clock st
                  (events_post_handler lib id body eid time_now now st))
        as [-> | ->]; [reflexivity|].
      unfold events_post_handler.
      destruct (findOne id st); [|reflexivity].
      destruct (update _ _ _ _) as [st'|] eqn:U; [|reflexivity].
      simpl. eapply update_others; eauto.
    - unfold events_delete.
      destruct (protected_store lib env auth clock st
                  (events_delete_handler lib id eventId now st))
        as [-> | ->]; [reflexivity|].
      unfold events_delete_handler.
      destruct (findOne id st); [|reflexivity].
      destruct (js_or _ _) as [[| | | |l|]|]; try reflexivity.
      destruct (filter_events eventId l); [|reflexivity].
      destruct (update _ _ _ _) as [st'|] eqn:U; [|reflexivity].
      simpl. eapply update_others; eauto. }
  split; [exact G|].
  unfold others in G. apply (f_equal (@length _)) in G.
  now rewrite !length_map in G.
Qed.

End Patches.

(** ** Invariants of the shipment store *)

Lemma set_field_keeps inside k v d d' t :
  set_field inside k (Some v) d = Some d' ->
  lookup t d <> None -> lookup t d' <> None.
Proof.
  unfold set_field.
  destruct (split_dot k) as [|top [|r rest]] eqn:E; [discriminate| |].
  - intros [= <-] P. simpl.
    destruct (String.eqb t k) eqn:T.
    + apply String.eqb_eq in T. subst. now rewrite lookup_obj_set_eq.
    + now rewrite lookup_obj_set_neq.
  - destruct (inside _ _ _); [|discriminate]. intros [= <-] P.
    destruct (String.eqb t top) eqn:T.
    + apply String.eqb_eq in T. subst. now rewrite lookup_obj_set_eq.
    + now rewrite lookup_obj_set_neq.
Qed.

Lemma set_fields_keeps inside fs : forall d d' t,
  Forall (fun kv => snd kv <> None) fs ->
  set_fields inside fs d = Some d' ->
  lookup t d <> None -> lookup t d' <> None.
Proof.
  induction fs as [|[k v] fs IH]; simpl; intros d d' t V.
  - now intros [= <-].
  - inversion V as [|? ? Hv Vfs]; subst. simpl in Hv.
    destruct v as [v|]; [|now elim Hv].
    destruct (set_field inside k (Some v) d) as [d1|] eqn:E; [|discriminate].
    intros H P. eapply IH; eauto. eapply set_field_keeps; eauto.
Qed.

Lemma update_keeps_fields inside id fs ks st st' :
  (forall s, findOne id st = Some s ->
             Forall (fun kv => snd kv <> None) fs) ->
  Forall (has_fields ks) st ->
  update inside id fs st = Some st' -> Forall (has_fields ks) st'.
Proof.
  intros V H U.
  destruct (findOne id st) as [s|] eqn:F.
  2:{ rewrite (update_absent _ _ _ _ F) in U. now injection U as <-. }
  specialize (V s eq_refl). clear F.
  revert st' U. induction H as [|d st Hd H IH]; simpl; intros st'.
  - now intros [= <-].
  - destruct (has_id id d).
    + destruct (modify inside fs d) as [d'|] eqn:M; [|discriminate].
      intros [= <-]. constructor; auto. intros k K.
      unfold modify in M.
      destruct (set_fields inside fs d) as [x|] eqn:E; [|discriminate].
      destruct (_ && _); [|discriminate]. injection M as <-.
      eapply set_fields_keeps; eauto.
    + destruct (update inside id fs st) as [st''|]; [|discriminate].
      intros [= <-]. constructor; auto.
Qed.

Lemma all_some (fs : Obj) :
  Forall (fun kv : string * option Json => snd kv <> None)
    (map (fun kv => (fst kv, Some (snd kv))) fs).
Proof. induction fs; simpl; constructor; auto. discriminate. Qed.

Lemma insert_no_id_ok newid doc st st' d :
  lookup "_id" doc = None ->
  insert newid doc st = Some (st', d) ->
  store_ok st -> store_ok st'.
Proof. intros L I K. eapply insert_ok; eauto. Qed.

Section StoreInvariants.

Variable lib : Lib.
Variable env : option string.

Lemma mutate_keeps_fields m st :
  Forall (has_fields core_fields) st ->
  Forall (has_fields core_fields) (mutate lib env m st).
Proof.
  intros K.
  destruct m as [auth clock id body now
                | auth clock id body eid time_now now
                | auth clock id eventId now]; simpl.
  - unfold shipments_patch.
    destruct (protected_store lib env auth clock st
                (shipments_patch_handler lib id body now st)) as [-> | ->];
      [exact K|].
    unfold shipments_patch_handler.
    destruct (update _ _ _ _) as [st'|] eqn:U; [|exact K].
    simpl.
    refine (update_keeps_fields _ _ _ _ _ _ _ K U).
    intros _ _. apply all_some.
  - unfold events_post.
    destruct (protected_store lib env auth clock st
                (events_post_handler lib id body eid time_now now st))
      as [-> | ->]; [exact K|].
    unfold events_post_handler.
    destruct (findOne id st) as [s|] eqn:F; [|exact K].
    destruct (update _ _ _ _) as [st'|] eqn:U; [|exact K].
    simpl.
    refine (update_keeps_fields _ _ _ _ _ _ _ K U).
    intros s' Fs. rewrite F in Fs. injection Fs as <-.
    assert (P : lookup "status" s <> None).
    { apply find_some in F as [I _]. rewrite Forall_forall in K.
      apply (K s I). simpl. tauto. }
    repeat constructor; simpl; try discriminate.
    unfold js_or. destruct (truthy (lookup "status" body)) eqn:T; auto.
    destruct (lookup "status" body); [discriminate | discriminate T].
  - unfold events_delete.
    destruct (protected_store lib env auth clock st
                (events_delete_handler lib id eventId now st))
      as [-> | ->]; [exact K|].
    unfold events_delete_handler.
    destruct (findOne id st); [|exact K].
    destruct (js_or _ _) as [[| | | |l|]|]; try exact K.
    destruct (filter_events eventId l); [|exact K].
    destruct (update _ _ _ _) as [st'|] eqn:U; [|exact K].
    simpl.
    refine (update_keeps_fields _ _ _ _ _ _ _ K U).
    intros _ _. repeat constructor; simpl; discriminate.
Qed.

Lemma has_fields_created body now tn eid newid :
  has_fields core_fields
    (obj_set "_id" (JStr newid) (shipment_doc body now tn eid)).
Proof.
  intros k K. simpl in K.
  destruct K as [<-|[<-|[<-|[<-|[<-|[<-|[]]]]]]];
    unfold shipment_doc, literal; lookups; try discriminate.
  - unfold js_or. destruct (truthy (lookup "status" body)) eqn:T;
      [|discriminate].
    destruct (lookup "status" body); [discriminate | discriminate T].
  - destruct (_ && _) eqn:T; [|discriminate].
    apply andb_true_iff in T as [T _].
    destruct (lookup "events" body); [discriminate | discriminate T].
Qed.

Lemma serve_keeps_fields r st :
  Forall (has_fields core_fields) st ->
  Forall (has_fields core_fields) (serve lib env r st).
Proof.
  intros K.
  destruct r as [auth clock body now stamp rnd eid newid | auth clock id | m];
    simpl.
  - destruct (shipments_create lib env auth clock body now stamp rnd eid
                newid st) as [st' [n x|]] eqn:C; simpl.
    + destruct (Nat.eq_dec n 201) as [->|N].
      * apply shipments_create_created in C as [_ ->].
        apply Forall_app. split; [exact K|].
        constructor; [apply has_fields_created | constructor].
      * unfold shipments_create, protected in C.
        destruct (authMiddleware _ _ _ _); [now injection C as <- _|].
        unfold shipments_create_handler in C.
        destruct (insert _ _ _) as [[? ?]|]; injection C as <- E;
          [now elim N | exact K].
    + unfold shipments_create, protected in C.
      destruct (authMiddleware _ _ _ _); [now injection C as <- _|].
      unfold shipments_create_handler in C.
      destruct (insert _ _ _) as [[? ?]|]; [discriminate|].
      now injection C as <-.
  - unfold shipments_delete, protected.
    destruct (authMiddleware _ _ _ _); [exact K|]. simpl.
    induction K as [|d st Hd K IH]; simpl; auto.
    destruct (has_id id d); auto.
  - now apply mutate_keeps_fields.
Qed.

Lemma seed_invariants now stamp1 rnd1 e1 e2 stamp2 rnd2 e3 id1 id2 st :
  store_ok st /\ Forall (has_fields core_fields) st ->
  store_ok (seed now stamp1 rnd1 e1 e2 stamp2 rnd2 e3 id1 id2 st)
  /\ Forall (has_fields core_fields)
       (seed now stamp1 rnd1 e1 e2 stamp2 rnd2 e3 id1 id2 st).
Proof.
  intros [K H]. unfold seed.
  destruct (count st =? 0)%nat; [|auto].
  destruct (insert id1 _ st) as [[st1 d1]|] eqn:I1; [|auto].
  destruct (insert id2 _ st1) as [[st2 d2]|] eqn:I2; [|auto].
  split.
  - eapply insert_no_id_ok; [| exact I2 |]; [reflexivity|].
    eapply insert_no_id_ok; [| exact I1 |]; [reflexivity | exact K].
  - apply insert_some in I1 as [-> ->]. apply insert_some in I2 as [-> ->].
    simpl lookup. repeat (apply Forall_app; split); auto;
      constructor; try constructor;
      intros k Hk; simpl in Hk;
      destruct Hk as [<-|[<-|[<-|[<-|[<-|[<-|[]]]]]]]; discriminate.
Qed.

(** The seeding too leaves the shipments with the string [_id]s that the
    datastore drew, and so does every sequence of requests after it. *)
Lemma seed_drawn now stamp1 rnd1 e1 e2 stamp2 rnd2 e3 id1 id2 reqs st :
  Forall drawn_id st ->
  Forall drawn_id
    (fold_left (fun st r => serve lib env r st) reqs
       (seed now stamp1 rnd1 e1 e2 stamp2 rnd2 e3 id1 id2 st)).
Proof.
  intros D. apply serve_all_drawn. unfold seed.
  destruct (count st =? 0)%nat; [|auto].
  destruct (insert id1 _ st) as [[st1 d1]|] eqn:I1; [|auto].
  destruct (insert id2 _ st1) as [[st2 d2]|] eqn:I2; [|auto].
  apply insert_some in I1 as [-> ->]. apply insert_some in I2 as [-> ->].
  simpl lookup. repeat (apply Forall_app; split); auto;
    constructor; try constructor; eexists; reflexivity.
Qed.

(** X18.  The shipment store keeps its shape.  From the store as seeded
    at start-up (on an empty store, or left alone on a store with data),
    every sequence of requests leaves one document per identifier, each
    accepted by the datastore's validation and each still carrying its
    [_id], [trackingNumber], [status], [events], [createdAt] and
    [updatedAt] fields: no request removes one of them. *)
Theorem shipment_store_keeps_its_shape now stamp1 rnd1 e1 e2 stamp2 rnd2 e3
    id1 id2 reqs st :
  store_ok st -> Forall (has_fields core_fields) st ->
  let final := fold_left (fun st r => serve lib env r st) reqs
                 (seed now stamp1 rnd1 e1 e2 stamp2 rnd2 e3 id1 id2 st) in
  store_ok final /\ Forall (has_fields core_fields) final.
Proof.
  intros K H.
  pose proof (seed_invariants now stamp1 rnd1 e1 e2 stamp2 rnd2 e3 id1 id2 st
                (conj K H)) as S.
  revert S. generalize (seed now stamp1 rnd1 e1 e2 stamp2 rnd2 e3 id1 id2 st).
  clear K H st. induction reqs as [|r reqs IH]; intros st [K H]; simpl.
  - auto.
  - apply IH. split; [now apply serve_ok | now apply serve_keeps_fields].
Qed.

End StoreInvariants.

(** ** Creating and deleting *)

Lemma remove_app_fresh id st d :
  findOne id st = None -> has_id id d = true -> remove id (st ++ [d]) = st.
Proof.
  unfold findOne. induction st as [|y st IH]; simpl; intros F H.
  - now rewrite H.
  - destruct (has_id id y); [discriminate|]. now rewrite IH.
Qed.

Lemma findOne_app_fresh id st d :
  findOne id st = None -> has_id id d = true ->
  findOne id (st ++ [d]) = Some d.
Proof.
  unfold findOne. intros F H. apply find_app_last; auto.
  intros y I. destruct (has_id id y) eqn:E; auto.
  apply find_none with (x := y) in F; auto. congruence.
Qed.

Lemma insert_fresh_inv newid doc st st' d :
  lookup "_id" doc = None -> insert newid doc st = Some (st', d) ->
  findOne newid st = None /\ checkObject (JObj d) = true
  /\ d = obj_set "_id" (JStr newid) doc /\ st' = st ++ [d].
Proof.
  intros L. unfold insert. rewrite L, lookup_obj_set_eq.
  destruct (checkObject _) eqn:C; [|discriminate].
  destruct (id_taken _ st) eqn:T; [discriminate|]. simpl.
  intros [= <- <-]. repeat split; auto.
  apply findOne_none_iff. now apply id_taken_fresh.
Qed.

Section CreateDelete.

Variable lib : Lib.
Variable env : option string.

(** X19.  Creating a shipment and deleting it by the identifier of the
    reply gives the store back: the 201 reply carries the fresh [_id],
    and DELETE on it is answered [{ok:true}] and leaves the shipment
    store exactly as it was before the creation. *)
Theorem create_then_delete auth clock body now stamp rnd eid newid st st' x
    auth2 clock2 :
  shipments_create lib env auth clock body now stamp rnd eid newid st
  = (st', Sent 201 x) ->
  authMiddleware lib env auth2 clock2 = None ->
  exists doc,
    x = JObj doc /\ lookup "_id" doc = Some (JStr newid)
    /\ findOne newid st' = Some doc
    /\ shipments_delete lib env auth2 clock2 newid st'
       = (st, Sent 200 ok_true).
Proof.
  intros C A2. unfold shipments_create in C.
  apply protected_sent in C as [_ C]; [|discriminate].
  unfold shipments_create_handler in C.
  destruct (insert _ _ _) as [[st1 d]|] eqn:I; [|discriminate].
  injection C as <- <-.
  apply insert_fresh_inv in I as (F & _ & -> & ->);
    [|apply shipment_doc_no_id].
  eexists. split; [reflexivity|].
  assert (H : has_id newid
                (obj_set "_id" (JStr newid)
                   (shipment_doc body now (trackingNumber stamp rnd) eid))
              = true)
    by (apply has_id_drawn, lookup_obj_set_eq).
  split; [apply lookup_obj_set_eq|].
  split; [now apply findOne_app_fresh|].
  unfold shipments_delete. rewrite (protected_next _ _ _ _ _ _ A2).
  unfold shipments_delete_handler. now rewrite remove_app_fresh.
Qed.

End CreateDelete.

(** ** Listings *)

Section Listings.

Variable lib : Lib.
Variable env : option string.
Variable cmps : Comparisons.


End Listings.

(** ** Quote patches *)

Lemma update_same inside id fs st s :
  findOne id st = Some s -> modify inside fs s = Some s ->
  update inside id fs st = Some st.
Proof.
  unfold findOne. induction st as [|d st IH]; simpl; [discriminate|].
  destruct (has_id id d).
  - intros [= ->] ->. reflexivity.
  - intros F M. now rewrite IH.
Qed.

Section QuotePatches.

Variable lib : Lib.
Variable env : option string.

(** X21.  PATCH /api/quotes/:id has no not-found reply and stamps
    nothing.  For an id under which the index holds no quote it answers
    200 with [null] and leaves the store alone.  A quote whose [_id] is an
    array is found by each string among the elements, and cannot be
    patched: the datastore throws, no reply is sent and the store is as
    it was.  So every 200 reply on a quote that the id finds is on a
    quote whose [_id] is the id; for a flat body it has the fields of the
    body as given (the status and the [createdAt] that creation forced
    included) and every other field as it was; and on such a quote the
    empty body is answered 200 with the quote as stored, the store
    unchanged. *)
Theorem quote_patch_merges auth clock id body qs :
  authMiddleware lib env auth clock = None ->
  flat body ->
  (findOne id qs = None ->
   quotes_patch lib env auth clock id body qs = (qs, Sent 200 JNull))
  /\ (forall q l,
        findOne id qs = Some q -> lookup "_id" q = Some (JArr l) ->
        In (JStr id) l
        /\ quotes_patch lib env auth clock id body qs = (qs, Rejected))
  /\ (forall q qs' x,
        findOne id qs = Some q ->
        quotes_patch lib env auth clock id body qs = (qs', Sent 200 x) ->
        lookup "_id" q = Some (JStr id)
        /\ exists u,
            x = JObj u /\ findOne id qs' = Some u
            /\ (forall k v, lookup k body = Some v -> lookup k u = Some v)
            /\ (forall k, lookup k body = None -> lookup k u = lookup k q))
  /\ (forall q,
        findOne id qs = Some q -> lookup "_id" q = Some (JStr id) ->
        checkObject (JObj q) = true -> body = [] ->
        quotes_patch lib env auth clock id body qs = (qs, Sent 200 (JObj q))).
Proof.
  intros A [Fp Np]. unfold quotes_patch.
  rewrite (protected_next _ _ _ _ _ _ A). unfold quotes_patch_handler.
  split; [|split; [|split]].
  - intros F. now rewrite (update_absent _ _ _ _ F), F.
  - intros q l F I. split.
    + apply (has_id_array id q l I). eapply findOne_has_id; eauto.
    + now rewrite (update_throws _ _ _ _ _ F (modify_array _ _ _ _ I)).
  - intros q qs' x F H.
    pose proof (modify_flat (set_inside lib) body q Fp) as M.
    destruct (update _ _ _ _) as [st1|] eqn:U; [|discriminate].
    injection H as <- <-.
    destruct (update_found_inv _ _ _ _ _ _ F U) as (u & Mu & Fu).
    split; [exact (modify_drawn _ _ _ _ _ Mu (findOne_has_id _ _ _ F))|].
    rewrite Fu. exists u. split; [reflexivity|]. split; [reflexivity|].
    rewrite M in Mu. destruct (_ && _); [|discriminate].
    injection Mu as <-. split.
    + intros k v L. apply lookup_put_all_in; auto. now apply lookup_In.
    + intros k L. apply lookup_put_all_other. now apply lookup_None_keys.
  - intros q F I V ->. simpl map.
    assert (M : modify (set_inside lib) [] q = Some q).
    { unfold modify. cbn [set_fields]. now rewrite V, (strict_eq_drawn _ _ I). }
    now rewrite (update_same _ _ _ _ _ F M), F.
Qed.

End QuotePatches.

(** ** Quotes, from creation to deletion *)

Section QuoteLife.

Variable lib : Lib.
Variable env : option string.

(** X22.  A quote created by the public route is stored after the
    others, which stay as they are, and can be deleted by the identifier
    of the reply: for a body without an [_id] of its own the 201 reply
    carries the fresh [_id], and DELETE /api/quotes on it is answered
    [{ok:true}] and gives the quote store back as it was. *)
Theorem quote_create_then_delete body now newid qs qs' x auth clock :
  lookup "_id" body = None ->
  quotes_create body now newid qs = (qs', Sent 201 x) ->
  authMiddleware lib env auth clock = None ->
  exists doc,
    x = JObj doc /\ qs' = qs ++ [doc]
    /\ lookup "_id" doc = Some (JStr newid)
    /\ findOne newid qs' = Some doc
    /\ quotes_delete lib env auth clock newid qs' = (qs, Sent 200 ok_true).
Proof.
  intros L C A. unfold quotes_create in C.
  destruct (insert _ _ _) as [[q1 d]|] eqn:I; [|discriminate].
  injection C as <- <-.
  apply insert_fresh_inv in I as (F & _ & -> & ->).
  2:{ now rewrite !lookup_obj_set_neq. }
  eexists. split; [reflexivity|]. split; [reflexivity|].
  assert (H : has_id newid
                (obj_set "_id" (JStr newid)
                   (obj_set "createdAt" (JStr now)
                      (obj_set "status" (JStr "new") body))) = true)
    by (apply has_id_drawn, lookup_obj_set_eq).
  split; [apply lookup_obj_set_eq|].
  split; [now apply findOne_app_fresh|].
  unfold quotes_delete. rewrite (protected_next _ _ _ _ _ _ A).
  unfold quotes_delete_handler. now rewrite remove_app_fresh.
Qed.

End QuoteLife.

(** ** What a request without a token can do *)

Section Unauthorized.

Variable lib : Lib.
Variable env : option string.
Variable cmps : Comparisons.

Lemma protected_changes auth clock st h :
  fst (protected lib env auth clock st h) <> st ->
  authMiddleware lib env auth clock = None.
Proof.
  unfold protected. destruct (authMiddleware _ _ _ _); [|reflexivity].
  simpl. intros N. now elim N.
Qed.

(** X3.  Data changes only through the middleware, quote creation and
    registration apart: a request after which the shipment store differs
    is on a route behind the middleware and carried a token that
    verifies; a request after which the quote store differs is such a
    request or a quote creation, which only adds one quote at the end. *)
Theorem changes_need_a_token a db :
  (shipments (fst (handle lib env cmps a db)) <> shipments db ->
   exists auth clock,
     api_auth a = Some (auth, clock)
     /\ authMiddleware lib env auth clock = None)
  /\ (quotes (fst (handle lib env cmps a db)) <> quotes db ->
      (exists auth clock,
          api_auth a = Some (auth, clock)
          /\ authMiddleware lib env auth clock = None)
      \/ (exists body now newid doc,
             a = PostQuote body now newid
             /\ quotes (fst (handle lib env cmps a db))
                = quotes db ++ [doc])).
Proof.
  split.
  - destruct a as [c|b k|p|b n i|au k|au k i b|au k i|au k|q|]; simpl;
      try (intros N; now elim N);
      try (match goal with
           | |- context [let (_, _) := ?x in _] => destruct x
           end; simpl; intros N; now elim N).
    + unfold shipments_list. intros N. exists au, k. split; [reflexivity|].
      apply (protected_changes au k (shipments db)
               (list_handler (shipments db))).
      destruct (protected _ _ _ _ _ _). exact N.
    + intros N.
      destruct q as [au k b n s rn e i | au k i
                    | [au k i b n | au k i b e t n | au k i e n]];
        simpl in *; exists au, k; (split; [reflexivity|]);
        unfold shipments_create, shipments_delete, shipments_patch,
          events_post, events_delete in N;
        match type of N with
        | context [protected ?l ?e ?a ?c ?s ?h] =>
            apply (protected_changes a c s h);
            destruct (protected l e a c s h); exact N
        end.
  - destruct a as [c|b k|p|b n i|au k|au k i b|au k i|au k|q|]; simpl;
      try (intros N; now elim N);
      try (match goal with
           | |- context [let (_, _) := ?x in _] => destruct x
           end; simpl; intros N; now elim N).
    + intros N. right. exists b, n, i.
      destruct (quotes_create b n i (quotes db)) as [q r] eqn:C.
      simpl in *. unfold quotes_create in C.
      destruct (insert _ _ _) as [[q1 d]|] eqn:I.
      * injection C as <- <-. apply insert_some in I as [-> _]. eauto.
      * injection C as <- <-. now elim N.
    + intros N. left. exists au, k. split; [reflexivity|].
      unfold quotes_list in N.
      apply (protected_changes au k (quotes db)
               (list_handler (quotes db))).
      destruct (protected _ _ _ _ _ _). exact N.
    + intros N. left. exists au, k. split; [reflexivity|].
      unfold quotes_patch in N.
      apply (protected_changes au k (quotes db)
               (quotes_patch_handler lib i b (quotes db))).
      destruct (protected _ _ _ _ _ _). exact N.
    + intros N. left. exists au, k. split; [reflexivity|].
      unfold quotes_delete in N.
      apply (protected_changes au k (quotes db)
               (quotes_delete_handler i (quotes db))).
      destruct (protected _ _ _ _ _ _). exact N.
Qed.

End Unauthorized.

(** ** Concrete runs of the further properties *)

Lemma refused_request_witness :
  api_auth (OnShipments (Delete None "c" "s1")) = Some (None, "c")
  /\ authMiddleware sample_lib None None "c"
     = Some (Sent 401 (error "missing_token"))
  /\ handle sample_lib None sample_cmps (OnShipments (Delete None "c" "s1"))
       sample_db
     = (sample_db, Some (Sent 401 (error "missing_token"))).
Proof.
  split; [reflexivity|]. split; [reflexivity|].
  exact (proj1 (refused_request_changes_nothing sample_lib None sample_cmps
                  (OnShipments (Delete None "c" "s1")) sample_db None "c"
                  (Sent 401 (error "missing_token")) eq_refl eq_refl)).
Defined.

Lemma registered_admin_witness :
  exists user,
    fst (register sample_lib None sample_registration t0 "salt" "u1" "c" [])
    = [user]
    /\ login sample_lib None sample_cmps
         [("email", JStr "ADMIN@ship.CO"); ("password", JStr "secret1")]
         "c2" [user]
       = Sent 200
           (JObj [("token", JStr (signToken sample_lib None user "c2"));
                  ("user", JObj [("id", JStr "u1");
                                 ("email", JStr "admin@ship.co")])]).
Proof.
  exact (registered_admin_logs_in sample_lib None sample_cmps
           sample_registration t0 "salt" "u1" "c" "Admin@Ship.co" "secret1"
           [("email", JStr "ADMIN@ship.CO"); ("password", JStr "secret1")]
           "c2" "ADMIN@ship.CO" "secret1"
           eq_refl ltac:(discriminate) eq_refl ltac:(discriminate)
           eq_refl eq_refl eq_refl ltac:(discriminate)).
Defined.

Lemma login_needs_a_credential_witness :
  exists user em pw hash,
    In user [sample_admin]
    /\ lookup "email" [("email", JStr "admin@ship.co");
                       ("password", JStr "secret1")] = Some (JStr em)
    /\ lookup "password" [("email", JStr "admin@ship.co");
                          ("password", JStr "secret1")] = Some (JStr pw)
    /\ findOne_email (toLowerCase em) [sample_admin] = Some user
    /\ lookup "password" user = Some (JStr hash)
    /\ bcrypt_compare sample_cmps pw hash = true
    /\ JObj [("token", JStr "jwt.dev_secret_change_me.c2");
             ("user", JObj [("id", JStr "u1");
                            ("email", JStr "admin@ship.co")])]
       = JObj [("token", JStr (signToken sample_lib None user "c2"));
               ("user", JObj (literal [("id", lookup "_id" user);
                                       ("email", lookup "email" user)]
                                []))].
Proof.
  exact (login_needs_a_credential sample_lib None sample_cmps
           [("email", JStr "admin@ship.co"); ("password", JStr "secret1")]
           "c2" [sample_admin] _ eq_refl).
Defined.

Lemma login_failures_witness :
  login sample_lib None sample_cmps
    [("email", JStr "nobody@ship.co"); ("password", JStr "secret1")]
    "c2" [sample_admin]
  = Sent 401 (error "invalid_credentials")
  /\ login sample_lib None sample_cmps
       [("email", JStr "admin@ship.co"); ("password", JStr "wrong")]
       "c2" [sample_admin]
     = Sent 401 (error "invalid_credentials").
Proof.
  split.
  - exact (proj1 (login_failures_look_alike sample_lib None sample_cmps
                    [("email", JStr "nobody@ship.co");
                     ("password", JStr "secret1")]
                    "c2" [sample_admin] "nobody@ship.co" "secret1"
                    eq_refl ltac:(discriminate) eq_refl ltac:(discriminate))
             eq_refl).
  - exact (proj2 (login_failures_look_alike sample_lib None sample_cmps
                    [("email", JStr "admin@ship.co");
                     ("password", JStr "wrong")]
                    "c2" [sample_admin] "admin@ship.co" "wrong"
                    eq_refl ltac:(discriminate) eq_refl ltac:(discriminate))
             sample_admin "$2a$10$saltsecret1" eq_refl eq_refl eq_refl).
Defined.

Lemma tracking_number_format_witness :
  base36 "lvo1x2" = true /\ nanoid_ok "ABCDEF2345" = true
  /\ trackingNumber "lvo1x2" "ABCDEF2345" = "SCLVO1X2ABCDEF2345"
  /\ plain (trackingNumber "lvo1x2" "ABCDEF2345") = true.
Proof.
  split; [reflexivity|]. split; [reflexivity|]. split; [reflexivity|].
  exact (proj1 (proj2 (proj2 (tracking_number_format "lvo1x2" "ABCDEF2345"
                                eq_refl eq_refl)))).
Defined.

Lemma created_shipment_is_tracked_witness :
  exists st' doc,
    shipments_create sample_lib None bearer "c"
      [("customer", JStr "X"); ("origin", JStr "LA")]
      t0 "lvo1x2" "ABCDEF2345" "EV11111111" "s3" [acme; beta]
    = (st', Sent 201 (JObj doc))
    /\ track " sclvo1x2abcdef2345 " st' = Some (Sent 200 (JObj doc)).
Proof.
  do 2 eexists. split; [vm_compute; reflexivity|].
  apply (created_shipment_is_tracked sample_lib None bearer "c"
           [("customer", JStr "X"); ("origin", JStr "LA")]
           t0 "lvo1x2" "ABCDEF2345" "EV11111111" "s3" [acme; beta]);
    try reflexivity.
  intros d [<-|[<-|[]]]; reflexivity.
Defined.

Lemma track_rejects_witness :
  trim " *abc" = String "*" "abc" /\ track " *abc" [acme] = Some Rejected.
Proof.
  split; [reflexivity|].
  apply (track_rejects_leading_quantifier " *abc" "*"%char "abc" [acme]);
    [reflexivity | now left].
Defined.

(** Two shipments with the same tracking number, the later one under the
    smaller [_id]: the lookup returns the later one. *)
Lemma track_is_exact_witness :
  plain (trim " sc1abcdef234 ") = true
  /\ lookup "_id" beta = Some (JStr "s2")
  /\ lookup "_id" acme = Some (JStr "s1")
  /\ track " sc1abcdef234 "
       [obj_set "trackingNumber" (JStr "SC1ABCDEF234") beta; acme]
     = Some (Sent 200 (JObj acme)).
Proof.
  split; [reflexivity|]. split; [reflexivity|]. split; [reflexivity|].
  rewrite (proj1 (track_is_exact " sc1abcdef234 "
                    [obj_set "trackingNumber" (JStr "SC1ABCDEF234") beta; acme]
                    eq_refl)).
  vm_compute. reflexivity.
Defined.

Lemma append_event_frame_witness :
  exists st' x s u,
    events_post sample_lib None bearer "c" "s1"
      [("status", JStr "Delivered")] "EV33333333" t1 t1 [acme]
    = (st', Sent 201 x)
    /\ findOne "s1" [acme] = Some s /\ x = JObj u
    /\ lookup "trackingNumber" u = lookup "trackingNumber" s.
Proof.
  destruct (append_event_frame sample_lib None bearer "c" "s1"
              [("status", JStr "Delivered")] "EV33333333" t1 t1 [acme]
              _ _ eq_refl) as (s & u & F & X & _ & K).
  do 4 eexists. split; [reflexivity|]. split; [exact F|].
  split; [exact X|]. apply K; discriminate.
Defined.

Lemma append_then_remove_witness :
  exists st1 u1 st2 u2,
    events_post sample_lib None bearer "c" "s1"
      [("status", JStr "Delivered")] "EV33333333" t1 t1 [acme]
    = (st1, Sent 201 (JObj u1))
    /\ events_delete sample_lib None bearer "c" "s1" "EV33333333" t1 st1
       = (st2, Sent 200 (JObj u2))
    /\ lookup "events" u2 = lookup "events" acme
    /\ lookup "status" u2 = Some (JStr "Delivered").
Proof.
  destruct (append_then_remove sample_lib None bearer "c" bearer "c" "s1"
              [("status", JStr "Delivered")] "EV33333333" t1 t1 t1 [acme]
              acme _ eq_refl eq_refl eq_refl eq_refl eq_refl
              ltac:(simpl; intuition discriminate)
              ltac:(repeat constructor) eq_refl eq_refl)
    as (st1 & u1 & st2 & u2 & P & D & L & S & S1 & _).
  exists st1, u1, st2, u2. split; [exact P|]. split; [exact D|].
  split; [exact L|]. rewrite S, S1. reflexivity.
Defined.

Lemma removed_event_is_gone_witness :
  exists st' x u l',
    events_delete sample_lib None bearer "c" "s1" "EV11111111" t1 [acme]
    = (st', Sent 200 x)
    /\ x = JObj u /\ lookup "events" u = Some (JArr l')
    /\ Forall (fun ev => event_has_id "EV11111111" ev = false) l'.
Proof.
  destruct (removed_event_is_gone sample_lib None bearer "c" "s1"
              "EV11111111" t1 [acme] _ _ eq_refl)
    as (u & l' & X & _ & L & G & _).
  do 4 eexists. split; [reflexivity|]. split; [exact X|].
  split; [exact L | exact G].
Defined.

Lemma flat_sample : flat [("status", JStr "Delivered"); ("weight", JStr "12")].
Proof.
  split; repeat constructor; simpl; intuition discriminate.
Qed.

Lemma patch_merges_witness :
  exists st' u,
    shipments_patch sample_lib None bearer "c" "s1"
      [("status", JStr "Delivered"); ("weight", JStr "12")] t1 [acme]
    = (st', Sent 200 (JObj u)).
Proof.
  exact (proj2 (patch_merges_flat_body sample_lib None bearer "c" "s1"
                  [("status", JStr "Delivered"); ("weight", JStr "12")]
                  t1 [acme] acme eq_refl eq_refl flat_sample)
           eq_refl eq_refl eq_refl eq_refl).
Defined.

Lemma flat_id_sample : flat [("_id", JStr "s9")].
Proof.
  split; repeat constructor; simpl; intuition discriminate.
Qed.

Lemma patch_cannot_change_id_witness :
  shipments_patch sample_lib None bearer "c" "s1" [("_id", JStr "s9")] t1
    [acme; beta]
  = ([acme; beta], Rejected).
Proof.
  exact (patch_cannot_change_id sample_lib None bearer "c" "s1"
           [("_id", JStr "s9")] t1 [acme; beta] acme (JStr "s9")
           eq_refl eq_refl flat_id_sample eq_refl ltac:(discriminate)).
Defined.

Lemma shipment_store_witness :
  store_ok
    (fold_left (fun st r => serve sample_lib None r st)
       [Create bearer "c" [("customer", JStr "X")] t1 "lvo1x2" "ABCDEF2345"
          "EV33333333" "s3";
        Delete bearer "c" "s1"]
       (seed t0 "lvo1x0" "AAAAAAAAAA" "EV11111111" "EV22222222" "lvo1x1"
          "BBBBBBBBBB" "EV44444444" "s1" "s2" [])).
Proof.
  assert (K : store_ok []) by (split; constructor).
  exact (proj1 (shipment_store_keeps_its_shape sample_lib None t0 "lvo1x0"
                  "AAAAAAAAAA" "EV11111111" "EV22222222" "lvo1x1"
                  "BBBBBBBBBB" "EV44444444" "s1" "s2"
                  [Create bearer "c" [("customer", JStr "X")] t1 "lvo1x2"
                     "ABCDEF2345" "EV33333333" "s3";
                   Delete bearer "c" "s1"]
                  [] K (Forall_nil _))).
Defined.

Lemma create_then_delete_witness :
  shipments_delete sample_lib None bearer "c" "s3"
    (fst (shipments_create sample_lib None bearer "c" [("customer", JStr "X")]
            t1 "lvo1x2" "ABCDEF2345" "EV33333333" "s3" [acme; beta]))
  = ([acme; beta], Sent 200 ok_true).
Proof.
  destruct (create_then_delete sample_lib None bearer "c"
              [("customer", JStr "X")] t1 "lvo1x2" "ABCDEF2345" "EV33333333"
              "s3" [acme; beta]
              (fst (shipments_create sample_lib None bearer "c"
                      [("customer", JStr "X")] t1 "lvo1x2" "ABCDEF2345"
                      "EV33333333" "s3" [acme; beta]))
              _ bearer "c" eq_refl eq_refl)
    as (doc & _ & _ & _ & D).
  exact D.
Defined.


Lemma flat_status : flat [("status", JStr "won")].
Proof.
  split; repeat constructor; simpl; intuition discriminate.
Qed.

(** A quote created with the [_id] [["a", "b"]] is found by [a], and the
    patch addressed to [a] gets no reply. *)
Lemma quote_patch_witness :
  quotes_create [("name", JStr "Ann"); ("_id", JArr [JStr "a"; JStr "b"])]
    t0 "q1" []
  = ([ann], Sent 201 (JObj ann))
  /\ findOne "a" [ann] = Some ann
  /\ quotes_patch sample_lib None bearer "c" "a" [("status", JStr "won")]
       [ann]
     = ([ann], Rejected)
  /\ quotes_patch sample_lib None bearer "c" "nope" [("status", JStr "won")]
       [ann]
     = ([ann], Sent 200 JNull).
Proof.
  split; [reflexivity|]. split; [reflexivity|]. split.
  - exact (proj2 (proj1 (proj2 (quote_patch_merges sample_lib None bearer "c"
                                  "a" [("status", JStr "won")] [ann]
                                  eq_refl flat_status))
                    ann [JStr "a"; JStr "b"] eq_refl eq_refl)).
  - exact (proj1 (quote_patch_merges sample_lib None bearer "c" "nope"
                    [("status", JStr "won")] [ann] eq_refl flat_status)
             eq_refl).
Defined.

Lemma quote_create_then_delete_witness :
  quotes_delete sample_lib None bearer "c" "q1"
    (fst (quotes_create [("name", JStr "Ann")] t0 "q1" []))
  = ([], Sent 200 ok_true).
Proof.
  destruct (quote_create_then_delete sample_lib None [("name", JStr "Ann")]
              t0 "q1" []
              (fst (quotes_create [("name", JStr "Ann")] t0 "q1" []))
              _ bearer "c" eq_refl eq_refl eq_refl)
    as (doc & _ & _ & _ & _ & D).
  exact D.
Defined.

Lemma changes_need_a_token_witness :
  shipments
    (fst (handle sample_lib None sample_cmps
            (OnShipments (Delete bearer "c" "s1")) sample_db))
  <> shipments sample_db
  /\ exists auth clock,
      api_auth (OnShipments (Delete bearer "c" "s1")) = Some (auth, clock)
      /\ authMiddleware sample_lib None auth clock = None.
Proof.
  assert (N : shipments
                (fst (handle sample_lib None sample_cmps
                        (OnShipments (Delete bearer "c" "s1")) sample_db))
              <> shipments sample_db) by (vm_compute; discriminate).
  split; [exact N|].
  exact (proj1 (changes_need_a_token sample_lib None sample_cmps
                  (OnShipments (Delete bearer "c" "s1")) sample_db) N).
Defined.
